(** * ccc: the message bridge between assistant hooks, the chat poller
      and the delivery loop

    A shallow embedding of the message store (db.go), the delivery loop and
    the chat poller (session.go) and the hook handlers, with the
    properties of the specification proved about it.

    Modelling conventions.
    - Go [string] is a byte string: Rocq's [string]. [len] is
      [String.length], slicing [s[:n]] is [take_bytes n s].
    - Go [int], [int64] and SQLite INTEGER are [Z]; where a value read
      from outside enters Go arithmetic, the wrap-around at 64 bits is
      written out ([wrapInt64]), and [Atoi] clamps.
    - The [messages] table has [id] as PRIMARY KEY: it is a finite map
      [gmap string Row] from the id to the other columns.
    - The store is open: [openDB] returned a handle.  With a nil handle
      every operation of db.go returns at once and the store is unchanged.
    - Everything outside the process (chat API, tmux, flag files, signals)
      is an [Effect] appended to the world's chronological trace; what the
      outside answers (upload results, the clock) is read from an oracle
      indexed by the number of reads done so far. *)

From stdpp Require Import gmap strings list sorting pretty.

Open Scope string_scope.
Open Scope list_scope.
Open Scope Z_scope.

(** ** Go strings *)

Definition byte_nl : Ascii.ascii := Ascii.ascii_of_nat 10.     (* '\n' *)
Definition byte_dot : Ascii.ascii := Ascii.ascii_of_nat 46.    (* '.' *)
Definition byte_colon : Ascii.ascii := Ascii.ascii_of_nat 58.  (* ':' *)

Definition HasPrefix (s p : string) : bool := String.prefix p s.

Fixpoint Contains (s sub : string) : bool :=
  if String.prefix sub s then true
  else match s with
       | EmptyString => false
       | String _ s' => Contains s' sub
       end.

(** *** [strings.ToLower]

    [strings.ToLower] is [strings.Map(unicode.ToLower, s)]: the string is
    read rune by rune as UTF-8, each rune is lowered and written back as
    UTF-8.  A byte that starts no valid encoding is read as the rune
    U+FFFD, of width 1, and written back as the three bytes of U+FFFD. *)

Definition byteValue (c : Ascii.ascii) : Z := Z.of_nat (Ascii.nat_of_ascii c).

Definition byteOf (n : Z) : Ascii.ascii := Ascii.ascii_of_nat (Z.to_nat n).

Definition RuneError : Z := 65533.

(** A continuation byte: [0x80] to [0xBF]. *)
Definition isCont (b : Z) : bool := (128 <=? b) && (b <=? 191).

(** [utf8.DecodeRuneInString]: the first rune of the string and its
    width in bytes; [(RuneError, 1)] for a byte that starts no shortest
    encoding of a code point outside the surrogates, [(RuneError, 0)] for
    the empty string. *)
Definition DecodeRuneInString (s : string) : Z * nat :=
  match s with
  | EmptyString => (RuneError, 0%nat)
  | String c0 s1 =>
      let b0 := byteValue c0 in
      if b0 <? 128 then (b0, 1%nat)
      else if (194 <=? b0) && (b0 <=? 223) then
        match s1 with
        | String c1 _ =>
            let b1 := byteValue c1 in
            if isCont b1 then ((b0 - 192) * 64 + (b1 - 128), 2%nat)
            else (RuneError, 1%nat)
        | _ => (RuneError, 1%nat)
        end
      else if (224 <=? b0) && (b0 <=? 239) then
        match s1 with
        | String c1 (String c2 _) =>
            let b1 := byteValue c1 in
            let b2 := byteValue c2 in
            let lo := if b0 =? 224 then 160 else 128 in
            let hi := if b0 =? 237 then 159 else 191 in
            if (lo <=? b1) && (b1 <=? hi) && isCont b2
            then ((b0 - 224) * 4096 + (b1 - 128) * 64 + (b2 - 128), 3%nat)
            else (RuneError, 1%nat)
        | _ => (RuneError, 1%nat)
        end
      else if (240 <=? b0) && (b0 <=? 244) then
        match s1 with
        | String c1 (String c2 (String c3 _)) =>
            let b1 := byteValue c1 in
            let b2 := byteValue c2 in
            let b3 := byteValue c3 in
            let lo := if b0 =? 240 then 144 else 128 in
            let hi := if b0 =? 244 then 143 else 191 in
            if (lo <=? b1) && (b1 <=? hi) && isCont b2 && isCont b3
            then ((b0 - 240) * 262144 + (b1 - 128) * 4096 + (b2 - 128) * 64
                  + (b3 - 128), 4%nat)
            else (RuneError, 1%nat)
        | _ => (RuneError, 1%nat)
        end
      else (RuneError, 1%nat)
  end.

(** [utf8.AppendRune]: the UTF-8 encoding of a rune; a surrogate or a
    value out of range is written as U+FFFD. *)
Definition encodeRune (r : Z) : string :=
  let r := if (r <? 0) || (1114111 <? r) || ((55296 <=? r) && (r <=? 57343))
           then RuneError else r in
  if r <? 128 then String (byteOf r) EmptyString
  else if r <? 2048 then
    String (byteOf (192 + r / 64)) (String (byteOf (128 + r `mod` 64)) EmptyString)
  else if r <? 65536 then
    String (byteOf (224 + r / 4096))
      (String (byteOf (128 + (r / 64) `mod` 64))
         (String (byteOf (128 + r `mod` 64)) EmptyString))
  else
    String (byteOf (240 + r / 262144))
      (String (byteOf (128 + (r / 4096) `mod` 64))
         (String (byteOf (128 + (r / 64) `mod` 64))
            (String (byteOf (128 + r `mod` 64)) EmptyString))).

(** An entry of [unicode.CaseRanges], as far as lowering goes: the runes
    from [Lo] to [Hi] are lowered by adding a difference, or, in a range
    of alternating upper and lower case letters, by going to the letter at
    the odd offset. *)
Inductive caseDelta :=
| UpperLower
| LowerDelta (d : Z).

(** The runes above U+007F with a lower case of their own, by ranges
    (Unicode 15.0, simple case mappings). *)
Definition caseRanges : list (Z * Z * caseDelta) :=
  [ (192, 214, LowerDelta 32);
    (216, 222, LowerDelta 32);
    (256, 303, UpperLower);
    (304, 304, LowerDelta (-199));
    (306, 311, UpperLower);
    (313, 328, UpperLower);
    (330, 375, UpperLower);
    (376, 376, LowerDelta (-121));
    (377, 382, UpperLower);
    (385, 385, LowerDelta 210);
    (386, 389, UpperLower);
    (390, 390, LowerDelta 206);
    (391, 391, LowerDelta 1);
    (393, 394, LowerDelta 205);
    (395, 395, LowerDelta 1);
    (398, 398, LowerDelta 79);
    (399, 399, LowerDelta 202);
    (400, 400, LowerDelta 203);
    (401, 401, LowerDelta 1);
    (403, 403, LowerDelta 205);
    (404, 404, LowerDelta 207);
    (406, 406, LowerDelta 211);
    (407, 407, LowerDelta 209);
    (408, 408, LowerDelta 1);
    (412, 412, LowerDelta 211);
    (413, 413, LowerDelta 213);
    (415, 415, LowerDelta 214);
    (416, 421, UpperLower);
    (422, 422, LowerDelta 218);
    (423, 423, LowerDelta 1);
    (425, 425, LowerDelta 218);
    (428, 428, LowerDelta 1);
    (430, 430, LowerDelta 218);
    (431, 431, LowerDelta 1);
    (433, 434, LowerDelta 217);
    (435, 438, UpperLower);
    (439, 439, LowerDelta 219);
    (440, 440, LowerDelta 1);
    (444, 444, LowerDelta 1);
    (452, 452, LowerDelta 2);
    (453, 453, LowerDelta 1);
    (455, 455, LowerDelta 2);
    (456, 456, LowerDelta 1);
    (458, 458, LowerDelta 2);
    (459, 476, UpperLower);
    (478, 495, UpperLower);
    (497, 497, LowerDelta 2);
    (498, 501, UpperLower);
    (502, 502, LowerDelta (-97));
    (503, 503, LowerDelta (-56));
    (504, 543, UpperLower);
    (544, 544, LowerDelta (-130));
    (546, 563, UpperLower);
    (570, 570, LowerDelta 10795);
    (571, 571, LowerDelta 1);
    (573, 573, LowerDelta (-163));
    (574, 574, LowerDelta 10792);
    (577, 577, LowerDelta 1);
    (579, 579, LowerDelta (-195));
    (580, 580, LowerDelta 69);
    (581, 581, LowerDelta 71);
    (582, 591, UpperLower);
    (880, 883, UpperLower);
    (886, 886, LowerDelta 1);
    (895, 895, LowerDelta 116);
    (902, 902, LowerDelta 38);
    (904, 906, LowerDelta 37);
    (908, 908, LowerDelta 64);
    (910, 911, LowerDelta 63);
    (913, 929, LowerDelta 32);
    (931, 939, LowerDelta 32);
    (975, 975, LowerDelta 8);
    (984, 1007, UpperLower);
    (1012, 1012, LowerDelta (-60));
    (1015, 1015, LowerDelta 1);
    (1017, 1017, LowerDelta (-7));
    (1018, 1018, LowerDelta 1);
    (1021, 1023, LowerDelta (-130));
    (1024, 1039, LowerDelta 80);
    (1040, 1071, LowerDelta 32);
    (1120, 1153, UpperLower);
    (1162, 1215, UpperLower);
    (1216, 1216, LowerDelta 15);
    (1217, 1230, UpperLower);
    (1232, 1327, UpperLower);
    (1329, 1366, LowerDelta 48);
    (4256, 4293, LowerDelta 7264);
    (4295, 4295, LowerDelta 7264);
    (4301, 4301, LowerDelta 7264);
    (5024, 5103, LowerDelta 38864);
    (5104, 5109, LowerDelta 8);
    (7312, 7354, LowerDelta (-3008));
    (7357, 7359, LowerDelta (-3008));
    (7680, 7829, UpperLower);
    (7838, 7838, LowerDelta (-7615));
    (7840, 7935, UpperLower);
    (7944, 7951, LowerDelta (-8));
    (7960, 7965, LowerDelta (-8));
    (7976, 7983, LowerDelta (-8));
    (7992, 7999, LowerDelta (-8));
    (8008, 8013, LowerDelta (-8));
    (8025, 8025, LowerDelta (-8));
    (8027, 8027, LowerDelta (-8));
    (8029, 8029, LowerDelta (-8));
    (8031, 8031, LowerDelta (-8));
    (8040, 8047, LowerDelta (-8));
    (8072, 8079, LowerDelta (-8));
    (8088, 8095, LowerDelta (-8));
    (8104, 8111, LowerDelta (-8));
    (8120, 8121, LowerDelta (-8));
    (8122, 8123, LowerDelta (-74));
    (8124, 8124, LowerDelta (-9));
    (8136, 8139, LowerDelta (-86));
    (8140, 8140, LowerDelta (-9));
    (8152, 8153, LowerDelta (-8));
    (8154, 8155, LowerDelta (-100));
    (8168, 8169, LowerDelta (-8));
    (8170, 8171, LowerDelta (-112));
    (8172, 8172, LowerDelta (-7));
    (8184, 8185, LowerDelta (-128));
    (8186, 8187, LowerDelta (-126));
    (8188, 8188, LowerDelta (-9));
    (8486, 8486, LowerDelta (-7517));
    (8490, 8490, LowerDelta (-8383));
    (8491, 8491, LowerDelta (-8262));
    (8498, 8498, LowerDelta 28);
    (8544, 8559, LowerDelta 16);
    (8579, 8579, LowerDelta 1);
    (9398, 9423, LowerDelta 26);
    (11264, 11311, LowerDelta 48);
    (11360, 11360, LowerDelta 1);
    (11362, 11362, LowerDelta (-10743));
    (11363, 11363, LowerDelta (-3814));
    (11364, 11364, LowerDelta (-10727));
    (11367, 11372, UpperLower);
    (11373, 11373, LowerDelta (-10780));
    (11374, 11374, LowerDelta (-10749));
    (11375, 11375, LowerDelta (-10783));
    (11376, 11376, LowerDelta (-10782));
    (11378, 11378, LowerDelta 1);
    (11381, 11381, LowerDelta 1);
    (11390, 11391, LowerDelta (-10815));
    (11392, 11491, UpperLower);
    (11499, 11502, UpperLower);
    (11506, 11506, LowerDelta 1);
    (42560, 42605, UpperLower);
    (42624, 42651, UpperLower);
    (42786, 42799, UpperLower);
    (42802, 42863, UpperLower);
    (42873, 42876, UpperLower);
    (42877, 42877, LowerDelta (-35332));
    (42878, 42887, UpperLower);
    (42891, 42891, LowerDelta 1);
    (42893, 42893, LowerDelta (-42280));
    (42896, 42899, UpperLower);
    (42902, 42921, UpperLower);
    (42922, 42922, LowerDelta (-42308));
    (42923, 42923, LowerDelta (-42319));
    (42924, 42924, LowerDelta (-42315));
    (42925, 42925, LowerDelta (-42305));
    (42926, 42926, LowerDelta (-42308));
    (42928, 42928, LowerDelta (-42258));
    (42929, 42929, LowerDelta (-42282));
    (42930, 42930, LowerDelta (-42261));
    (42931, 42931, LowerDelta 928);
    (42932, 42947, UpperLower);
    (42948, 42948, LowerDelta (-48));
    (42949, 42949, LowerDelta (-42307));
    (42950, 42950, LowerDelta (-35384));
    (42951, 42954, UpperLower);
    (42960, 42960, LowerDelta 1);
    (42966, 42969, UpperLower);
    (42997, 42997, LowerDelta 1);
    (65313, 65338, LowerDelta 32);
    (66560, 66599, LowerDelta 40);
    (66736, 66771, LowerDelta 40);
    (66928, 66938, LowerDelta 39);
    (66940, 66954, LowerDelta 39);
    (66956, 66962, LowerDelta 39);
    (66964, 66965, LowerDelta 39);
    (68736, 68786, LowerDelta 64);
    (71840, 71871, LowerDelta 32);
    (93760, 93791, LowerDelta 32);
    (125184, 125217, LowerDelta 34) ].

(** [unicode.ToLower] *)
Definition unicodeToLower (r : Z) : Z :=
  if r <=? 127 then
    if (65 <=? r) && (r <=? 90) then r + 32 else r
  else
    match List.find (fun cr : Z * Z * caseDelta => (cr.1.1 <=? r) && (r <=? cr.1.2))
                    caseRanges with
    | Some (lo, _, UpperLower) => lo + Z.lor (r - lo) 1
    | Some (_, _, LowerDelta d) => r + d
    | None => r
    end.

Fixpoint drop_bytes (n : nat) (s : string) : string :=
  match n, s with
  | S n', String _ s' => drop_bytes n' s'
  | _, _ => s
  end.

(** [strings.Map] with a mapping that drops no rune; [fuel] bounds the
    number of runes by the number of bytes. *)
Fixpoint mapRunes (mapping : Z → Z) (fuel : nat) (s : string) : string :=
  match fuel, s with
  | S fuel', String _ _ =>
      let '(r, width) := DecodeRuneInString s in
      encodeRune (mapping r) +:+ mapRunes mapping fuel' (drop_bytes width s)
  | _, _ => EmptyString
  end.

Definition ToLower (s : string) : string :=
  mapRunes unicodeToLower (String.length s) s.

Fixpoint take_bytes (n : nat) (s : string) : string :=
  match n, s with
  | S n', String c s' => String c (take_bytes n' s')
  | _, _ => EmptyString
  end.

(** [fmt.Sprintf("%d", n)] *)
Definition itoa (n : Z) : string := pretty n.

(** The result of an operation on Go's [int]: it wraps around at 64
    bits. *)
Definition wrapInt64 (n : Z) : Z := (n + 2 ^ 63) `mod` 2 ^ 64 - 2 ^ 63.

(** ** The message store (db.go) *)

(** [MessageRecord]: what producers hand to [appendMessage] and what
    [findPending] returns. *)
Record MessageRecord := mkMessageRecord {
  ID : string;
  Session : string;
  MType : string;        (* user_prompt / assistant_text / tool_call / notification *)
  Text : string;
  Origin : string;       (* terminal / telegram / claude *)
  TgDelivered : bool;
  TgMsgID : Z;
  RetryCount : Z;
  Timestamp : Z
}.

(** A row of the [messages] table, without its key. *)
Record Row := mkRow {
  session : string;
  type : string;
  text : string;
  origin : string;
  tg_delivered : Z;
  tg_msg_id : Z;
  retry_count : Z;
  created_at : Z
}.

Abbreviation DB := (gmap string Row).

Definition boolToInt (b : bool) : Z := if b then 1 else 0.

Definition maxRetries : Z := 5.

(** [appendMessage]: INSERT ... ON CONFLICT(id) DO UPDATE.  [now] is the
    value of [time.Now().UnixMilli()], used when the record carries no
    timestamp. *)
Definition appendMessage (rec : MessageRecord) (now : Z) (db : DB) : DB :=
  let ts := if Timestamp rec =? 0 then now else Timestamp rec in
  match db !! ID rec with
  | None =>
      <[ID rec := mkRow (Session rec) (MType rec) (Text rec) (Origin rec)
                        (boolToInt (TgDelivered rec)) (TgMsgID rec) 0 ts]> db
  | Some old =>
      <[ID rec := mkRow (session old) (type old) (text old) (origin old)
                        (Z.max (tg_delivered old) (boolToInt (TgDelivered rec)))
                        (if 0 <? TgMsgID rec then TgMsgID rec else tg_msg_id old)
                        (retry_count old) (created_at old)]> db
  end.

(** [markDelivered]: UPDATE ... SET tg_delivered = 1, tg_msg_id = ? WHERE id = ? *)
Definition markDelivered (msgID : string) (tgMsgID : Z) (db : DB) : DB :=
  alter (fun r => mkRow (session r) (type r) (text r) (origin r)
                        1 tgMsgID (retry_count r) (created_at r)) msgID db.

(** [incRetry]: UPDATE ... SET retry_count = retry_count + 1 WHERE id = ? *)
Definition incRetry (msgID : string) (db : DB) : DB :=
  alter (fun r => mkRow (session r) (type r) (text r) (origin r)
                        (tg_delivered r) (tg_msg_id r) (retry_count r + 1)
                        (created_at r)) msgID db.

Definition isDelivered (msgID : string) (db : DB) : bool :=
  match db !! msgID with
  | Some r => negb (tg_delivered r =? 0)
  | None => false
  end.

(** The row scanned back into a [MessageRecord], as the loop of
    [findPending] does. *)
Definition scanRow (kr : string * Row) : MessageRecord :=
  mkMessageRecord kr.1 (session kr.2) (type kr.2) (text kr.2) (origin kr.2)
                  (negb (tg_delivered kr.2 =? 0)) (tg_msg_id kr.2)
                  (retry_count kr.2) (created_at kr.2).

Definition pendingRow (sess : string) (kr : string * Row) : Prop :=
  session kr.2 = sess ∧ tg_delivered kr.2 = 0 ∧ retry_count kr.2 < maxRetries.

Global Instance pendingRow_dec sess kr : Decision (pendingRow sess kr).
Proof. unfold pendingRow. apply _. Defined.

Definition byCreatedAt (a b : MessageRecord) : Prop := Timestamp a ≤ Timestamp b.

Global Instance byCreatedAt_dec a b : Decision (byCreatedAt a b).
Proof. unfold byCreatedAt. apply _. Defined.

(** [findPending]: SELECT ... WHERE session = ? AND tg_delivered = 0 AND
    retry_count < maxRetries ORDER BY created_at. *)
Definition findPending (sess : string) (db : DB) : list MessageRecord :=
  merge_sort byCreatedAt (scanRow <$> filter (pendingRow sess) (map_to_list db)).

(** [allSessions]: SELECT DISTINCT session FROM messages WHERE tg_delivered = 0 *)
Definition allSessions (db : DB) : list string :=
  remove_dups
    ((fun kr => session kr.2) <$>
       filter (fun kr : string * Row => tg_delivered kr.2 = 0) (map_to_list db)).

Definition fromTelegramRow (sess promptText : string) (kr : string * Row) : Prop :=
  session kr.2 = sess ∧ origin kr.2 = "telegram" ∧ type kr.2 = "user_prompt"
  ∧ text kr.2 = promptText.

Global Instance fromTelegramRow_dec sess p kr : Decision (fromTelegramRow sess p kr).
Proof. unfold fromTelegramRow. apply _. Defined.

(** [isFromTelegram]: SELECT COUNT( * ) ... > 0 *)
Definition isFromTelegram (sess promptText : string) (db : DB) : bool :=
  bool_decide (0 < length (filter (fromTelegramRow sess promptText) (map_to_list db)))%nat.

(** [isPermanentError] *)
Definition permanent : list string :=
  [ "chat not found"; "bot was blocked"; "bot was kicked";
    "chat_id is empty"; "not enough rights"; "PEER_ID_INVALID" ].

Definition isPermanentError (errMsg : string) : bool :=
  let lower := ToLower errMsg in
  existsb (fun p => Contains lower (ToLower p)) permanent.

(** ** Configuration, world and effects *)

(** The fields of [SessionInfo] and [Config] that the modelled code reads.
    A session entry of the JSON configuration may be null: [None]. *)
Record SessionInfo := mkSessionInfo {
  TopicID : Z;
  Path : string;
  WindowID : string;
  ClaudeSessionID : string
}.

Record Config := mkConfig {
  ChatID : Z;
  GroupID : Z;
  Sessions : gmap string (option SessionInfo)
}.

(** A row of the [events] table. *)
Record Event := mkEvent {
  ev_session : string;
  ev_type : string;
  ev_source : string;
  ev_ref_id : string;
  ev_detail : string;
  ev_created_at : Z
}.

Record ToolCall := mkToolCall {
  Name : string;
  Input : string;
  IsText : bool;
  Time : Z
}.

Record ToolState := mkToolState {
  MsgID : Z;
  Tools : list ToolCall
}.

(** Flag files of the cache directory. *)
Inductive Flag :=
| TelegramActive (tmuxName : string)
| Thinking (sessionName : string)
| PromptAck (sessionName : string).

(** Calls that leave the process, in the order they are made.  Durations
    are [time.Duration] values, in nanoseconds. *)
Inductive Effect :=
| TgSendHTML (chatID threadID : Z) (html : string)      (* sendMessageHTMLGetID *)
| TgSendMessage (chatID threadID : Z) (msg : string)    (* sendMessage *)
| TgEditRemoveKeyboard (chatID msgID : Z) (newText : string)
| TgAnswerCallback (id : string)
| TgDownload (fileID path : string)
| TmuxSendKeys (target : string) (keys : list string)   (* tmux send-keys -t target keys *)
| TmuxNewWindow (windowName workDir : string)
| Sleep (d : Z)
| FlagWrite (f : Flag)
| FlagRemove (f : Flag)
| NotifyListener.

Definition Millisecond : Z := 1000000.
Definition Microsecond : Z := 1000.
Definition Second : Z := 1000000000.

Inductive SendResult :=
| SendOk (tgMsgID : Z)
| SendErr (errMsg : string).

(** What the outside answers.  Every read of an oracle is numbered by the
    world's [reads] counter, so two reads never share an index and an
    oracle stands for any sequence of answers.  [markdownToHTML] and the
    temporary directory are the repository's and the system's own. *)
Record Env := mkEnv {
  clock : nat → Z;               (* time.Now().UnixNano() *)
  upload : nat → SendResult;     (* result of sendMessageHTMLGetID *)
  run_ok : nat → option string;  (* error of a command or download, if any *)
  new_window : nat → string;     (* id printed by tmux new-window *)
  markdownToHTML : string → string;
  TempDir : string
}.

(** The persistent and external state one process step works on: the
    tables of the store, the configuration file, the windows tmux lists
    (pairs of window id and window name; [None] when tmux fails), and the
    trace of effects. *)
Record World := mkWorld {
  messages : DB;
  events : list Event;
  tool_state : gmap string ToolState;
  config : Config;
  windows : option (list (string * string));
  effects : list Effect;
  reads : nat
}.

Definition set_messages (f : DB → DB) (w : World) : World :=
  mkWorld (f (messages w)) (events w) (tool_state w) (config w) (windows w)
          (effects w) (reads w).

Definition set_config (c : Config) (w : World) : World :=
  mkWorld (messages w) (events w) (tool_state w) c (windows w)
          (effects w) (reads w).

Definition emit (e : Effect) (w : World) : World :=
  mkWorld (messages w) (events w) (tool_state w) (config w) (windows w)
          (effects w ++ [e]) (reads w).

(** One more oracle read done. *)
Definition tick (w : World) : World :=
  mkWorld (messages w) (events w) (tool_state w) (config w) (windows w)
          (effects w) (S (reads w)).

Definition UnixMilli (nano : Z) : Z := nano `div` 1000000.

Definition logEvent (E : Env) (sess eventType source refID detail : string)
    (w : World) : World :=
  tick (mkWorld (messages w)
          (events w ++ [mkEvent sess eventType source refID detail
                                (UnixMilli (clock E (reads w)))])
          (tool_state w) (config w) (windows w) (effects w) (reads w)).

Definition clearToolState (sess : string) (w : World) : World :=
  mkWorld (messages w) (events w) (delete sess (tool_state w)) (config w)
          (windows w) (effects w) (reads w).

(** [appendMessage] on the world: the clock is read only for a record
    without timestamp. *)
Definition appendMessageW (E : Env) (rec : MessageRecord) (w : World) : World :=
  if Timestamp rec =? 0
  then tick (set_messages (appendMessage rec (UnixMilli (clock E (reads w)))) w)
  else set_messages (appendMessage rec 0) w.

Definition sendMessage (chatID threadID : Z) (msg : string) (w : World) : World :=
  emit (TgSendMessage chatID threadID msg) w.

Definition sendMessageHTMLGetID (E : Env) (chatID threadID : Z) (html : string)
    (w : World) : SendResult * World :=
  (upload E (reads w), tick (emit (TgSendHTML chatID threadID html) w)).

(** ** The delivery loop (session.go, [deliveryLoop]) *)

Definition nl : string := String byte_nl EmptyString.

(** The [switch msg.Type] of the loop: the upload body, or [None] for the
    default case (tool_call and the like). *)
Definition renderHTML (E : Env) (sessName : string) (msg : MessageRecord) : option string :=
  if String.eqb (MType msg) "user_prompt" then
    Some ("💬 " +:+ markdownToHTML E (Text msg))
  else if String.eqb (MType msg) "assistant_text" then
    Some ("<b>" +:+ sessName +:+ ":</b>" +:+ nl +:+ markdownToHTML E (Text msg))
  else if String.eqb (MType msg) "notification" then
    Some (markdownToHTML E (Text msg))
  else None.

(** The body of [if err != nil] up to, not including, its final [break]. *)
Definition onSendFailure (E : Env) (groupID topicID : Z) (sessName : string)
    (msg : MessageRecord) (errMsg : string) (w : World) : World :=
  let w1 := set_messages (incRetry (ID msg)) w in
  let retry := wrapInt64 (RetryCount msg + 1) in
  let w2 := logEvent E sessName "send_failed" "listener" (ID msg)
              ("retry=" +:+ itoa retry +:+ " err=" +:+ errMsg) w1 in
  if isPermanentError errMsg then
    sendMessage groupID topicID
      ("❌ Message dropped (permanent error): " +:+ errMsg)
      (set_messages (markDelivered (ID msg) 0) w2)
  else if maxRetries <=? retry then
    sendMessage groupID topicID
      ("❌ Message dropped after " +:+ itoa retry +:+ " retries: " +:+ errMsg)
      (set_messages (markDelivered (ID msg) 0) w2)
  else if 2 <=? retry then
    sendMessage groupID topicID
      ("⚠️ Send failed (" +:+ itoa retry +:+ "/" +:+ itoa maxRetries +:+ "): " +:+ errMsg)
      w2
  else w2.

(** [for _, msg := range pending]: the inner loop over one session's
    pending rows.  A failed upload ends the loop ([break]). *)
Fixpoint drain (E : Env) (groupID topicID : Z) (sessName : string)
    (pending : list MessageRecord) (w : World) : World :=
  match pending with
  | [] => w
  | msg :: rest =>
      match renderHTML E sessName msg with
      | None =>
          drain E groupID topicID sessName rest
                (set_messages (markDelivered (ID msg) 0) w)
      | Some html =>
          match sendMessageHTMLGetID E groupID topicID html w with
          | (SendErr errMsg, w') =>
              onSendFailure E groupID topicID sessName msg errMsg w'
          | (SendOk tgMsgID, w') =>
              drain E groupID topicID sessName rest
                (logEvent E sessName "send_ok" "listener" (ID msg)
                   ("tg_msg_id=" +:+ itoa tgMsgID)
                   (set_messages (markDelivered (ID msg) tgMsgID) w'))
          end
      end
  end.

(** The body of [for _, sessName := range sessions]. *)
Definition deliverSession (E : Env) (cfg : Config) (sessName : string)
    (w : World) : World :=
  match Sessions cfg !! sessName with
  | Some (Some info) =>
      if ((TopicID info =? 0) || (GroupID cfg =? 0))%bool then w
      else drain E (GroupID cfg) (TopicID info) sessName
                 (findPending sessName (messages w)) w
  | _ => w
  end.

(** One wake-up of the loop: reload the configuration, list the sessions
    with undelivered rows, drain each. *)
Definition deliveryCycle (E : Env) (w : World) : World :=
  let cfg := config w in
  foldl (fun w' sessName => deliverSession E cfg sessName w') w
        (allSessions (messages w)).

(** ** The transcript tailer ([extractRecentAssistantTexts]) *)

Definition bytes (l : list nat) : string :=
  foldr (fun n s => String (Ascii.ascii_of_nat n) s) EmptyString l.

Fixpoint rev_bytes (acc s : string) : string :=
  match s with
  | EmptyString => acc
  | String c s' => rev_bytes (String c acc) s'
  end.

(** The UTF-8 encodings of the code points [unicode.IsSpace] accepts:
    tab to carriage return, space, U+0085, U+00A0, U+1680, U+2000 to
    U+200A, U+2028, U+2029, U+202F, U+205F and U+3000. *)
Definition spaceRunes : list string :=
  (bytes <$> [[9]; [10]; [11]; [12]; [13]; [32]; [194; 133]; [194; 160];
              [225; 154; 128]; [226; 128; 168]; [226; 128; 169];
              [226; 128; 175]; [226; 129; 159]; [227; 128; 128]])%nat
  ++ ((fun n => bytes [226; 128; 128 + n]%nat) <$> seq 0 11).

(** Length of the white-space rune [s] starts with, [0] when it starts
    with none. *)
Definition spacePrefixLen (runes : list string) (s : string) : nat :=
  match filter (fun r => String.prefix r s = true) runes with
  | r :: _ => String.length r
  | [] => 0
  end.

Fixpoint trimLeftRunes (runes : list string) (fuel : nat) (s : string) : string :=
  match fuel with
  | O => s
  | S fuel' =>
      match spacePrefixLen runes s with
      | O => s
      | k => trimLeftRunes runes fuel' (drop_bytes k s)
      end
  end.

(** [strings.TrimSpace]: leading, then trailing white-space runes go.  A
    trailing rune is a white-space rune exactly when the string ends with
    its encoding, so the right trim is the left trim of the reversed
    string against the reversed encodings. *)
Definition TrimSpace (s : string) : string :=
  let l := trimLeftRunes spaceRunes (String.length s) s in
  rev_bytes EmptyString
    (trimLeftRunes (rev_bytes EmptyString <$> spaceRunes) (String.length l)
                   (rev_bytes EmptyString l)).

Record contentBlock := mkContentBlock {
  BlockType : string;
  BlockText : string
}.

(** A transcript line after [json.Unmarshal] into [transcriptLine].  An
    absent [requestId] is the empty string, an absent [isApiErrorMessage]
    is [false].  [Content] is [message.content] after the second
    [json.Unmarshal], into a slice of [contentBlock]: [None] when that one
    fails. *)
Record transcriptLine := mkTranscriptLine {
  LineType : string;
  RequestID : string;
  IsApiErrorMessage : bool;
  Role : string;
  Content : option (list contentBlock)
}.

Record entry := mkEntry {
  e_requestID : string;
  e_content : option (list contentBlock)
}.

Record ridText := mkRidText {
  rt_requestID : string;
  rt_texts : list string
}.

Record assistantTextBlock := mkAssistantTextBlock {
  requestID : string;
  blockText : string
}.

Definition tailBytes : nat := 512 * 1024.

(** The bytes the tailer scans: the last [tailBytes] of the file, less
    the partial first line when the read started inside the file. *)
Fixpoint afterNewline (s : string) : option string :=
  match s with
  | EmptyString => None
  | String c s' => if Ascii.eqb c byte_nl then Some s' else afterNewline s'
  end.

Definition tailData (file : string) : string :=
  if Nat.ltb tailBytes (String.length file) then
    let data := drop_bytes (String.length file - tailBytes) file in
    match afterNewline data with
    | Some rest => rest
    | None => data
    end
  else file.

(** [strings.Split] and [bytes.Split] for a separator of one byte;
    [cur] holds the bytes of the current part, last first. *)
Fixpoint splitByte (sep : Ascii.ascii) (cur : string) (s : string) : list string :=
  match s with
  | EmptyString => [rev_bytes EmptyString cur]
  | String c s' =>
      if Ascii.eqb c sep
      then rev_bytes EmptyString cur :: splitByte sep EmptyString s'
      else splitByte sep (String c cur) s'
  end.

Definition Split (s : string) (sep : Ascii.ascii) : list string :=
  splitByte sep EmptyString s.

(** The first loop: which lines become entries.  [None] is a line
    [json.Unmarshal] rejects. *)
Definition selectEntry (line : option transcriptLine) : option entry :=
  match line with
  | None => None
  | Some tl =>
      if negb (String.eqb (LineType tl) "assistant")
         || negb (String.eqb (Role tl) "assistant") then None
      else if IsApiErrorMessage tl || String.eqb (RequestID tl) "" then None
      else Some (mkEntry (RequestID tl) (Content tl))
  end.

(** [entries[len(entries)-tailCount:]] when there are more than [tailCount] *)
Definition lastN {A} (tailCount : nat) (l : list A) : list A :=
  drop (length l - tailCount) l.

Definition keptText (b : contentBlock) : option string :=
  if negb (String.eqb (BlockType b) "text") then None
  else let t := TrimSpace (BlockText b) in
       if negb (String.eqb t "") && negb (String.eqb t "(no content)")
       then Some t else None.

(** One turn of the second loop.  The state is the map [seen] from a
    request id to its index in [ordered], and [ordered]. *)
Definition dedupStep (st : gmap string nat * list ridText) (e : entry)
    : gmap string nat * list ridText :=
  match e_content e with
  | None => st
  | Some blocks =>
      let texts : list string := omap keptText blocks in
      match texts with
      | [] => st
      | _ :: _ =>
          match st.1 !! e_requestID e with
          | Some idx =>
              (st.1, alter (fun rt => mkRidText (rt_requestID rt) texts) idx st.2)
          | None =>
              (<[e_requestID e := List.length st.2]> st.1,
               st.2 ++ [mkRidText (e_requestID e) texts])
          end
      end
  end.

Definition flattenOrdered (ordered : list ridText) : list assistantTextBlock :=
  ordered ≫= (fun rt => mkAssistantTextBlock (rt_requestID rt) <$> rt_texts rt).

(** The tailer on the decoded lines of the scanned tail. *)
Definition extractFromLines (lines : list (option transcriptLine)) (tailCount : nat)
    : list assistantTextBlock :=
  let entries := lastN tailCount (omap selectEntry lines) in
  flattenOrdered (foldl dedupStep (∅, []) entries).2.

(** [extractRecentAssistantTexts]: [file] is the content of the file at
    [transcriptPath], [None] when it cannot be opened or read;
    [unmarshal] is [json.Unmarshal] into a [transcriptLine]. *)
Definition extractRecentAssistantTexts
    (unmarshal : string → option transcriptLine)
    (transcriptPath : string) (file : option string) (tailCount : nat)
    : list assistantTextBlock :=
  if String.eqb transcriptPath "" then []
  else match file with
       | None => []
       | Some data =>
           extractFromLines
             (unmarshal <$> filter (fun l => l ≠ "")
                              (Split (tailData data) byte_nl))
             tailCount
       end.

(** ** Tool-input summary ([toolInputSummary]) *)

(** The fields of the hook input the modelled code reads. *)
Record ToolInputData := mkToolInputData {
  Command : string;
  FilePath : string;
  OldString : string;
  Pattern : string;
  Description : string;
  Query : string;
  URL : string
}.

Record HookData := mkHookData {
  SessionID : string;
  Cwd : string;
  ToolName : string;
  ToolInput : ToolInputData;
  Prompt : string
}.

(** [strings.ReplaceAll] for an [old] of one byte. *)
Fixpoint ReplaceAll (s : string) (old : Ascii.ascii) (new : string) : string :=
  match s with
  | EmptyString => EmptyString
  | String c s' =>
      if Ascii.eqb c old then new +:+ ReplaceAll s' old new
      else String c (ReplaceAll s' old new)
  end.

Definition truncAt : nat := 80.

Definition trunc (s : string) : string :=
  if Nat.ltb truncAt (String.length s) then take_bytes truncAt s +:+ "..." else s.

Definition toolInputSummary (hookData : HookData) : string :=
  let ti := ToolInput hookData in
  let name := ToolName hookData in
  if String.eqb name "Bash" then trunc (Command ti)
  else if String.eqb name "Read" || String.eqb name "Write" then FilePath ti
  else if String.eqb name "Edit" then
    if negb (String.eqb (OldString ti) "") then
      let preview :=
        if Nat.ltb 40 (String.length (OldString ti))
        then take_bytes 40 (OldString ti) +:+ "..." else OldString ti in
      FilePath ti +:+ " `" +:+ ReplaceAll preview byte_nl "↵" +:+ "`"
    else FilePath ti
  else if String.eqb name "Grep" || String.eqb name "Glob" then
    if negb (String.eqb (Pattern ti) "") then trunc (Pattern ti)
    else Description ti
  else if String.eqb name "WebSearch" then trunc (Query ti)
  else if String.eqb name "WebFetch" then trunc (URL ti)
  else if String.eqb name "Task" then trunc (Description ti)
  else if negb (String.eqb (Description ti) "") then trunc (Description ti)
  else "".

(** ** Sessions and tmux windows *)

Definition tmuxSafeName (name : string) : string :=
  ReplaceAll name byte_dot "_".

Definition getWindowID (cfg : Config) (sessionName : string) : string :=
  match Sessions cfg !! sessionName with
  | Some (Some info) => WindowID info
  | _ => ""
  end.

(** [for name, info := range config.Sessions] returning at the first hit.
    Go leaves the order of the range open; the model fixes the order of
    [map_to_list]. *)
Fixpoint firstSession (P : string → SessionInfo → bool)
    (l : list (string * option SessionInfo)) : string * Z :=
  match l with
  | [] => ("", 0)
  | (name, Some info) :: l' =>
      if P name info then (name, TopicID info) else firstSession P l'
  | (_, None) :: l' => firstSession P l'
  end.

Definition getSessionByTopic (cfg : Config) (topicID : Z) : string :=
  (firstSession (fun _ info => TopicID info =? topicID)
                (map_to_list (Sessions cfg))).1.

Definition HasSuffix (s suffix : string) : bool :=
  String.prefix (rev_bytes EmptyString suffix) (rev_bytes EmptyString s).

Definition findSessionByClaudeID (cfg : Config) (claudeSessionID : string) : string * Z :=
  if String.eqb claudeSessionID "" then ("", 0)
  else firstSession
         (fun name info => negb (String.eqb name "")
                           && String.eqb (ClaudeSessionID info) claudeSessionID)
         (map_to_list (Sessions cfg)).

Definition findSessionByCwd (cfg : Config) (cwd : string) : string * Z :=
  firstSession
    (fun name info =>
       negb (String.eqb name "")
       && (String.eqb cwd (Path info)
           || HasPrefix cwd (Path info +:+ "/")
           || HasSuffix cwd ("/" +:+ name)))
    (map_to_list (Sessions cfg)).

Definition findSession (cfg : Config) (cwd claudeSessionID : string) : string * Z :=
  let r := findSessionByClaudeID cfg claudeSessionID in
  if negb (String.eqb r.1 "") then r else findSessionByCwd cfg cwd.

Definition persistClaudeSessionID (sessName claudeSessionID : string) (w : World) : World :=
  if String.eqb claudeSessionID "" || String.eqb sessName "" then w
  else match Sessions (config w) !! sessName with
       | Some (Some info) =>
           if negb (String.eqb (ClaudeSessionID info) claudeSessionID) then
             set_config
               (mkConfig (ChatID (config w)) (GroupID (config w))
                  (<[sessName := Some (mkSessionInfo (TopicID info) (Path info)
                                         (WindowID info) claudeSessionID)]>
                     (Sessions (config w))))
               w
           else w
       | _ => w
       end.

Definition defaultTmuxSession : string := "ccc".

Definition tmuxWindowExistsByID (wins : option (list (string * string)))
    (windowID windowName : string) : bool :=
  match wins with
  | None => false
  | Some l =>
      if negb (String.eqb windowID "")
      then existsb (fun p : string * string => String.eqb p.1 windowID) l
      else existsb (fun p : string * string => String.eqb p.2 windowName) l
  end.

Definition tmuxTargetByName (wins : option (list (string * string)))
    (windowName : string) : string :=
  match wins with
  | Some l =>
      match filter (fun p : string * string => p.2 = windowName) l with
      | p :: _ => p.1
      | [] => defaultTmuxSession +:+ ":" +:+ windowName
      end
  | None => defaultTmuxSession +:+ ":" +:+ windowName
  end.

Definition tmuxTargetByID (wins : option (list (string * string)))
    (windowID windowName : string) : string :=
  if negb (String.eqb windowID "") then windowID
  else tmuxTargetByName wins windowName.

(** ** Injecting a prompt into a window (tmux.go) *)

(** [sendToTmuxWithDelay]: the literal text, then Enter twice.  The
    result is the error of the first [send-keys], if any. *)
Definition sendToTmuxWithDelay (E : Env) (target text : string) (delay : Z)
    (w : World) : option string * World :=
  let w1 := if 0 <? delay then emit (Sleep delay) w else w in
  let w2 := tick (emit (TmuxSendKeys target ["-l"; text]) w1) in
  match run_ok E (reads w1) with
  | Some err => (Some err, w2)
  | None =>
      (None,
       emit (TmuxSendKeys target ["C-m"])
         (emit (Sleep (50 * Millisecond))
            (emit (TmuxSendKeys target ["C-m"])
               (emit (Sleep (100 * Millisecond)) w2))))
  end.

Definition sendToTmux (E : Env) (target text : string) (w : World)
    : option string * World :=
  let baseDelay := 50 * Millisecond in
  let charDelay := Z.of_nat (String.length text) * 500 * Microsecond in
  let delay := baseDelay + charDelay in
  let delay := if 5 * Second <? delay then 5 * Second else delay in
  sendToTmuxWithDelay E target text delay w.

Definition sendToTmuxFromTelegram (E : Env) (target windowName text : string)
    (w : World) : option string * World :=
  sendToTmux E target text (emit (FlagWrite (TelegramActive windowName)) w).

Definition sendToTmuxFromTelegramWithDelay (E : Env) (target windowName text : string)
    (delay : Z) (w : World) : option string * World :=
  sendToTmuxWithDelay E target text delay
    (emit (FlagWrite (TelegramActive windowName)) w).

(** [createTmuxWindow], as one effect: the window id on success, the
    error otherwise.  The commands inside it are not traced. *)
Definition createTmuxWindow (E : Env) (windowName workDir : string) (w : World)
    : (string + string) * World :=
  let w1 := tick (emit (TmuxNewWindow windowName workDir) w) in
  match run_ok E (reads w) with
  | Some err => (inr err, w1)
  | None =>
      let newID := new_window E (reads w) in
      (inl newID,
       mkWorld (messages w1) (events w1) (tool_state w1) (config w1)
               (Some (default [] (windows w1) ++ [(newID, windowName)]))
               (effects w1) (reads w1))
  end.

(** ** The user-prompt hook ([handleUserPromptHook]) *)

(** From the parsed hook input on; an unreadable input or configuration
    ends the hook before. *)
Definition handleUserPromptHook (E : Env) (hookData : HookData) (w : World) : World :=
  if String.eqb (Prompt hookData) "" then w
  else
    let '(sessName, topicID) := findSession (config w) (Cwd hookData) (SessionID hookData) in
    if String.eqb sessName "" || (GroupID (config w) =? 0) || (topicID =? 0) then w
    else
      let w := persistClaudeSessionID sessName (SessionID hookData) w in
      let w := clearToolState sessName w in
      let tmuxName := tmuxSafeName sessName in
      if isFromTelegram sessName (Prompt hookData) (messages w) then
        logEvent E sessName "prompt_confirmed" "hook-user-prompt" "" (Prompt hookData)
          (emit (FlagWrite (Thinking sessName))
             (emit (FlagWrite (PromptAck sessName))
                (emit (FlagRemove (TelegramActive tmuxName)) w)))
      else
        let w := emit (FlagWrite (Thinking sessName))
                   (emit (FlagRemove (TelegramActive tmuxName)) w) in
        let id := "prompt:" +:+ SessionID hookData +:+ ":" +:+ itoa (clock E (reads w)) in
        let w := appendMessageW E
                   (mkMessageRecord id sessName "user_prompt" (Prompt hookData)
                                    "terminal" false 0 0 0)
                   (tick w) in
        emit NotifyListener
          (logEvent E sessName "prompt_terminal" "hook-user-prompt" ""
                    (Prompt hookData) w).

(** ** The chat poller (session.go, [listen]) *)

(** The end of the free-text branch, once the window is known to run:
    clear the tool state, record the prompt, inject it. *)
Definition recordAndInject (E : Env) (sessName windowID : string)
    (updateID chatID threadID : Z) (text : string) (w : World) : World :=
  let tmuxName := tmuxSafeName sessName in
  let target := tmuxTargetByID (windows w) windowID tmuxName in
  let w := clearToolState sessName w in
  let w := appendMessageW E
             (mkMessageRecord ("tg:" +:+ itoa updateID) sessName "user_prompt"
                              text "telegram" true 0 0 0) w in
  match sendToTmuxFromTelegram E target tmuxName text w with
  | (Some err, w) => sendMessage chatID threadID ("❌ Failed to send: " +:+ err) w
  | (None, w) => w
  end.

(** The block [if !tmuxWindowExistsByID(windowID, tmuxName)] of the
    free-text branch: nothing when the window runs; otherwise the window
    is created, its id stored in the configuration and the start
    announced, or the failure reported, which ends the branch ([inr]).
    The result on the left is the world to go on with and the id of the
    window. *)
Definition ensureWindow (E : Env) (sessName : string) (chatID threadID : Z)
    (w : World) : World * string + World :=
  let cfg := config w in
  let tmuxName := tmuxSafeName sessName in
  let windowID := getWindowID cfg sessName in
  if tmuxWindowExistsByID (windows w) windowID tmuxName then inl (w, windowID)
  else
    let workDir := match Sessions cfg !! sessName with
                   | Some (Some info) => Path info
                   | _ => ""
                   end in
    match createTmuxWindow E tmuxName workDir w with
    | (inr err, w1) =>
        inr (sendMessage chatID threadID ("❌ Failed to start session: " +:+ err) w1)
    | (inl newWindowID, w1) =>
        let cfg' :=
          mkConfig (ChatID cfg) (GroupID cfg)
            (alter (fun oi => (fun info => mkSessionInfo (TopicID info) (Path info)
                                  newWindowID (ClaudeSessionID info)) <$> oi)
                   sessName (Sessions cfg)) in
        inl (emit (Sleep (500 * Millisecond))
               (emit (Sleep (3 * Second))
                  (sendMessage chatID threadID
                     ("🚀 Session '" +:+ sessName +:+ "' auto-started")
                     (set_config cfg' w1))),
             newWindowID)
    end.

(** Free text in a session thread: the branch [if isGroup && threadID > 0]
    at the end of the update loop.  [text] is the trimmed message text. *)
Definition handleTopicText (E : Env) (updateID chatID threadID : Z) (text : string)
    (w : World) : World :=
  let sessName := getSessionByTopic (config w) threadID in
  if String.eqb sessName "" then
    sendMessage chatID threadID
      "⚠️ No session linked to this topic. Use /new <name> to create one." w
  else
    match ensureWindow E sessName chatID threadID w with
    | inl (w', windowID) =>
        recordAndInject E sessName windowID updateID chatID threadID text w'
    | inr w' => w'
    end.

(** [strings.Join] *)
Fixpoint Join (elems : list string) (sep : string) : string :=
  match elems with
  | [] => EmptyString
  | [x] => x
  | x :: rest => x +:+ sep +:+ Join rest sep
  end.

(** [filepath.Clean] on a Unix path, element by element: empty elements
    and [.] go; [..] takes the element before it away, stays when there
    is none to take and the path is not rooted, and goes when the path is
    rooted.  [stack] holds the elements kept, last first. *)
Definition cleanElement (rooted : bool) (stack : list string) (elem : string)
    : list string :=
  if String.eqb elem "" || String.eqb elem "." then stack
  else if String.eqb elem ".." then
    match stack with
    | top :: below => if String.eqb top ".." then elem :: stack else below
    | [] => if rooted then stack else [elem]
    end
  else elem :: stack.

Definition filepathClean (path : string) : string :=
  let rooted := HasPrefix path "/" in
  let kept := foldl (cleanElement rooted) [] (Split path (Ascii.ascii_of_nat 47)) in
  let out := (if rooted then "/" else "") +:+ Join (rev kept) "/" in
  if String.eqb out "" then "." else out.

(** [filepath.Join] of two elements *)
Definition filepathJoin (dir name : string) : string :=
  if negb (String.eqb dir "") then filepathClean (dir +:+ "/" +:+ name)
  else if negb (String.eqb name "") then filepathClean name
  else "".

(** A photo in a session thread: the branch
    [if len(msg.Photo) > 0 && isGroup && threadID > 0].  [fileID] is the
    file id of the last, largest size. *)
Definition handlePhoto (E : Env) (messageID chatID threadID : Z)
    (msgCaption fileID : string) (w : World) : World :=
  let cfg := config w in
  let sessionName := getSessionByTopic cfg threadID in
  if String.eqb sessionName "" then w
  else
    let tmuxName := tmuxSafeName sessionName in
    let windowID := getWindowID cfg sessionName in
    if tmuxWindowExistsByID (windows w) windowID tmuxName then
      let imgPath := filepathJoin (TempDir E)
                       ("telegram_" +:+ itoa (clock E (reads w)) +:+ ".jpg") in
      let w := tick w in
      let w1 := tick (emit (TgDownload fileID imgPath) w) in
      match run_ok E (reads w) with
      | Some err => sendMessage chatID threadID ("❌ Download failed: " +:+ err) w1
      | None =>
          let caption := if String.eqb msgCaption "" then "Analyze this image:"
                         else msgCaption in
          let prompt := caption +:+ " " +:+ imgPath in
          let w := sendMessage chatID threadID "📷 Image saved, sending to Claude..." w1 in
          let w := clearToolState sessionName w in
          let w := appendMessageW E
                     (mkMessageRecord ("tg:" +:+ itoa messageID +:+ ":photo") sessionName
                                      "user_prompt" caption "telegram" true 0 0 0) w in
          (sendToTmuxFromTelegramWithDelay E
             (tmuxTargetByID (windows w) windowID tmuxName) tmuxName prompt
             (2 * Second) w).2
      end
    else w.

(** [strconv.Atoi] with its error dropped: [0] on a syntax error, the
    nearest 64-bit bound on a range error. *)
Definition digitValue (c : Ascii.ascii) : option Z :=
  let n := Ascii.nat_of_ascii c in
  if (Nat.leb 48 n && Nat.leb n 57)%bool then Some (Z.of_nat n - 48) else None.

Fixpoint parseDigits (acc : Z) (s : string) : option Z :=
  match s with
  | EmptyString => Some acc
  | String c s' =>
      match digitValue c with
      | Some d => parseDigits (acc * 10 + d) s'
      | None => None
      end
  end.

Definition clampInt64 (n : Z) : Z :=
  Z.max (- 2 ^ 63) (Z.min (2 ^ 63 - 1) n).

Definition Atoi (s : string) : Z :=
  let '(neg, body) :=
    match s with
    | String c s' =>
        if Ascii.eqb c (Ascii.ascii_of_nat 45) then (true, s')
        else if Ascii.eqb c (Ascii.ascii_of_nat 43) then (false, s')
        else (false, s)
    | EmptyString => (false, s)
    end in
  match body with
  | EmptyString => 0
  | _ => match parseDigits 0 body with
         | Some n => clampInt64 (if neg then - n else n)
         | None => 0
         end
  end.

Record CallbackMessage := mkCallbackMessage {
  cm_Text : string;
  cm_ChatID : Z;
  cm_MessageID : Z
}.

Record CallbackQuery := mkCallbackQuery {
  cb_ID : string;
  cb_FromID : Z;
  cb_Data : string;
  cb_Message : option CallbackMessage
}.

(** [for i := 0; i < optionIndex; i++]: one Down and a pause per turn. *)
Fixpoint sendDowns (target : string) (n : nat) (w : World) : World :=
  match n with
  | O => w
  | S n' =>
      sendDowns target n'
        (emit (Sleep (50 * Millisecond)) (emit (TmuxSendKeys target ["Down"]) w))
  end.

(** A button press: the branch [if update.CallbackQuery != nil].  [cfg] is
    the configuration the poller holds in memory. *)
Definition handleCallback (cfg : Config) (cb : CallbackQuery) (w : World) : World :=
  if negb (cb_FromID cb =? ChatID cfg) then w
  else
    let w := emit (TgAnswerCallback (cb_ID cb)) w in
    let parts := Split (cb_Data cb) byte_colon in
    if Nat.leb 3 (length parts) then
      let sessionName := default "" (parts !! 0%nat) in
      let questionIndex := Atoi (default "" (parts !! 1%nat)) in
      let '(totalQuestions, optionIndex) :=
        if Nat.eqb (length parts) 4
        then (Atoi (default "" (parts !! 2%nat)), Atoi (default "" (parts !! 3%nat)))
        else (0, Atoi (default "" (parts !! 2%nat))) in
      let w := match cb_Message cb with
               | Some m =>
                   emit (TgEditRemoveKeyboard (cm_ChatID m) (cm_MessageID m)
                           (cm_Text m +:+ nl +:+ nl +:+ "✓ Selected option "
                              +:+ itoa (wrapInt64 (optionIndex + 1)))) w
               | None => w
               end in
      let tmuxName := tmuxSafeName sessionName in
      let windowID := getWindowID cfg sessionName in
      if tmuxWindowExistsByID (windows w) windowID tmuxName then
        let target := tmuxTargetByID (windows w) windowID tmuxName in
        let w := sendDowns target (Z.to_nat optionIndex) w in
        let w := emit (TmuxSendKeys target ["Enter"]) w in
        if (0 <? totalQuestions) && (questionIndex =? totalQuestions - 1) then
          emit (TmuxSendKeys target ["Enter"]) (emit (Sleep (300 * Millisecond)) w)
        else w
      else w
    else w.

(** ** Runs of the system *)

(** [appendMessage] repeated: each record with the clock value it sees. *)
Definition appendAll (recs : list (MessageRecord * Z)) (db : DB) : DB :=
  foldl (fun db p => appendMessage p.1 p.2 db) db recs.

(** What the processes do to the store and the configuration: a producer
    (hook or poller) records a message, the delivery loop wakes up, the
    configuration file is rewritten. *)
Inductive Op :=
| OpAppend (rec : MessageRecord)
| OpCycle
| OpConfig (cfg : Config).

Definition step (E : Env) (w : World) (op : Op) : World :=
  match op with
  | OpAppend rec => appendMessageW E rec w
  | OpCycle => deliveryCycle E w
  | OpConfig cfg => set_config cfg w
  end.

Definition run (E : Env) (ops : list Op) (w : World) : World :=
  foldl (step E) w ops.

(** ** The tailer, declaratively *)

(** The entries that bear text, each with its request id and its kept
    texts. *)
Definition textsOfEntry (e : entry) : list string :=
  match e_content e with
  | Some blocks => omap keptText blocks
  | None => []
  end.

Definition textEntry (e : entry) : option (string * list string) :=
  match textsOfEntry e with
  | [] => None
  | texts => Some (e_requestID e, texts)
  end.

(** The distinct elements of a list, in the order of their first
    occurrences. *)
Fixpoint firstOccurrences (l : list string) : list string :=
  match l with
  | [] => []
  | x :: l' => x :: filter (fun y => y ≠ x) (firstOccurrences l')
  end.

(** The texts of the last element of [kept] that carries [r]. *)
Definition lastTextsFor (r : string) (kept : list (string * list string)) : list string :=
  default [] (snd <$> last (filter (fun p : string * list string => p.1 = r) kept)).

Definition groupLast (kept : list (string * list string)) : list ridText :=
  (fun r => mkRidText r (lastTextsFor r kept)) <$> firstOccurrences kept.*1.

(** The tailer as the amended claim has it: among the last [tailCount]
    selected lines, those bearing text; one group per request id, in the
    order of first appearance, holding the texts of the last of them. *)
Definition tailerSpec (lines : list (option transcriptLine)) (tailCount : nat)
    : list assistantTextBlock :=
  flattenOrdered (groupLast (omap textEntry (lastN tailCount (omap selectEntry lines)))).

(** The tailer as the claim words it: for each request id of the scanned
    tail, the text blocks of the last selected line carrying it. *)
Definition tailerAsClaimed (lines : list (option transcriptLine))
    : list assistantTextBlock :=
  flattenOrdered
    (groupLast ((fun e => (e_requestID e, textsOfEntry e)) <$> omap selectEntry lines)).

(** ** Sample data *)

Definition sampleEnv : Env :=
  mkEnv (fun n => 1000000 * Z.of_nat n)
        (fun n => match n with
                  | O => SendErr "Bad Request: chat not found"
                  | _ => SendOk 77
                  end)
        (fun _ => None) (fun _ => "@9") (fun s => s) "/tmp".

(** An environment whose uploads all fail with a transient error. *)
Definition flakyEnv : Env :=
  mkEnv (fun n => 1000000 * Z.of_nat n) (fun _ => SendErr "timeout")
        (fun _ => None) (fun _ => "@9") (fun s => s) "/tmp".

Definition sampleConfig : Config :=
  mkConfig 1 (-100) (<["proj" := Some (mkSessionInfo 5 "/home/u/proj" "@1" "")]> ∅).

Definition emptyWorld : World :=
  mkWorld ∅ [] ∅ sampleConfig (Some [("@1", "proj")]) [] 0.

Definition msgA : MessageRecord :=
  mkMessageRecord "a" "proj" "assistant_text" "first" "claude" false 0 0 10.

Definition msgB : MessageRecord :=
  mkMessageRecord "b" "proj" "assistant_text" "second" "claude" false 0 0 20.

(** Two pending rows of session proj, created at 10 and at 20. *)
Definition twoPending : World :=
  appendMessageW sampleEnv msgB (appendMessageW sampleEnv msgA emptyWorld).

Definition noToolInput : ToolInputData := mkToolInputData "" "" "" "" "" "" "".

Definition textLine (r : string) (blocks : list contentBlock) : option transcriptLine :=
  Some (mkTranscriptLine "assistant" r false "assistant" (Some blocks)).

(** ** Relations and invariants on the store *)

(** [upgraded r r']: what an insert-or-upgrade may change in a row. *)
Definition upgraded (r r' : Row) : Prop :=
  tg_delivered r ≤ tg_delivered r' ∧
  (tg_msg_id r ≠ 0 → tg_msg_id r' ≠ 0) ∧
  session r' = session r ∧ type r' = type r ∧ text r' = text r ∧
  origin r' = origin r ∧ retry_count r' = retry_count r ∧
  created_at r' = created_at r.

(** The retry counts of the store are at most [maxRetries]. *)
Definition capped (db : DB) : Prop :=
  ∀ id r, db !! id = Some r → retry_count r ≤ maxRetries.

(** [kept r r']: what no operation of the store changes in a row, and the
    retry count, which never goes down. *)
Definition kept (r r' : Row) : Prop :=
  session r' = session r ∧ type r' = type r ∧ text r' = text r ∧
  origin r' = origin r ∧ created_at r' = created_at r ∧
  retry_count r ≤ retry_count r'.

Definition persists (db db' : DB) : Prop :=
  ∀ id r, db !! id = Some r → ∃ r', db' !! id = Some r' ∧ kept r r'.

(** Rows of [pending] are below the cap in the store. *)
Definition below (pending : list MessageRecord) (db : DB) : Prop :=
  ∀ msg r, msg ∈ pending → db !! ID msg = Some r → retry_count r < maxRetries.

(** One turn of the second loop of the tailer on an entry that bears
    text: [dedupStep] past its two [continue]s. *)
Definition keptStep (st : gmap string nat * list ridText) (p : string * list string)
    : gmap string nat * list ridText :=
  match st.1 !! p.1 with
  | Some idx => (st.1, alter (fun rt => mkRidText (rt_requestID rt) p.2) idx st.2)
  | None => (<[p.1 := List.length st.2]> st.1, st.2 ++ [mkRidText p.1 p.2])
  end.

(** [seen] maps each request id to its index in the list of ids. *)
Definition tracks (seen : gmap string nat) (rids : list string) : Prop :=
  ∀ r i, seen !! r = Some i ↔ rids !! i = Some r.

(** [s] holds the byte [c]. *)
Fixpoint hasByte (c : Ascii.ascii) (s : string) : bool :=
  match s with
  | EmptyString => false
  | String c' s' => Ascii.eqb c' c || hasByte c s'
  end.

(** A file path of 100 bytes. *)
Definition longPath : string :=
  "/home/user/projects/service/internal/handlers/administration/v2/generated/models/user_profile_map.go".

Definition readLongPath : HookData :=
  mkHookData "sid" "/home/user/projects/service" "Read"
             (mkToolInputData "" longPath "" "" "" "" "") "".

(** The tools whose summary [toolInputSummary] passes through [trunc]:
    all but the file tools, and the searches without pattern. *)
Definition summaryTruncated (hookData : HookData) : bool :=
  let name := ToolName hookData in
  negb (String.eqb name "Read" || String.eqb name "Write" || String.eqb name "Edit")
  && negb ((String.eqb name "Grep" || String.eqb name "Glob")
           && String.eqb (Pattern (ToolInput hookData)) "").

(** The preview of the old string in the summary of a file edit. *)
Definition editPreview (oldString : string) : string :=
  ReplaceAll
    (if Nat.ltb 40 (String.length oldString)
     then take_bytes 40 oldString +:+ "..." else oldString)
    byte_nl "↵".

(** [s] is made of decimal digits. *)
Fixpoint allDigits (s : string) : bool :=
  match s with
  | EmptyString => true
  | String c s' => bool_decide (is_Some (digitValue c)) && allDigits s'
  end.

(** A payload of the form [sessionName:qIdx:totalQuestions:optIdx], with
    the three indices in decimal. *)
Definition payload (sessName : string) (qIdx totalQuestions optIdx : Z) : string :=
  sessName +:+ ":" +:+ itoa qIdx +:+ ":" +:+ itoa totalQuestions +:+ ":" +:+ itoa optIdx.


(** The keys a button press sends to the window. *)
Definition downs (target : string) (n : nat) : list Effect :=
  mjoin (replicate n [TmuxSendKeys target ["Down"]; Sleep (50 * Millisecond)]).

Definition sampleCallback : CallbackQuery :=
  mkCallbackQuery "cb1" 1 "proj:1:2:2" (Some (mkCallbackMessage "Which one?" (-100) 55)).

(** The sample world with no tmux window running. *)
Definition noWindows : World :=
  mkWorld ∅ [] ∅ sampleConfig (Some []) [] 0.

(** A configuration whose session name holds a colon. *)
Definition colonConfig : Config :=
  mkConfig 1 (-100) (<["a:b" := Some (mkSessionInfo 5 "/home/u/ab" "@1" "")]> ∅).

Definition colonWorld : World :=
  mkWorld ∅ [] ∅ colonConfig (Some [("@1", "a:b")]) [] 0.

(** A text line followed by a line of the same request that holds a tool
    call only, as the assistant writes them. *)
Definition textThenToolUse : list (option transcriptLine) :=
  [ textLine "req_7" [mkContentBlock "text" "I will list the files."];
    textLine "req_7" [mkContentBlock "tool_use" ""] ].

(** One line of request [req_1] followed by eighty of request [req_2]. *)
Definition eightyOneLines : list (option transcriptLine) :=
  textLine "req_1" [mkContentBlock "text" "old"]
  :: replicate 80 (textLine "req_2" [mkContentBlock "text" "new"]).

(** The prompt row the poller records for free text of update [updateID]. *)
Definition chatPromptRecord (sessName : string) (updateID : Z) (text : string)
    : MessageRecord :=
  mkMessageRecord ("tg:" +:+ itoa updateID) sessName "user_prompt" text
                  "telegram" true 0 0 0.

(** What the free-text branch does with the result of the injection. *)
Definition reportSendFailure (chatID threadID : Z) (res : option string * World) : World :=
  match res with
  | (Some err, w) => sendMessage chatID threadID ("❌ Failed to send: " +:+ err) w
  | (None, w) => w
  end.

Definition fixAuthHook : HookData :=
  mkHookData "sid-1" "/home/u/proj" "" noToolInput "fix the auth bug".

Definition photoHook : HookData :=
  mkHookData "sid-1" "/home/u/proj" "" noToolInput
             "Analyze this image: /tmp/telegram_0.jpg".

(** The prompt row the poller records for the photo of message
    [messageID]. *)
Definition photoRecord (sessName : string) (messageID : Z) (caption : string)
    : MessageRecord :=
  mkMessageRecord ("tg:" +:+ itoa messageID +:+ ":photo") sessName "user_prompt"
                  caption "telegram" true 0 0 0.

(** The row the user-prompt hook records for a prompt it does not take
    for one from the chat. *)
Definition terminalRecord (sessName sid : string) (nano : Z) (prompt : string)
    : MessageRecord :=
  mkMessageRecord ("prompt:" +:+ sid +:+ ":" +:+ itoa nano) sessName "user_prompt"
                  prompt "terminal" false 0 0 0.

(** The store of the repository's test of append and query, after its
    three appends. *)
Definition testStore : DB :=
  appendMessage
    (mkMessageRecord "test:2" "test-session" "assistant_text" "response" "claude"
                     false 0 0 0) 1002
    (appendMessage
       (mkMessageRecord "test:1" "test-session" "user_prompt" "different text"
                        "telegram" false 0 0 0) 1001
       (appendMessage
          (mkMessageRecord "test:1" "test-session" "user_prompt" "hello world"
                           "telegram" true 0 0 0) 1000 ∅)).

(** The records of [pending] carry the retry counts of their rows. *)
Definition snapshot (pending : list MessageRecord) (db : DB) : Prop :=
  ∀ msg, msg ∈ pending →
         ∃ r, db !! ID msg = Some r ∧ retry_count r = RetryCount msg.

(** The rows of [passed] pass the loop from [w]: each has no body or its
    upload succeeds.  The result is the world the loop goes on from. *)
Fixpoint drainPassed (E : Env) (groupID topicID : Z) (sessName : string)
    (passed : list MessageRecord) (w : World) : option World :=
  match passed with
  | [] => Some w
  | msg :: rest =>
      match renderHTML E sessName msg with
      | None =>
          drainPassed E groupID topicID sessName rest
                      (set_messages (markDelivered (ID msg) 0) w)
      | Some html =>
          match sendMessageHTMLGetID E groupID topicID html w with
          | (SendErr _, _) => None
          | (SendOk tgMsgID, w') =>
              drainPassed E groupID topicID sessName rest
                (logEvent E sessName "send_ok" "listener" (ID msg)
                   ("tg_msg_id=" +:+ itoa tgMsgID)
                   (set_messages (markDelivered (ID msg) tgMsgID) w'))
          end
      end
  end.

(** An environment whose first upload succeeds and whose later uploads
    fail with a transient error. *)
Definition secondFailsEnv : Env :=
  mkEnv (fun n => 1000000 * Z.of_nat n)
        (fun n => match n with
                  | O => SendOk 77
                  | _ => SendErr "timeout"
                  end)
        (fun _ => None) (fun _ => "@9") (fun s => s) "/tmp".

(** ** Case of ASCII letters *)

(** The lower case of an ASCII letter; other bytes are kept. *)
Definition lower_byte (c : Ascii.ascii) : Ascii.ascii :=
  let n := Ascii.nat_of_ascii c in
  if (Nat.leb 65 n && Nat.leb n 90)%bool then Ascii.ascii_of_nat (n + 32) else c.

(** [s] with its ASCII letters in lower case: two texts with the same
    image differ in the case of ASCII letters only. *)
Fixpoint asciiLower (s : string) : string :=
  match s with
  | EmptyString => EmptyString
  | String c s' => String (lower_byte c) (asciiLower s')
  end.

(** [s] is made of bytes below 128. *)
Fixpoint isASCII (s : string) : bool :=
  match s with
  | EmptyString => true
  | String c s' => (byteValue c <? 128) && isASCII s'
  end.

(** ** Further invariants of the store *)

(** No delivered flag is negative: [appendMessage] and [markDelivered]
    write 0 and 1 only. *)
Definition flagsNonneg (db : DB) : Prop :=
  ∀ id r, db !! id = Some r → 0 ≤ tg_delivered r.

(** Between two states of the store: no row is lost, no delivered row
    becomes undelivered, and the flags stay non-negative. *)
Definition settles (db db' : DB) : Prop :=
  flagsNonneg db →
  flagsNonneg db' ∧
  ∀ id r, db !! id = Some r →
          ∃ r', db' !! id = Some r' ∧ (tg_delivered r ≠ 0 → tg_delivered r' ≠ 0).

(** ** Reading the trace of the delivery loop *)

(** The calls of [sendMessageHTMLGetID] in a trace. *)
Definition isUpload (e : Effect) : bool :=
  match e with
  | TgSendHTML _ _ _ => true
  | _ => false
  end.

(** The records of [pending] are rows of session [sess] in the store. *)
Definition ofSession (sess : string) (pending : list MessageRecord) (db : DB) : Prop :=
  ∀ msg r, msg ∈ pending → db !! ID msg = Some r → session r = sess.

(** An environment whose uploads all succeed. *)
Definition steadyEnv : Env :=
  mkEnv (fun n => 1000000 * Z.of_nat n) (fun n => SendOk (100 + Z.of_nat n))
        (fun _ => None) (fun _ => "@9") (fun s => s) "/tmp".

(** The store of the repository's test in the sample world: its rows
    belong to a session the sample configuration does not link. *)
Definition testWorld : World :=
  mkWorld testStore [] ∅ sampleConfig (Some [("@1", "proj")]) [] 0.

(** ** The tool display (hooks) *)

Definition byte_amp : Ascii.ascii := Ascii.ascii_of_nat 38.    (* '&' *)
Definition byte_lt : Ascii.ascii := Ascii.ascii_of_nat 60.     (* '<' *)
Definition byte_gt : Ascii.ascii := Ascii.ascii_of_nat 62.     (* '>' *)
Definition byte_at : Ascii.ascii := Ascii.ascii_of_nat 64.     (* '@' *)
Definition byte_space : Ascii.ascii := Ascii.ascii_of_nat 32.  (* ' ' *)

(** [htmlEscape]: three calls of [strings.ReplaceAll], the ampersand
    first. *)
Definition htmlEscape (s : string) : string :=
  let s := ReplaceAll s byte_amp "&amp;" in
  let s := ReplaceAll s byte_lt "&lt;" in
  ReplaceAll s byte_gt "&gt;".

(** The line [formatToolLines] builds for one entry of the tool state. *)
Definition toolLine (t : ToolCall) : string :=
  if IsText t then "💬 " +:+ htmlEscape (Input t)
  else if String.eqb (Name t) "" then "⚙️ " +:+ htmlEscape (Input t)
  else if negb (String.eqb (Input t) "") then
    "⚙️ " +:+ htmlEscape (Name t) +:+ ": " +:+ htmlEscape (Input t)
  else "⚙️ " +:+ htmlEscape (Name t).

Definition formatToolLines (state : ToolState) : string :=
  Join (toolLine <$> Tools state) nl.

Definition formatToolMessage (state : ToolState) : string :=
  "<blockquote>" +:+ formatToolLines state +:+ "</blockquote>".

(** What [htmlEscape] makes of one byte. *)
Definition escapeByte (c : Ascii.ascii) : string :=
  if Ascii.eqb c byte_amp then "&amp;"
  else if Ascii.eqb c byte_lt then "&lt;"
  else if Ascii.eqb c byte_gt then "&gt;"
  else String c EmptyString.

Fixpoint escapeBytes (s : string) : string :=
  match s with
  | EmptyString => EmptyString
  | String c s' => escapeByte c +:+ escapeBytes s'
  end.

(** ** Window names and targets (tmux.go) *)

(** [strings.LastIndex] and [strings.Index] for a separator of one byte;
    [None] is the result -1. *)
Fixpoint LastIndex (s : string) (sep : Ascii.ascii) : option nat :=
  match s with
  | EmptyString => None
  | String c s' =>
      match LastIndex s' sep with
      | Some i => Some (S i)
      | None => if Ascii.eqb c sep then Some O else None
      end
  end.

Fixpoint Index (s : string) (sep : Ascii.ascii) : option nat :=
  match s with
  | EmptyString => None
  | String c s' =>
      if Ascii.eqb c sep then Some O else S <$> Index s' sep
  end.

Definition windowNameFromTarget (target : string) : string :=
  match LastIndex target byte_colon with
  | Some idx => drop_bytes (idx + 1) target
  | None => target
  end.

(** ** Commands that name the bot (session.go, [listen]) *)

(** The block [if strings.HasPrefix(text, "/")] of the update loop;
    [text] is the trimmed text of the message. *)
Definition stripBotMention (text : string) : string :=
  if HasPrefix text "/" then
    let text :=
      match Index text byte_at with
      | Some idx =>
          let spaceIdx := Index text byte_space in
          if match spaceIdx with
             | None => true
             | Some sp => Nat.ltb idx sp
             end
          then take_bytes idx text
               +:+ drop_bytes (default O (Index (text +:+ " ") byte_space)) text
          else text
      | None => text
      end in
    TrimSpace text
  else text.

(** ** The notification and stop hooks *)

(** The hook input with the further fields these hooks read; an absent
    field is the empty string. *)
Record HookEvent := mkHookEvent {
  he_data : HookData;
  TranscriptPath : string;
  HookEventName : string;
  Trigger : string;
  NotificationType : string;
  Message : string;
  Title : string
}.

(** [handleNotificationHook], from the parsed hook input on. *)
Definition handleNotificationHook (E : Env) (ev : HookEvent) (w : World) : World :=
  let hookData := he_data ev in
  let '(sessName, topicID) := findSession (config w) (Cwd hookData) (SessionID hookData) in
  if String.eqb sessName "" || (GroupID (config w) =? 0) || (topicID =? 0) then w
  else
    let w := persistClaudeSessionID sessName (SessionID hookData) w in
    if String.eqb (NotificationType ev) "idle_prompt" then
      emit (FlagRemove (Thinking sessName)) w
    else
      let msg :=
        if negb (String.eqb (Message ev) "") then "🔔 " +:+ Message ev
        else if negb (String.eqb (Title ev) "") then "🔔 " +:+ Title ev
        else if negb (String.eqb (NotificationType ev) "") then
          "🔔 " +:+ NotificationType ev
        else "" in
      if negb (String.eqb msg "") then
        let id := "notif:" +:+ SessionID hookData +:+ ":" +:+ itoa (clock E (reads w)) in
        let w := appendMessageW E
                   (mkMessageRecord id sessName "notification" msg "claude" false 0 0 0)
                   (tick w) in
        emit NotifyListener w
      else w.

(** The ledger of replies.  [contentHash] (a prefix of the SHA-256 digest
    of the text, in hexadecimal) is taken as given. *)
Section Ledger.

Context (contentHash : string → string).

(** [fmt.Sprintf("reply:%s:%s", block.requestID, contentHash(block.text))] *)
Definition blockID (block : assistantTextBlock) : string :=
  "reply:" +:+ requestID block +:+ ":" +:+ contentHash (blockText block).

Definition replyRecord (sessName : string) (block : assistantTextBlock) : MessageRecord :=
  mkMessageRecord (blockID block) sessName "assistant_text" (blockText block)
                  "claude" false 0 0 0.

(** One turn of the loop of [deliverUnsentTexts] when [duringTools] is
    false: the state is the world and the count [sent]. *)
Definition queueBlock (E : Env) (sessName : string) (st : World * Z)
    (block : assistantTextBlock) : World * Z :=
  if isDelivered (blockID block) (messages st.1) then st
  else
    (appendMessageW E (replyRecord sessName block) (clearToolState sessName st.1),
     st.2 + 1).

(** [deliverUnsentTexts] with [duringTools] false, as the stop hook and
    its retries call it; the configuration and the thread are not used on
    this path.  [file] is the content of the transcript when it is read. *)
Definition deliverUnsentTexts (E : Env) (unmarshal : string → option transcriptLine)
    (sessName transcriptPath : string) (file : option string) (w : World) : World * Z :=
  foldl (queueBlock E sessName) (w, 0)
        (extractRecentAssistantTexts unmarshal transcriptPath file 80).

(** [handleStopHook], from the parsed hook input up to the start of the
    retry process. *)
Definition handleStopHook (E : Env) (unmarshal : string → option transcriptLine)
    (ev : HookEvent) (file : option string) (w : World) : World :=
  let hookData := he_data ev in
  let '(sessName, topicID) := findSession (config w) (Cwd hookData) (SessionID hookData) in
  if String.eqb sessName "" || (GroupID (config w) =? 0) || (topicID =? 0) then w
  else
    let w := persistClaudeSessionID sessName (SessionID hookData) w in
    let tmuxName := tmuxSafeName sessName in
    let w := emit (FlagRemove (Thinking sessName))
               (emit (FlagRemove (TelegramActive tmuxName)) w) in
    let '(w, sent) := deliverUnsentTexts E unmarshal sessName (TranscriptPath ev) file w in
    let w := clearToolState sessName w in
    if 0 <? sent then emit NotifyListener w else w.

(** One turn of the loop of [handleStopRetry]. *)
Definition stopRetryTurn (E : Env) (unmarshal : string → option transcriptLine)
    (sessName transcriptPath : string) (w : World) (file : option string) : World :=
  let '(w, n) := deliverUnsentTexts E unmarshal sessName transcriptPath file
                   (emit (Sleep (2 * Second)) w) in
  if 0 <? n then emit NotifyListener w else w.

(** [handleStopRetry], once the configuration is loaded: [files] are the
    contents of the transcript at the three reads. *)
Definition handleStopRetry (E : Env) (unmarshal : string → option transcriptLine)
    (sessName transcriptPath : string) (file0 file1 file2 : option string)
    (w : World) : World :=
  foldl (stopRetryTurn E unmarshal sessName transcriptPath) w [file0; file1; file2].

End Ledger.

(** A notification as the assistant raises it when it needs a
    permission. *)
Definition permissionNotice : HookEvent :=
  mkHookEvent (mkHookData "sid-1" "/home/u/proj" "" noToolInput "")
              "" "Notification" "" "permission_prompt"
              "Claude needs your permission to use Bash" "".

(** The text [handleNotificationHook] shows: the message, else the
    title, else the kind of the notification. *)
Definition noticeText (ev : HookEvent) : string :=
  if decide (Message ev ≠ "") then Message ev
  else if decide (Title ev ≠ "") then Title ev
  else NotificationType ev.

(** The row a hook records for a notice [msg] of session [sessName]. *)
Definition noticeRecord (kind sessName sid : string) (nano : Z) (msg : string)
    : MessageRecord :=
  mkMessageRecord (kind +:+ ":" +:+ sid +:+ ":" +:+ itoa nano) sessName "notification"
                  msg "claude" false 0 0 0.

(** The input of a stop hook of the sample session. *)
Definition stopEvent : HookEvent :=
  mkHookEvent (mkHookData "sid-1" "/home/u/proj" "" noToolInput "")
              "/home/u/.claude/t.jsonl" "Stop" "" "" "" "".

(** A decoder that takes every line for a reply of request [req_1]. *)
Definition oneReply (line : string) : option transcriptLine :=
  textLine "req_1" [mkContentBlock "text" "All done."].

(** ** The hooks in the assistant's settings ([installHook], [uninstallHook]) *)

(** The settings file as [encoding/json] decodes it into
    [map[string]interface{}], and as it is written back.  The code
    carries numbers along and never looks at them: their representation
    [Num] is left open, [num] gives the one number the code writes. *)
Section Settings.

Context {Num : Type} (num : Z → Num).

#[warnings="-register-all"]
Inductive JSON :=
| JNull
| JBool (b : bool)
| JNumber (x : Num)
| JString (s : string)
| JArray (l : list JSON)
| JObject (m : gmap string JSON).

(** [cmd, ok := m["command"].(string)] followed by the test of [cmd] *)
Definition commandIsCcc (m : gmap string JSON) : option bool :=
  match m !! "command" with
  | Some (JString cmd) => Some (Contains cmd "ccc hook")
  | _ => None
  end.

Definition isCccHook (entry : JSON) : bool :=
  match entry with
  | JObject m =>
      match commandIsCcc m with
      | Some b => b
      | None =>
          match m !! "hooks" with
          | Some (JArray hooks) =>
              existsb (fun h => match h with
                                | JObject hm => default false (commandIsCcc hm)
                                | _ => false
                                end) hooks
          | _ => false
          end
      end
  | _ => false
  end.

Definition removeCccHooks (hookArray : list JSON) : list JSON :=
  filter (fun entry => isCccHook entry = false) hookArray.

Definition allHookTypes : list string :=
  ["Stop"; "Notification"; "PermissionRequest"; "PostToolUse"; "PreToolUse";
   "UserPromptSubmit"; "PreCompact"; "SessionStart"].

(** One turn of the loop that removes the ccc hooks of a hook type. *)
Definition dropCccHooks (hooks : gmap string JSON) (hookType : string)
    : gmap string JSON :=
  match hooks !! hookType with
  | Some (JArray existing) =>
      let filtered := removeCccHooks existing in
      if Nat.eqb (length filtered) 0 then delete hookType hooks
      else <[hookType := JArray filtered]> hooks
  | _ => hooks
  end.

(** An entry of [cccHooks]: one command hook, with the further fields of
    the hook and the matcher of the entry, if any. *)
Definition cccHookEntry (command : string) (more : gmap string JSON)
    (matcher : option string) : JSON :=
  let hook := JObject (<["command" := JString command]>
                         (<["type" := JString "command"]> more)) in
  let entry : gmap string JSON := <["hooks" := JArray [hook]]> ∅ in
  JObject match matcher with
          | Some p => <["matcher" := JString p]> entry
          | None => entry
          end.

(** The map [cccHooks], as the list of its seven entries; the loop over
    it touches one key per entry, so its order does not matter. *)
Definition cccHooks (cccPath : string) : list (string * list JSON) :=
  [ ("PreToolUse",
     [cccHookEntry (cccPath +:+ " hook-permission")
                   (<["timeout" := JNumber (num 300000)]> ∅) (Some "")]);
    ("Stop", [cccHookEntry (cccPath +:+ " hook-stop") ∅ None]);
    ("PostToolUse", [cccHookEntry (cccPath +:+ " hook-post-tool") ∅ None]);
    ("UserPromptSubmit", [cccHookEntry (cccPath +:+ " hook-user-prompt") ∅ None]);
    ("Notification", [cccHookEntry (cccPath +:+ " hook-notification") ∅ None]);
    ("PreCompact", [cccHookEntry (cccPath +:+ " hook-compact") ∅ None]);
    ("SessionStart", [cccHookEntry (cccPath +:+ " hook-compact") ∅ (Some "compact")]) ].

(** [existing, ok := hooks[hookType].([]interface{})] *)
Definition hookArray (v : option JSON) : list JSON :=
  match v with
  | Some (JArray existing) => existing
  | _ => []
  end.

(** One turn of the loop that adds the hooks of [cccHooks]. *)
Definition addCccHooks (hooks : gmap string JSON) (p : string * list JSON)
    : gmap string JSON :=
  <[p.1 := JArray (p.2 ++ hookArray (hooks !! p.1))]> hooks.

(** [hooks, ok := settings["hooks"].(map[string]interface{})] *)
Definition hooksOf (settings : gmap string JSON) : option (gmap string JSON) :=
  match settings !! "hooks" with
  | Some (JObject hooks) => Some hooks
  | _ => None
  end.

(** [installHook] on the decoded settings: the settings it writes. *)
Definition installHook (cccPath : string) (settings : gmap string JSON)
    : gmap string JSON :=
  let hooks := default ∅ (hooksOf settings) in
  let hooks := foldl dropCccHooks hooks allHookTypes in
  let hooks := foldl addCccHooks hooks (cccHooks cccPath) in
  <["hooks" := JObject hooks]> settings.

(** [uninstallHook] on the decoded settings: the settings it writes,
    [None] when it finds no hooks and leaves the file alone. *)
Definition uninstallHook (settings : gmap string JSON) : option (gmap string JSON) :=
  match hooksOf settings with
  | Some hooks =>
      Some (<["hooks" := JObject (foldl dropCccHooks hooks allHookTypes)]> settings)
  | None => None
  end.

(** What the removal loop leaves under a hook type. *)
Definition cleaned (v : option JSON) : option JSON :=
  match v with
  | Some (JArray existing) =>
      match removeCccHooks existing with
      | [] => None
      | filtered => Some (JArray filtered)
      end
  | _ => v
  end.

End Settings.

Arguments JSON : clear implicits.

(** Settings of a user with a Stop hook of their own, for the examples. *)
Definition userSettings : gmap string (JSON Z) :=
  <["hooks" := JObject (<["Stop" := JArray [JObject (<["command" := JString "say done"]> ∅)]]> ∅)]>
    (<["model" := JString "opus"]> ∅).

(** * Properties *)

(** ** The store *)

Create HintDb store discriminated.

Lemma upgraded_refl r : upgraded r r.
Proof. unfold upgraded. repeat split; auto; lia. Qed.

Lemma upgraded_trans r1 r2 r3 : upgraded r1 r2 → upgraded r2 r3 → upgraded r1 r3.
Proof.
  unfold upgraded. intros (?&?&?&?&?&?&?&?) (?&?&?&?&?&?&?&?).
  repeat split; try congruence; [lia | auto].
Qed.

#[local] Hint Resolve upgraded_refl upgraded_trans : store.

Lemma appendMessage_fresh rec now db :
  db !! ID rec = None →
  appendMessage rec now db !! ID rec =
    Some (mkRow (Session rec) (MType rec) (Text rec) (Origin rec)
                (boolToInt (TgDelivered rec)) (TgMsgID rec) 0
                (if Timestamp rec =? 0 then now else Timestamp rec)).
Proof. intros H. unfold appendMessage. rewrite H. apply lookup_insert_eq. Qed.

Lemma appendMessage_conflict rec now db old :
  db !! ID rec = Some old →
  appendMessage rec now db !! ID rec =
    Some (mkRow (session old) (type old) (text old) (origin old)
                (Z.max (tg_delivered old) (boolToInt (TgDelivered rec)))
                (if 0 <? TgMsgID rec then TgMsgID rec else tg_msg_id old)
                (retry_count old) (created_at old)).
Proof. intros H. unfold appendMessage. rewrite H. apply lookup_insert_eq. Qed.

Lemma appendMessage_other rec now db id :
  id ≠ ID rec → appendMessage rec now db !! id = db !! id.
Proof.
  intros H. unfold appendMessage.
  destruct (db !! ID rec); by rewrite lookup_insert_ne.
Qed.

Lemma appendMessage_upgrades rec now db id r :
  db !! id = Some r →
  ∃ r', appendMessage rec now db !! id = Some r' ∧ upgraded r r'.
Proof.
  intros H. destruct (decide (id = ID rec)) as [->|Hne].
  - rewrite (appendMessage_conflict _ _ _ _ H). eexists; split; [done|].
    unfold upgraded; simpl. repeat split; try lia.
    destruct (0 <? TgMsgID rec) eqn:Hpos; [|done].
    intros _. apply Z.ltb_lt in Hpos. lia.
  - rewrite appendMessage_other by done. eauto with store.
Qed.

Lemma appendAll_upgrades recs db id r :
  db !! id = Some r →
  ∃ r', appendAll recs db !! id = Some r' ∧ upgraded r r'.
Proof.
  revert db r. induction recs as [|p recs IH]; intros db r H; simpl.
  - eauto with store.
  - destruct (appendMessage_upgrades p.1 p.2 db id r H) as (r1 & H1 & U1).
    destruct (IH _ _ H1) as (r2 & H2 & U2).
    exists r2. split; [exact H2 | eauto with store].
Qed.

Lemma appendAll_app recs1 recs2 db :
  appendAll (recs1 ++ recs2) db = appendAll recs2 (appendAll recs1 db).
Proof. unfold appendAll. apply foldl_app. Qed.

Lemma appendMessage_is_Some rec now db : is_Some (appendMessage rec now db !! ID rec).
Proof.
  destruct (db !! ID rec) as [old|] eqn:H.
  - rewrite (appendMessage_conflict _ _ _ _ H). eauto.
  - rewrite (appendMessage_fresh _ _ _ H). eauto.
Qed.

(** C1. After [appendMessage m], any further appends, under the same id
    or another, leave the row in place; between any two points of the
    sequence the delivered flag does not decrease, a non-zero external id
    stays non-zero, and text, kind and origin are those the first append
    left, which are [m]'s when the id was new.  On a conflict one append
    sets delivered to the maximum of old and new and takes the new
    external id when it is positive, the old one otherwise. *)
Theorem append_upgrades_only (db : DB) (m : MessageRecord) (now : Z)
    (ms1 ms2 : list (MessageRecord * Z)) :
  ∃ r0 r1 r2,
    appendMessage m now db !! ID m = Some r0 ∧
    appendAll ms1 (appendMessage m now db) !! ID m = Some r1 ∧
    appendAll (ms1 ++ ms2) (appendMessage m now db) !! ID m = Some r2 ∧
    tg_delivered r0 ≤ tg_delivered r1 ∧ tg_delivered r1 ≤ tg_delivered r2 ∧
    (tg_msg_id r0 ≠ 0 → tg_msg_id r1 ≠ 0) ∧
    (tg_msg_id r1 ≠ 0 → tg_msg_id r2 ≠ 0) ∧
    (text r1 = text r0 ∧ type r1 = type r0 ∧ origin r1 = origin r0) ∧
    (text r2 = text r0 ∧ type r2 = type r0 ∧ origin r2 = origin r0) ∧
    (db !! ID m = None →
       text r0 = Text m ∧ type r0 = MType m ∧ origin r0 = Origin m ∧
       tg_delivered r0 = boolToInt (TgDelivered m) ∧ tg_msg_id r0 = TgMsgID m) ∧
    (∀ old, db !! ID m = Some old →
       tg_delivered r0 = Z.max (tg_delivered old) (boolToInt (TgDelivered m)) ∧
       tg_msg_id r0 = (if 0 <? TgMsgID m then TgMsgID m else tg_msg_id old) ∧
       text r0 = text old ∧ type r0 = type old ∧ origin r0 = origin old).
Proof.
  destruct (appendMessage_is_Some m now db) as [r0 H0].
  destruct (appendAll_upgrades ms1 _ _ _ H0) as (r1 & H1 & U1).
  destruct (appendAll_upgrades ms2 _ _ _ H1) as (r2 & H2 & U2).
  rewrite <- appendAll_app in H2.
  pose proof (upgraded_trans _ _ _ U1 U2) as U02.
  exists r0, r1, r2.
  destruct U1 as (?&?&?&?&?&?&?&?), U2 as (?&?&?&?&?&?&?&?),
    U02 as (?&?&?&?&?&?&?&?).
  repeat split; try done.
  all: match goal with
       | Hn : _ !! _ = None |- _ =>
           rewrite (appendMessage_fresh _ _ _ Hn) in H0
       | Ho : _ !! _ = Some ?old |- _ = _ ?old =>
           rewrite (appendMessage_conflict _ _ _ _ Ho) in H0
       | Ho : _ !! _ = Some ?old |- _ = Z.max _ _ =>
           rewrite (appendMessage_conflict _ _ _ _ Ho) in H0
       | Ho : _ !! _ = Some ?old |- _ = if _ then _ else _ =>
           rewrite (appendMessage_conflict _ _ _ _ Ho) in H0
       end; by inversion H0.
Qed.

Global Instance byCreatedAt_total : Total byCreatedAt.
Proof. intros a b. unfold byCreatedAt. lia. Qed.

Lemma elem_of_findPending sess db m :
  m ∈ findPending sess db ↔
  ∃ r, db !! ID m = Some r ∧ m = scanRow (ID m, r) ∧
       session r = sess ∧ tg_delivered r = 0 ∧ retry_count r < maxRetries.
Proof.
  unfold findPending. rewrite merge_sort_Permutation, list_elem_of_fmap.
  split.
  - intros ([k r] & -> & Hin). apply list_elem_of_filter in Hin as [HP Hin].
    apply elem_of_map_to_list in Hin. exists r. simpl. by destruct HP as (?&?&?).
  - intros (r & Hr & Hm & Hs & Hd & Hc). exists (ID m, r). split; [done|].
    apply list_elem_of_filter. split; [by repeat split|].
    by apply elem_of_map_to_list.
Qed.

Lemma NoDup_findPending sess db : NoDup (findPending sess db).
Proof.
  unfold findPending. rewrite merge_sort_Permutation.
  apply NoDup_fmap_2_strong.
  - intros [k1 r1] [k2 r2] H1 H2 Heq.
    apply list_elem_of_filter in H1 as [_ H1], H2 as [_ H2].
    apply elem_of_map_to_list in H1, H2.
    assert (k1 = k2) as -> by (by inversion Heq).
    simpl in *. congruence.
  - apply NoDup_filter, NoDup_map_to_list.
Qed.

Lemma findPending_ids sess db m1 m2 :
  m1 ∈ findPending sess db → m2 ∈ findPending sess db → ID m1 = ID m2 → m1 = m2.
Proof.
  intros H1 H2 Heq.
  apply elem_of_findPending in H1 as (r1 & Hr1 & -> & _).
  apply elem_of_findPending in H2 as (r2 & Hr2 & -> & _).
  simpl in *. congruence.
Qed.

Lemma NoDup_findPending_ids sess db : NoDup (ID <$> findPending sess db).
Proof.
  apply NoDup_fmap_2_strong; [|apply NoDup_findPending].
  intros m1 m2 H1 H2 Heq. by apply (findPending_ids sess db).
Qed.

Lemma StronglySorted_lookup {A} (R : A → A → Prop) (l : list A) i j a b :
  StronglySorted R l → (i < j)%nat → l !! i = Some a → l !! j = Some b → R a b.
Proof.
  intros Hs. revert i j. induction Hs as [|x l Hs IH Hall]; intros i j Hij Hi Hj.
  - by rewrite lookup_nil in Hi.
  - destruct j as [|j]; [lia|]. destruct i as [|i]; simpl in *.
    + injection Hi as <-. apply (proj1 (Forall_forall _ _) Hall).
      by eapply list_elem_of_lookup_2.
    + apply (IH i j); [lia|done|done].
Qed.

(** C5. [findPending s] returns the rows with session [s], delivered 0
    and retry count below 5, each once and nothing else; a record
    returned carries the columns of its row (its delivered flag is
    false); the records come in non-decreasing order of the creation
    timestamps of their rows. *)
Theorem findPending_exact_and_sorted (sess : string) (db : DB) :
  (∀ m, m ∈ findPending sess db ↔
        ∃ id r, db !! id = Some r ∧
                session r = sess ∧ tg_delivered r = 0 ∧ retry_count r < 5 ∧
                m = mkMessageRecord id (session r) (type r) (text r) (origin r)
                                    false (tg_msg_id r) (retry_count r)
                                    (created_at r)) ∧
  NoDup (ID <$> findPending sess db) ∧
  (∀ i j a b, (i ≤ j)%nat →
              findPending sess db !! i = Some a →
              findPending sess db !! j = Some b →
              ∃ ra rb, db !! ID a = Some ra ∧ db !! ID b = Some rb ∧
                       Timestamp a = created_at ra ∧ Timestamp b = created_at rb ∧
                       created_at ra ≤ created_at rb).
Proof.
  split; [|split].
  - intros m. rewrite elem_of_findPending. split.
    + intros (r & Hr & Hm & Hs & Hd & Hc). exists (ID m), r.
      repeat split; try done. rewrite Hm at 1. unfold scanRow. simpl.
      by rewrite Hd.
    + intros (id & r & Hr & Hs & Hd & Hc & ->). exists r. simpl.
      repeat split; try done. unfold scanRow. simpl. by rewrite Hd.
  - apply NoDup_findPending_ids.
  - intros i j a b Hij Hi Hj.
    assert (a ∈ findPending sess db) as Ha by (by eapply list_elem_of_lookup_2).
    assert (b ∈ findPending sess db) as Hb by (by eapply list_elem_of_lookup_2).
    apply elem_of_findPending in Ha as (ra & Hra & Hma & _).
    apply elem_of_findPending in Hb as (rb & Hrb & Hmb & _).
    exists ra, rb. split; [done|]. split; [done|].
    assert (Timestamp a = created_at ra) as Hta by (by rewrite Hma).
    assert (Timestamp b = created_at rb) as Htb by (by rewrite Hmb).
    split; [done|]. split; [done|]. rewrite <- Hta, <- Htb.
    destruct (decide (i = j)) as [->|Hne].
    + rewrite Hi in Hj. injection Hj as <-. lia.
    + assert (StronglySorted byCreatedAt (findPending sess db)) as Hss.
      { apply Sorted_StronglySorted.
        - intros x y z. unfold byCreatedAt. lia.
        - unfold findPending. apply (Sorted_merge_sort byCreatedAt). }
      apply (StronglySorted_lookup byCreatedAt _ i j a b Hss); [lia|done|done].
Qed.

(** ** The delivery loop *)

Lemma incRetry_lookup id db r :
  db !! id = Some r →
  incRetry id db !! id =
    Some (mkRow (session r) (type r) (text r) (origin r) (tg_delivered r)
                (tg_msg_id r) (retry_count r + 1) (created_at r)).
Proof. intros H. unfold incRetry. by rewrite lookup_alter_eq, H. Qed.

Lemma incRetry_lookup_ne id id' db : id ≠ id' → incRetry id db !! id' = db !! id'.
Proof. intros H. unfold incRetry. by rewrite lookup_alter_ne. Qed.

Lemma markDelivered_lookup id tg db r :
  db !! id = Some r →
  markDelivered id tg db !! id =
    Some (mkRow (session r) (type r) (text r) (origin r) 1 tg
                (retry_count r) (created_at r)).
Proof. intros H. unfold markDelivered. by rewrite lookup_alter_eq, H. Qed.

Lemma markDelivered_lookup_ne id id' tg db :
  id ≠ id' → markDelivered id tg db !! id' = db !! id'.
Proof. intros H. unfold markDelivered. by rewrite lookup_alter_ne. Qed.

Section Delivery.

(** The environment the loop runs in. *)
Context (E : Env).

Lemma messages_logEvent s t src ref d w :
  messages (logEvent E s t src ref d w) = messages w.
Proof. reflexivity. Qed.

Lemma effects_logEvent s t src ref d w :
  effects (logEvent E s t src ref d w) = effects w.
Proof. reflexivity. Qed.

(** The store after a failed upload: the retry count goes up; the row is
    marked delivered when the error is permanent or the count reaches
    [maxRetries]. *)
Lemma messages_onSendFailure g t s msg errMsg w :
  messages (onSendFailure E g t s msg errMsg w) =
    if isPermanentError errMsg || (maxRetries <=? wrapInt64 (RetryCount msg + 1))
    then markDelivered (ID msg) 0 (incRetry (ID msg) (messages w))
    else incRetry (ID msg) (messages w).
Proof.
  unfold onSendFailure.
  destruct (isPermanentError errMsg); [reflexivity|].
  destruct (maxRetries <=? wrapInt64 (RetryCount msg + 1)); [reflexivity|].
  by destruct (2 <=? wrapInt64 (RetryCount msg + 1)).
Qed.

Lemma effects_onSendFailure g t s msg errMsg w :
  effects (onSendFailure E g t s msg errMsg w) =
    effects w ++
    (if isPermanentError errMsg then
       [TgSendMessage g t ("❌ Message dropped (permanent error): " +:+ errMsg)]
     else if maxRetries <=? wrapInt64 (RetryCount msg + 1) then
       [TgSendMessage g t ("❌ Message dropped after " +:+ itoa (wrapInt64 (RetryCount msg + 1))
                             +:+ " retries: " +:+ errMsg)]
     else if 2 <=? wrapInt64 (RetryCount msg + 1) then
       [TgSendMessage g t ("⚠️ Send failed (" +:+ itoa (wrapInt64 (RetryCount msg + 1)) +:+ "/"
                             +:+ itoa maxRetries +:+ "): " +:+ errMsg)]
     else []).
Proof.
  unfold onSendFailure.
  destruct (isPermanentError errMsg); [reflexivity|].
  destruct (maxRetries <=? wrapInt64 (RetryCount msg + 1)); [reflexivity|].
  destruct (2 <=? wrapInt64 (RetryCount msg + 1)); simpl; [reflexivity|].
  by rewrite app_nil_r.
Qed.

(** A failed upload ends the drain: the rows after the failing one play
    no part. *)
Lemma drain_failure g t s msg rest html errMsg w :
  renderHTML E s msg = Some html →
  upload E (reads w) = SendErr errMsg →
  drain E g t s (msg :: rest) w =
    onSendFailure E g t s msg errMsg (tick (emit (TgSendHTML g t html) w)).
Proof. intros Hr Hu. simpl. rewrite Hr. unfold sendMessageHTMLGetID. by rewrite Hu. Qed.

(** What [findPending] returns is a snapshot of the store, and stays one
    while the drain passes the rows it skips or uploads. *)
Lemma snapshot_findPending s db : snapshot (findPending s db) db.
Proof.
  intros msg Hin. apply elem_of_findPending in Hin as (r & Hr & Hm & _).
  exists r. split; [done|]. by rewrite Hm.
Qed.

Lemma snapshot_markDelivered msg rest id tg db :
  snapshot (msg :: rest) db → snapshot rest (markDelivered id tg db).
Proof.
  intros Hs m Hin. destruct (Hs m) as (r & Hr & Hc); [by right|].
  destruct (decide (id = ID m)) as [->|Hne].
  - rewrite (markDelivered_lookup _ _ _ _ Hr). eauto.
  - rewrite markDelivered_lookup_ne by done. eauto.
Qed.

Lemma drain_passes g t s msg rest w :
  snapshot (msg :: rest) (messages w) →
  renderHTML E s msg = None ∨ (∃ tg, upload E (reads w) = SendOk tg) →
  ∃ w', drain E g t s (msg :: rest) w = drain E g t s rest w' ∧
        snapshot rest (messages w').
Proof.
  intros Hs Hok. simpl. destruct (renderHTML E s msg) as [html|] eqn:Hr.
  - destruct Hok as [|[tg Hu]]; [done|].
    unfold sendMessageHTMLGetID. rewrite Hu. eexists. split; [done|].
    simpl. by eapply snapshot_markDelivered.
  - eexists. split; [done|]. simpl. by eapply snapshot_markDelivered.
Qed.

Lemma wrapInt64_id n : - 2 ^ 63 ≤ n < 2 ^ 63 → wrapInt64 n = n.
Proof. intros H. unfold wrapInt64. rewrite Z.mod_small; lia. Qed.

(** The rows that pass are gone through; the drain goes on from the world
    they leave, which differs from the first in their rows only. *)
Lemma drain_drainPassed g t s passed l w w0 :
  drainPassed E g t s passed w = Some w0 →
  drain E g t s (passed ++ l) w = drain E g t s l w0 ∧
  (∀ id, id ∉ ID <$> passed → messages w0 !! id = messages w !! id).
Proof.
  revert w. induction passed as [|msg rest IH]; intros w; cbn [drainPassed].
  - intros [= <-]. by split.
  - cbn [app drain]. destruct (renderHTML E s msg) as [html|].
    + unfold sendMessageHTMLGetID. destruct (upload E (reads w)) as [tg|]; [|done].
      intros H. destruct (IH _ H) as [Hd Hm]. split; [exact Hd|].
      intros id Hid. rewrite fmap_cons, not_elem_of_cons in Hid.
      destruct Hid as [Hne Hid]. rewrite (Hm _ Hid), messages_logEvent.
      by apply markDelivered_lookup_ne.
    + intros H. destruct (IH _ H) as [Hd Hm]. split; [exact Hd|].
      intros id Hid. rewrite fmap_cons, not_elem_of_cons in Hid.
      destruct Hid as [Hne Hid]. rewrite (Hm _ Hid).
      by apply markDelivered_lookup_ne.
Qed.

(** C6. An upload that fails with a non-permanent error, in a pass of the
    loop over a linked session: [msg] is the pending row whose upload
    fails, after the rows [passed] before it have passed.  The record the
    loop holds carries the stored retry count, the stored count becomes
    [N], one more, and it is [N] the thresholds are compared with.  No
    further upload is attempted: the rows after it are as they were.  For
    [N ≤ 1] nothing is sent to the user; for [2 ≤ N < 5] the warning is
    sent and the row stays pending; for [N = 5] the drop notice is sent
    and the row is marked delivered with external id 0.  A pending row
    has a count below 5, so [N] is at most 5; a row's first failure has
    [N = 1], its second [N = 2], so the first notice comes at the second
    failure. *)
Theorem transient_failure_policy (cfg : Config) (info : SessionInfo)
    (sessName : string) (passed : list MessageRecord) (msg : MessageRecord)
    (rest : list MessageRecord) (html errMsg : string) (r : Row) (w w0 : World) :
  Sessions cfg !! sessName = Some (Some info) →
  TopicID info ≠ 0 → GroupID cfg ≠ 0 →
  findPending sessName (messages w) = passed ++ msg :: rest →
  drainPassed E (GroupID cfg) (TopicID info) sessName passed w = Some w0 →
  renderHTML E sessName msg = Some html →
  upload E (reads w0) = SendErr errMsg →
  isPermanentError errMsg = false →
  messages w !! ID msg = Some r →
  - 2 ^ 63 ≤ retry_count r →
  let N := retry_count r + 1 in
  let w' := deliverSession E cfg sessName w in
  let attempt := TgSendHTML (GroupID cfg) (TopicID info) html in
  RetryCount msg = retry_count r ∧ N ≤ 5 ∧
  (∃ r', messages w' !! ID msg = Some r' ∧ retry_count r' = N ∧
         (N < 5 → tg_delivered r' = 0 ∧ tg_msg_id r' = tg_msg_id r) ∧
         (N = 5 → tg_delivered r' = 1 ∧ tg_msg_id r' = 0)) ∧
  (∀ id, id ≠ ID msg → messages w' !! id = messages w0 !! id) ∧
  (∀ m, m ∈ rest → messages w' !! ID m = messages w !! ID m) ∧
  (N ≤ 1 → effects w' = effects w0 ++ [attempt]) ∧
  (2 ≤ N < 5 →
     effects w' = effects w0 ++
       [attempt;
        TgSendMessage (GroupID cfg) (TopicID info)
          ("⚠️ Send failed (" +:+ itoa N +:+ "/" +:+ itoa maxRetries +:+ "): " +:+ errMsg)]) ∧
  (N = 5 →
     effects w' = effects w0 ++
       [attempt;
        TgSendMessage (GroupID cfg) (TopicID info)
          ("❌ Message dropped after " +:+ itoa N +:+ " retries: " +:+ errMsg)]).
Proof.
  intros Hs Ht Hg Hpend Hpass Hr Hu Hp Hrow Hlow N w' attempt.
  assert (msg ∈ findPending sessName (messages w)) as Hin.
  { rewrite Hpend. apply elem_of_app. right. by left. }
  apply elem_of_findPending in Hin as (r0 & Hr0 & Hscan & _ & Hd & Hc).
  rewrite Hrow in Hr0. injection Hr0 as <-.
  assert (RetryCount msg = retry_count r) as Hcnt by (by rewrite Hscan).
  unfold maxRetries in Hc.
  pose proof (NoDup_findPending_ids sessName (messages w)) as Hnd.
  rewrite Hpend, fmap_app, fmap_cons in Hnd.
  apply NoDup_app in Hnd as (_ & Hdis & Hnd2). apply NoDup_cons in Hnd2 as [Hnr _].
  assert (ID msg ∉ ID <$> passed) as Hnp.
  { intros Hi. apply (Hdis _ Hi). by left. }
  destruct (drain_drainPassed _ _ _ _ (msg :: rest) _ _ Hpass) as [Hdrain Hframe].
  assert (messages w0 !! ID msg = Some r) as Hrow0 by (by rewrite Hframe).
  assert (w' = onSendFailure E (GroupID cfg) (TopicID info) sessName msg errMsg
                 (tick (emit attempt w0))) as ->.
  { subst w'. unfold deliverSession. rewrite Hs.
    rewrite (proj2 (Z.eqb_neq _ _) Ht), (proj2 (Z.eqb_neq _ _) Hg). cbn [orb].
    rewrite Hpend, Hdrain. by apply drain_failure. }
  rewrite messages_onSendFailure, effects_onSendFailure, Hp, Hcnt.
  rewrite (wrapInt64_id (retry_count r + 1)) by lia. fold N.
  cbn [orb messages effects tick emit]. unfold maxRetries.
  split; [done|]. split; [subst N; lia|].
  assert (∀ m, m ∈ rest → ID m ≠ ID msg ∧ messages w0 !! ID m = messages w !! ID m)
    as Hrest.
  { intros m Hm. split.
    - intros Heq. apply Hnr. rewrite <- Heq. apply list_elem_of_fmap. by exists m.
    - apply Hframe. intros Hi. apply (Hdis _ Hi). right.
      apply list_elem_of_fmap. by exists m. }
  destruct (5 <=? N) eqn:H5; [apply Z.leb_le in H5 | apply Z.leb_gt in H5].
  - split; [|split; [|split]].
    + eexists. split.
      { erewrite markDelivered_lookup; [done|]. by apply incRetry_lookup. }
      simpl. repeat split; try lia.
    + intros id Hne. by rewrite markDelivered_lookup_ne, incRetry_lookup_ne.
    + intros m Hm. destruct (Hrest m Hm) as [Hne <-].
      by rewrite markDelivered_lookup_ne, incRetry_lookup_ne.
    + repeat split; intros; try lia. by rewrite <- app_assoc.
  - split; [|split; [|split]].
    + eexists. split; [by apply incRetry_lookup|]. simpl. repeat split; try lia; done.
    + intros id Hne. by rewrite incRetry_lookup_ne.
    + intros m Hm. destruct (Hrest m Hm) as [Hne <-].
      by rewrite incRetry_lookup_ne.
    + repeat split; intros; try lia.
      * assert ((2 <=? N) = false) as -> by (apply Z.leb_gt; lia).
        by rewrite app_nil_r.
      * assert ((2 <=? N) = true) as -> by (apply Z.leb_le; lia).
        by rewrite <- app_assoc.
Qed.

Lemma Contains_prefix s p : String.prefix p s = true → Contains s p = true.
Proof. intros H. destruct s; cbn [Contains]; by rewrite H. Qed.

Lemma isPermanentError_iff errMsg :
  isPermanentError errMsg = true ↔
  ∃ p, p ∈ permanent ∧ Contains (ToLower errMsg) (ToLower p) = true.
Proof.
  unfold isPermanentError. rewrite existsb_exists.
  split; intros (p & Hin & Hc); exists p; split; try done;
    by apply list_elem_of_In.
Qed.

(** C2, as the code has it.  A failed upload that [isPermanentError]
    classifies as permanent (the lowered error text contains a lowered
    entry of the allowlist): the row is marked delivered with external id
    0, its retry count one up; the drop notice is sent; and the drain
    stops there: no other row changes and no further upload is attempted
    in this cycle for the session. *)
Theorem permanent_failure_drops_and_stops (groupID topicID : Z)
    (sessName : string) (msg : MessageRecord) (rest : list MessageRecord)
    (html errMsg : string) (r : Row) (w : World) :
  renderHTML E sessName msg = Some html →
  upload E (reads w) = SendErr errMsg →
  (∃ p, p ∈ permanent ∧ Contains (ToLower errMsg) (ToLower p) = true) →
  messages w !! ID msg = Some r →
  let w' := drain E groupID topicID sessName (msg :: rest) w in
  messages w' !! ID msg =
    Some (mkRow (session r) (type r) (text r) (origin r) 1 0
                (retry_count r + 1) (created_at r)) ∧
  (∀ id, id ≠ ID msg → messages w' !! id = messages w !! id) ∧
  effects w' = effects w ++
    [TgSendHTML groupID topicID html;
     TgSendMessage groupID topicID
       ("❌ Message dropped (permanent error): " +:+ errMsg)].
Proof.
  intros Hr Hu Hp Hrow w'. subst w'. apply isPermanentError_iff in Hp.
  rewrite (drain_failure _ _ _ _ _ _ _ _ Hr Hu).
  rewrite messages_onSendFailure, effects_onSendFailure, Hp. simpl.
  split; [|split].
  - by rewrite (markDelivered_lookup _ _ _ _ (incRetry_lookup _ _ _ Hrow)).
  - intros id Hne. by rewrite markDelivered_lookup_ne, incRetry_lookup_ne.
  - by rewrite <- app_assoc.
Qed.

(** ** The retry cap *)

Lemma kept_refl r : kept r r.
Proof. unfold kept. repeat split; auto; lia. Qed.

#[local] Hint Resolve kept_refl : store.

Lemma persists_refl db : persists db db.
Proof. intros id r H. eauto with store. Qed.

Lemma persists_trans db1 db2 db3 :
  persists db1 db2 → persists db2 db3 → persists db1 db3.
Proof.
  intros H12 H23 id r H.
  destruct (H12 _ _ H) as (r2 & Hr2 & (?&?&?&?&?&?)).
  destruct (H23 _ _ Hr2) as (r3 & Hr3 & (?&?&?&?&?&?)).
  exists r3. split; [done|]. unfold kept. repeat split; try congruence. lia.
Qed.

Lemma persists_appendMessage rec now db : persists db (appendMessage rec now db).
Proof.
  intros id r H. destruct (appendMessage_upgrades rec now db id r H)
    as (r' & H' & (?&?&?&?&?&?&?&?)).
  exists r'. split; [done|]. unfold kept. repeat split; try done. lia.
Qed.

Lemma persists_markDelivered id tg db : persists db (markDelivered id tg db).
Proof.
  intros id' r H. destruct (decide (id = id')) as [->|Hne].
  - rewrite (markDelivered_lookup _ _ _ _ H). eexists. split; [done|].
    unfold kept; simpl. repeat split; lia.
  - rewrite markDelivered_lookup_ne by done. eauto with store.
Qed.

Lemma persists_incRetry id db : persists db (incRetry id db).
Proof.
  intros id' r H. destruct (decide (id = id')) as [->|Hne].
  - rewrite (incRetry_lookup _ _ _ H). eexists. split; [done|].
    unfold kept; simpl. repeat split; lia.
  - rewrite incRetry_lookup_ne by done. eauto with store.
Qed.

#[local] Hint Resolve persists_refl persists_trans persists_appendMessage
  persists_markDelivered persists_incRetry : store.

Lemma persists_onSendFailure g t s msg errMsg w :
  persists (messages w) (messages (onSendFailure E g t s msg errMsg w)).
Proof.
  rewrite messages_onSendFailure.
  destruct (_ || _); eauto with store.
Qed.

Lemma persists_drain g t s pending w :
  persists (messages w) (messages (drain E g t s pending w)).
Proof.
  revert w. induction pending as [|msg rest IH]; intros w; simpl.
  - apply persists_refl.
  - destruct (renderHTML E s msg) as [html|].
    + unfold sendMessageHTMLGetID. destruct (upload E (reads w)) as [tg|err].
      * eapply persists_trans; [|apply IH]. simpl. apply persists_markDelivered.
      * apply (persists_onSendFailure g t s msg err (tick (emit _ w))).
    + eapply persists_trans; [|apply IH]. simpl. apply persists_markDelivered.
Qed.

Lemma persists_deliverSession cfg s w :
  persists (messages w) (messages (deliverSession E cfg s w)).
Proof.
  unfold deliverSession. destruct (Sessions cfg !! s) as [[info|]|];
    try apply persists_refl.
  destruct (_ || _); [apply persists_refl | apply persists_drain].
Qed.

Lemma persists_foldl_sessions cfg l w :
  persists (messages w)
    (messages (foldl (fun w' s => deliverSession E cfg s w') w l)).
Proof.
  revert w. induction l as [|s l IH]; intros w; simpl.
  - apply persists_refl.
  - eapply persists_trans; [apply persists_deliverSession | apply IH].
Qed.

Lemma persists_step w op : persists (messages w) (messages (step E w op)).
Proof.
  destruct op as [rec| |cfg]; simpl.
  - unfold appendMessageW. destruct (Timestamp rec =? 0); simpl;
      apply persists_appendMessage.
  - apply persists_foldl_sessions.
  - apply persists_refl.
Qed.

Lemma persists_run ops w : persists (messages w) (messages (run E ops w)).
Proof.
  revert w. induction ops as [|op ops IH]; intros w; simpl.
  - apply persists_refl.
  - eapply persists_trans; [apply persists_step | apply IH].
Qed.

Lemma markDelivered_lookup_inv id tg db id' r' :
  markDelivered id tg db !! id' = Some r' →
  ∃ r, db !! id' = Some r ∧ retry_count r' = retry_count r.
Proof.
  destruct (decide (id = id')) as [->|Hne].
  - destruct (db !! id') as [r|] eqn:H.
    + rewrite (markDelivered_lookup _ _ _ _ H). intros [= <-]. eauto.
    + unfold markDelivered. by rewrite lookup_alter_eq, H.
  - rewrite markDelivered_lookup_ne by done. eauto.
Qed.

Lemma capped_appendMessage rec now db : capped db → capped (appendMessage rec now db).
Proof.
  intros Hc id r' H. destruct (decide (id = ID rec)) as [->|Hne].
  - destruct (db !! ID rec) as [old|] eqn:Hold.
    + rewrite (appendMessage_conflict _ _ _ _ Hold) in H. injection H as <-.
      simpl. eauto.
    + rewrite (appendMessage_fresh _ _ _ Hold) in H. injection H as <-.
      simpl. unfold maxRetries. lia.
  - rewrite appendMessage_other in H by done. eauto.
Qed.

Lemma capped_markDelivered id tg db : capped db → capped (markDelivered id tg db).
Proof.
  intros Hc id' r' H. apply markDelivered_lookup_inv in H as (r & H & ->). eauto.
Qed.

Lemma capped_incRetry id db :
  capped db →
  (∀ r, db !! id = Some r → retry_count r < maxRetries) →
  capped (incRetry id db).
Proof.
  intros Hc Hlt id' r' H. destruct (decide (id = id')) as [->|Hne].
  - destruct (db !! id') as [r|] eqn:Hr.
    + rewrite (incRetry_lookup _ _ _ Hr) in H. injection H as <-. simpl.
      specialize (Hlt r eq_refl). lia.
    + unfold incRetry in H. by rewrite lookup_alter_eq, Hr in H.
  - rewrite incRetry_lookup_ne in H by done. eauto.
Qed.

Lemma below_markDelivered msg rest id tg db :
  below (msg :: rest) db → below rest (markDelivered id tg db).
Proof.
  intros Hb m r' Hin H. apply markDelivered_lookup_inv in H as (r & H & ->).
  eapply Hb; [|done]. by right.
Qed.

#[local] Hint Resolve capped_appendMessage capped_markDelivered below_markDelivered : store.

Lemma capped_drain g t s pending w :
  capped (messages w) → below pending (messages w) →
  capped (messages (drain E g t s pending w)).
Proof.
  revert w. induction pending as [|msg rest IH]; intros w Hc Hb; simpl; [done|].
  destruct (renderHTML E s msg) as [html|].
  - unfold sendMessageHTMLGetID. destruct (upload E (reads w)) as [tg|err].
    + apply IH; simpl; eauto with store.
    + rewrite messages_onSendFailure. simpl.
      assert (capped (incRetry (ID msg) (messages w))).
      { apply capped_incRetry; [done|]. intros r. apply Hb. by left. }
      destruct (_ || _); eauto with store.
  - apply IH; simpl; eauto with store.
Qed.

Lemma below_findPending s db : below (findPending s db) db.
Proof.
  intros m r Hin H. apply elem_of_findPending in Hin as (r' & H' & _ & _ & _ & Hlt).
  congruence.
Qed.

Lemma capped_deliverSession cfg s w :
  capped (messages w) → capped (messages (deliverSession E cfg s w)).
Proof.
  intros Hc. unfold deliverSession.
  destruct (Sessions cfg !! s) as [[info|]|]; try done.
  destruct (_ || _); [done|]. apply capped_drain; [done|apply below_findPending].
Qed.

Lemma capped_foldl_sessions cfg l w :
  capped (messages w) →
  capped (messages (foldl (fun w' s => deliverSession E cfg s w') w l)).
Proof.
  revert w. induction l as [|s l IH]; intros w Hc; simpl; [done|].
  apply IH. by apply capped_deliverSession.
Qed.

Lemma capped_step w op : capped (messages w) → capped (messages (step E w op)).
Proof.
  intros Hc. destruct op as [rec| |cfg]; simpl; [| |done].
  - unfold appendMessageW. destruct (Timestamp rec =? 0); simpl;
      by apply capped_appendMessage.
  - by apply capped_foldl_sessions.
Qed.

Lemma capped_run ops w : capped (messages w) → capped (messages (run E ops w)).
Proof.
  revert w. induction ops as [|op ops IH]; intros w Hc; simpl; [done|].
  apply IH. by apply capped_step.
Qed.

(** C7. Whatever the producers append and however the delivery cycles
    go, from a store whose retry counts are at most 5: they stay at most
    5; and a row that has come to retry count 5 at some point of the run
    is in no pending scan, of any session, at any later point. *)
Theorem retry_count_capped (ops1 ops2 : list Op) (w : World) :
  capped (messages w) →
  capped (messages (run E ops1 w)) ∧
  ∀ id r, messages (run E ops1 w) !! id = Some r →
          maxRetries ≤ retry_count r →
          ∀ sess m, m ∈ findPending sess (messages (run E (ops1 ++ ops2) w)) →
                    ID m ≠ id.
Proof.
  intros Hc. split; [by apply capped_run|].
  intros id r Hr H5 sess m Hin Heq. subst id.
  unfold run in Hin. rewrite foldl_app in Hin. fold (run E ops1 w) in Hin.
  fold (run E ops2 (run E ops1 w)) in Hin.
  apply elem_of_findPending in Hin as (r' & Hr' & _ & _ & _ & Hlt).
  destruct (persists_run ops2 _ _ _ Hr) as (r2 & Hr2 & (_&_&_&_&_&Hle)).
  rewrite Hr' in Hr2. injection Hr2 as ->. lia.
Qed.

End Delivery.

Lemma transient_failure_policy_witness :
  effects (deliverSession flakyEnv sampleConfig "proj" twoPending) =
    [TgSendHTML (-100) 5 ("<b>proj:</b>" +:+ nl +:+ "first")] ∧
  effects (deliverSession flakyEnv sampleConfig "proj"
             (deliveryCycle flakyEnv twoPending)) =
    effects (deliveryCycle flakyEnv twoPending) ++
    [TgSendHTML (-100) 5 ("<b>proj:</b>" +:+ nl +:+ "first");
     TgSendMessage (-100) 5 "⚠️ Send failed (2/5): timeout"] ∧
  effects (deliverSession secondFailsEnv sampleConfig "proj" twoPending) =
    [TgSendHTML (-100) 5 ("<b>proj:</b>" +:+ nl +:+ "first");
     TgSendHTML (-100) 5 ("<b>proj:</b>" +:+ nl +:+ "second")].
Proof.
  assert (TopicID (mkSessionInfo 5 "/home/u/proj" "@1" "") ≠ 0) as Ht by (simpl; lia).
  assert (GroupID sampleConfig ≠ 0) as Hg by (simpl; lia).
  assert (- 2 ^ 63 ≤ 0) as H0 by lia.
  assert (- 2 ^ 63 ≤ 1) as H1 by lia.
  split; [|split].
  - pose proof (transient_failure_policy flakyEnv sampleConfig _ "proj" [] msgA [msgB]
                  ("<b>proj:</b>" +:+ nl +:+ "first") "timeout"
                  (mkRow "proj" "assistant_text" "first" "claude" 0 0 0 10)
                  twoPending twoPending
                  eq_refl Ht Hg eq_refl eq_refl eq_refl eq_refl eq_refl eq_refl H0)
      as (_ & _ & _ & _ & _ & H & _).
    apply H. simpl. lia.
  - pose proof (transient_failure_policy flakyEnv sampleConfig _ "proj" []
                  (mkMessageRecord "a" "proj" "assistant_text" "first" "claude"
                                   false 0 1 10)
                  [msgB] ("<b>proj:</b>" +:+ nl +:+ "first") "timeout"
                  (mkRow "proj" "assistant_text" "first" "claude" 0 0 1 10)
                  (deliveryCycle flakyEnv twoPending) (deliveryCycle flakyEnv twoPending)
                  eq_refl Ht Hg eq_refl eq_refl eq_refl eq_refl eq_refl eq_refl H1)
      as (_ & _ & _ & _ & _ & _ & H & _).
    apply H. simpl. lia.
  - pose proof (transient_failure_policy secondFailsEnv sampleConfig _ "proj" [msgA]
                  msgB [] ("<b>proj:</b>" +:+ nl +:+ "second") "timeout"
                  (mkRow "proj" "assistant_text" "second" "claude" 0 0 0 20)
                  twoPending _
                  eq_refl Ht Hg eq_refl eq_refl eq_refl eq_refl eq_refl eq_refl H0)
      as (_ & _ & _ & _ & _ & H & _).
    apply H. simpl. lia.
Defined.

Lemma permanent_failure_drops_and_stops_witness :
  upload sampleEnv (reads twoPending) = SendErr "Bad Request: chat not found" ∧
  effects (drain sampleEnv (-100) 5 "proj" [msgA; msgB] twoPending) =
    [TgSendHTML (-100) 5 ("<b>proj:</b>" +:+ nl +:+ "first");
     TgSendMessage (-100) 5
       "❌ Message dropped (permanent error): Bad Request: chat not found"].
Proof.
  split; [reflexivity|].
  assert (∃ p, p ∈ permanent ∧
               Contains (ToLower "Bad Request: chat not found") (ToLower p) = true)
    as Hp by (exists "chat not found"; split; [by left | reflexivity]).
  pose proof (permanent_failure_drops_and_stops sampleEnv (-100) 5 "proj" msgA [msgB]
                ("<b>proj:</b>" +:+ nl +:+ "first") "Bad Request: chat not found"
                (mkRow "proj" "assistant_text" "first" "claude" 0 0 0 10) twoPending
                eq_refl eq_refl Hp eq_refl) as (_ & _ & H).
  exact H.
Defined.

(** The claim of C2 fails on two pending rows of one session when the
    first upload is answered "Bad Request: chat not found" and any later
    one would succeed: the cycle uploads nothing for the second row and
    leaves it pending. *)
Lemma permanent_failure_does_not_continue :
  findPending "proj" (messages twoPending) = [msgA; msgB] ∧
  upload sampleEnv 0 = SendErr "Bad Request: chat not found" ∧
  isPermanentError "Bad Request: chat not found" = true ∧
  upload sampleEnv 1 = SendOk 77 ∧
  effects (deliveryCycle sampleEnv twoPending) =
    [TgSendHTML (-100) 5 ("<b>proj:</b>" +:+ nl +:+ "first");
     TgSendMessage (-100) 5
       "❌ Message dropped (permanent error): Bad Request: chat not found"] ∧
  isDelivered "a" (messages (deliveryCycle sampleEnv twoPending)) = true ∧
  isDelivered "b" (messages (deliveryCycle sampleEnv twoPending)) = false ∧
  findPending "proj" (messages (deliveryCycle sampleEnv twoPending)) = [msgB].
Proof. vm_compute. repeat split. Qed.

Lemma retry_count_capped_witness :
  capped (messages twoPending) ∧
  capped (messages (run flakyEnv [OpCycle; OpCycle] twoPending)).
Proof.
  assert (capped (messages twoPending)) as Hc.
  { intros id r H. apply elem_of_map_to_list in H. vm_compute in H.
    apply list_elem_of_In in H. simpl in H.
    destruct H as [[= <- <-]|[[= <- <-]|[]]]; vm_compute; discriminate. }
  split; [exact Hc|].
  exact (proj1 (retry_count_capped flakyEnv [OpCycle; OpCycle] [] twoPending Hc)).
Defined.

(** Five cycles with every upload failing on a timeout, one fresh row:
    silence, three warnings, the drop. *)
Example five_transient_failures :
  effects (run flakyEnv [OpCycle; OpCycle; OpCycle; OpCycle; OpCycle; OpCycle]
             (appendMessageW flakyEnv msgA emptyWorld)) =
    [ TgSendHTML (-100) 5 ("<b>proj:</b>" +:+ nl +:+ "first");
      TgSendHTML (-100) 5 ("<b>proj:</b>" +:+ nl +:+ "first");
      TgSendMessage (-100) 5 "⚠️ Send failed (2/5): timeout";
      TgSendHTML (-100) 5 ("<b>proj:</b>" +:+ nl +:+ "first");
      TgSendMessage (-100) 5 "⚠️ Send failed (3/5): timeout";
      TgSendHTML (-100) 5 ("<b>proj:</b>" +:+ nl +:+ "first");
      TgSendMessage (-100) 5 "⚠️ Send failed (4/5): timeout";
      TgSendHTML (-100) 5 ("<b>proj:</b>" +:+ nl +:+ "first");
      TgSendMessage (-100) 5 "❌ Message dropped after 5 retries: timeout" ].
Proof. vm_compute. reflexivity. Qed.

(** ** The transcript tailer *)

Lemma elem_of_firstOccurrences x l : x ∈ firstOccurrences l ↔ x ∈ l.
Proof.
  induction l as [|y l IH]; simpl; [done|].
  rewrite !elem_of_cons, list_elem_of_filter, IH.
  destruct (decide (x = y)); tauto.
Qed.

Lemma NoDup_firstOccurrences l : NoDup (firstOccurrences l).
Proof.
  induction l as [|y l IH]; simpl; [constructor|].
  constructor; [|by apply NoDup_filter].
  rewrite list_elem_of_filter. tauto.
Qed.

Lemma firstOccurrences_snoc l x :
  firstOccurrences (l ++ [x]) =
    if decide (x ∈ l) then firstOccurrences l else firstOccurrences l ++ [x].
Proof.
  induction l as [|y l IH]; cbn [app firstOccurrences].
  - by rewrite decide_False by apply not_elem_of_nil.
  - rewrite IH. clear IH.
    destruct (decide (x ∈ l)) as [Hin|Hnin].
    + rewrite decide_True by (by right). done.
    + rewrite filter_app, filter_cons, filter_nil.
      destruct (decide (x = y)) as [->|Hne]; repeat case_decide;
        rewrite ?app_nil_r; try done; exfalso;
        repeat match goal with
               | H : _ ∈ _ :: _ |- _ => apply elem_of_cons in H
               | H : ¬ (_ ∈ _ :: _) |- _ => rewrite elem_of_cons in H
               end; tauto.
Qed.

Lemma lastTextsFor_snoc r kept p :
  lastTextsFor r (kept ++ [p]) =
    if decide (p.1 = r) then p.2 else lastTextsFor r kept.
Proof.
  unfold lastTextsFor. rewrite filter_app, filter_cons, filter_nil.
  destruct (decide (p.1 = r)).
  - by rewrite last_snoc.
  - by rewrite app_nil_r.
Qed.

Lemma dedupStep_keptStep st e :
  dedupStep st e =
    match textEntry e with
    | Some p => keptStep st p
    | None => st
    end.
Proof.
  unfold dedupStep, textEntry, textsOfEntry.
  destruct (e_content e) as [blocks|]; [|done].
  by destruct (omap keptText blocks).
Qed.

Lemma foldl_dedupStep st es :
  foldl dedupStep st es = foldl keptStep st (omap textEntry es).
Proof.
  revert st. induction es as [|e es IH]; intros st; simpl; [done|].
  rewrite dedupStep_keptStep. destruct (textEntry e); simpl; apply IH.
Qed.

Lemma tracks_empty : tracks ∅ [].
Proof. intros r i. by rewrite lookup_empty, lookup_nil. Qed.

(** The loop invariant: after the text-bearing entries [kept], [ordered]
    is [groupLast kept] and [seen] gives the index of each request id. *)
Lemma foldl_keptStep_groupLast kept :
  (foldl keptStep (∅, []) kept).2 = groupLast kept ∧
  tracks (foldl keptStep (∅, []) kept).1 (firstOccurrences kept.*1).
Proof.
  induction kept as [|[r texts] kept [IHo IHs]] using rev_ind.
  - split; [done | apply tracks_empty].
  - rewrite foldl_app. simpl.
    destruct (foldl keptStep (∅, []) kept) as [seen ordered]. simpl in *. subst ordered.
    unfold keptStep, groupLast. simpl.
    rewrite fmap_app. simpl. rewrite firstOccurrences_snoc.
    pose proof (NoDup_firstOccurrences kept.*1) as Hnd.
    destruct (seen !! r) as [idx|] eqn:Hseen; simpl.
    + assert (firstOccurrences kept.*1 !! idx = Some r) as Hidx by by apply IHs.
      rewrite decide_True
        by (eapply elem_of_firstOccurrences, list_elem_of_lookup_2; exact Hidx).
      split; [|done]. apply list_eq. intros j.
      rewrite list_lookup_alter, !list_lookup_fmap.
      destruct (decide (idx = j)) as [<-|Hne].
      * rewrite Hidx. simpl.
        by rewrite lastTextsFor_snoc, decide_True.
      * destruct (firstOccurrences kept.*1 !! j) as [r'|] eqn:Hj; simpl; [|done].
        rewrite lastTextsFor_snoc, decide_False; [done|]. simpl. intros <-.
        apply Hne. eapply NoDup_lookup; eauto.
    + assert (r ∉ firstOccurrences kept.*1) as Hnin.
      { intros (i & Hi)%list_elem_of_lookup_1. apply IHs in Hi. congruence. }
      rewrite decide_False by (by rewrite <- elem_of_firstOccurrences).
      split.
      * rewrite fmap_app. simpl.
        rewrite lastTextsFor_snoc, decide_True by done. f_equal.
        apply list_fmap_ext. intros i r' Hi.
        rewrite lastTextsFor_snoc, decide_False; [done|]. simpl. intros <-.
        apply Hnin. by eapply list_elem_of_lookup_2.
      * intros r0 i. rewrite length_fmap.
        destruct (decide (r = r0)) as [<-|Hne].
        -- rewrite lookup_insert_eq. split.
           ++ intros [= <-]. by rewrite lookup_app_r, Nat.sub_diag.
           ++ intros Hi. apply lookup_snoc_Some in Hi as [[_ Hi]|[<- _]]; [|done].
              exfalso. apply Hnin. by eapply list_elem_of_lookup_2.
        -- rewrite lookup_insert_ne by done. unfold tracks in IHs.
           rewrite IHs, lookup_snoc_Some. split.
           ++ intros Hi. left. split; [by eapply lookup_lt_Some | done].
           ++ intros [[_ Hi]|[_ Heq]]; [done | congruence].
Qed.

Lemma extractFromLines_tailerSpec lines tailCount :
  extractFromLines lines tailCount = tailerSpec lines tailCount.
Proof.
  unfold extractFromLines, tailerSpec. rewrite foldl_dedupStep.
  by rewrite (proj1 (foldl_keptStep_groupLast _)).
Qed.

(** The tailer on a file: nothing for an empty path or a file that cannot
    be read; otherwise the result on the decoded non-empty lines of the
    scanned tail. *)
Lemma extractRecentAssistantTexts_file unmarshal path file tailCount :
  extractRecentAssistantTexts unmarshal path file tailCount =
    match file with
    | Some data =>
        if decide (path = "") then []
        else tailerSpec
               (unmarshal <$> filter (fun l => l ≠ "") (Split (tailData data) byte_nl))
               tailCount
    | None => []
    end.
Proof.
  unfold extractRecentAssistantTexts.
  destruct (String.eqb_spec path "") as [->|Hne].
  - by destruct file.
  - destruct file; [|done]. rewrite decide_False by done.
    apply extractFromLines_tailerSpec.
Qed.

Lemma selectEntry_skipped tl :
  IsApiErrorMessage tl = true ∨ RequestID tl = "" → selectEntry (Some tl) = None.
Proof.
  intros H. unfold selectEntry.
  destruct (negb _ || negb _); [done|].
  destruct H as [-> | ->]; [done|]. by rewrite orb_true_r.
Qed.

(** C3, as the code has it.  The tailer returns, for the last
    [tailCount] selected lines, what [tailerSpec] says: the lines that
    bear text grouped by request id, groups in the order of first
    appearance, each group holding the texts of the last text-bearing
    line of its id.  A line with [isApiErrorMessage] set or without
    request id can be struck from the transcript without changing the
    result. *)
Theorem tailer_groups_by_last_text_line (lines : list (option transcriptLine))
    (tailCount : nat) :
  extractFromLines lines tailCount = tailerSpec lines tailCount ∧
  ∀ l1 tl l2,
    lines = l1 ++ Some tl :: l2 →
    IsApiErrorMessage tl = true ∨ RequestID tl = "" →
    extractFromLines lines tailCount = extractFromLines (l1 ++ l2) tailCount.
Proof.
  split; [apply extractFromLines_tailerSpec|].
  intros l1 tl l2 -> Hbad. unfold extractFromLines.
  rewrite !omap_app. cbn [omap list_omap].
  by rewrite (selectEntry_skipped _ Hbad).
Qed.

(** The claim of C3 fails on a text line followed by a tool-call line of
    the same request: the last line carrying the request id has no text
    block, and the tailer returns the text of the line before.  It fails
    too on a request id that only lines before the last 80 selected ones
    carry: nothing is returned for it. *)
Lemma tailer_not_last_line :
  extractFromLines textThenToolUse 80 =
    [mkAssistantTextBlock "req_7" "I will list the files."] ∧
  tailerAsClaimed textThenToolUse = [] ∧
  extractFromLines textThenToolUse 80 ≠ tailerAsClaimed textThenToolUse ∧
  extractFromLines eightyOneLines 80 =
    replicate 1 (mkAssistantTextBlock "req_2" "new") ∧
  tailerAsClaimed eightyOneLines =
    [mkAssistantTextBlock "req_1" "old"; mkAssistantTextBlock "req_2" "new"].
Proof. vm_compute. repeat split. discriminate. Qed.

(** ** The tool-input summary *)

Lemma length_take_bytes n s : (String.length (take_bytes n s) ≤ n)%nat.
Proof.
  revert s. induction n as [|n IH]; intros [|c s]; simpl; try lia.
  specialize (IH s). lia.
Qed.

Lemma length_append s1 s2 :
  String.length (s1 +:+ s2) = (String.length s1 + String.length s2)%nat.
Proof. induction s1 as [|c s1 IH]; simpl; [done | by rewrite IH]. Qed.

Lemma length_trunc s : (String.length (trunc s) ≤ 83)%nat.
Proof.
  unfold trunc, truncAt. destruct (Nat.ltb_spec 80 (String.length s)).
  - rewrite length_append. pose proof (length_take_bytes 80 s).
    change (String.length "...") with 3%nat. lia.
  - lia.
Qed.

Lemma trunc_short s : (String.length s ≤ 80)%nat → trunc s = s.
Proof.
  intros H. unfold trunc, truncAt.
  destruct (Nat.ltb_spec 80 (String.length s)); [lia | done].
Qed.

Lemma trunc_long s :
  (80 < String.length s)%nat → trunc s = take_bytes 80 s +:+ "...".
Proof.
  intros H. unfold trunc, truncAt.
  destruct (Nat.ltb_spec 80 (String.length s)); [done | lia].
Qed.

(** C8, as the code has it.  What the summary is for each tool, and
    where the bound holds: the summaries that pass through [trunc] have at
    most 80 bytes of the field and the three of the ellipsis; a file path
    is given whole. *)
Theorem toolInputSummary_cases (hookData : HookData) :
  let ti := ToolInput hookData in
  let name := ToolName hookData in
  (name = "Bash" → toolInputSummary hookData = trunc (Command ti)) ∧
  (name = "Read" ∨ name = "Write" → toolInputSummary hookData = FilePath ti) ∧
  (name = "Edit" →
     toolInputSummary hookData =
       if decide (OldString ti = "") then FilePath ti
       else FilePath ti +:+ " `" +:+ editPreview (OldString ti) +:+ "`") ∧
  (name = "Grep" ∨ name = "Glob" →
     toolInputSummary hookData =
       if decide (Pattern ti = "") then Description ti else trunc (Pattern ti)) ∧
  (name = "WebSearch" → toolInputSummary hookData = trunc (Query ti)) ∧
  (name = "WebFetch" → toolInputSummary hookData = trunc (URL ti)) ∧
  (name = "Task" → toolInputSummary hookData = trunc (Description ti)) ∧
  (name ∉ ["Bash"; "Read"; "Write"; "Edit"; "Grep"; "Glob"; "WebSearch";
           "WebFetch"; "Task"] →
     toolInputSummary hookData = trunc (Description ti)) ∧
  (summaryTruncated hookData = true →
     (String.length (toolInputSummary hookData) ≤ 83)%nat) ∧
  (∀ s, (String.length s ≤ 80)%nat → trunc s = s) ∧
  (∀ s, (80 < String.length s)%nat → trunc s = take_bytes 80 s +:+ "...").
Proof.
  intros ti name. subst ti name.
  destruct hookData as [sid cwd name ti prompt]. simpl.
  repeat split.
  - by intros ->.
  - by intros [-> | ->].
  - intros ->. unfold toolInputSummary; simpl. unfold editPreview.
    case_decide as H.
    + by rewrite H.
    + apply String.eqb_neq in H. by rewrite H.
  - intros [-> | ->]; unfold toolInputSummary; simpl;
      (case_decide as H; [by rewrite H | apply String.eqb_neq in H; by rewrite H]).
  - by intros ->.
  - by intros ->.
  - by intros ->.
  - intros Hn. unfold toolInputSummary; simpl.
    repeat (rewrite (proj2 (String.eqb_neq name _)) by (intros ->; apply Hn; set_solver)).
    simpl. destruct (String.eqb_spec (Description ti) "") as [-> | _]; done.
  - unfold summaryTruncated, toolInputSummary; simpl.
    destruct (String.eqb name "Bash"); [intros _; apply length_trunc|].
    destruct (String.eqb name "Read"); [done|].
    destruct (String.eqb name "Write"); [done|].
    destruct (String.eqb name "Edit"); [done|]. simpl.
    destruct (String.eqb name "Grep" || String.eqb name "Glob"); simpl.
    { destruct (String.eqb (Pattern ti) ""); [done|]. intros _. apply length_trunc. }
    intros _.
    repeat (match goal with |- context [if ?b then _ else _] => destruct b end);
      try apply length_trunc. simpl. lia.
  - apply trunc_short.
  - apply trunc_long.
Qed.

(** The bound of C8 fails for a file read: the summary is the whole
    path, here of 100 bytes. *)
Lemma toolInputSummary_unbounded_for_paths :
  toolInputSummary readLongPath = longPath ∧
  String.length (toolInputSummary readLongPath) = 100%nat ∧
  ¬ (String.length (toolInputSummary readLongPath) ≤ 83)%nat.
Proof. repeat split. vm_compute. lia. Qed.

(** ** Button presses *)

Lemma rev_bytes_rev_bytes a b s :
  rev_bytes a (rev_bytes b s) = rev_bytes (s +:+ a) b.
Proof.
  revert a b. induction s as [|c s IH]; intros a b; simpl; [done|].
  by rewrite IH.
Qed.

Lemma append_empty_r s : s +:+ "" = s.
Proof.
  induction s as [|c s IH]; [done|].
  change (String c (s +:+ "") = String c s). by rewrite IH.
Qed.

Lemma rev_bytes_involutive s : rev_bytes "" (rev_bytes "" s) = s.
Proof. rewrite rev_bytes_rev_bytes. exact (append_empty_r s). Qed.

Lemma splitByte_sep sep cur s rest :
  hasByte sep s = false →
  splitByte sep cur (s +:+ String sep rest) =
    rev_bytes "" (rev_bytes cur s) :: splitByte sep "" rest.
Proof.
  revert cur. induction s as [|c s IH]; intros cur H; simpl in *.
  - by rewrite Ascii.eqb_refl.
  - apply orb_false_iff in H as [Hc Hs]. rewrite Hc. by apply IH.
Qed.

Lemma splitByte_last sep cur s :
  hasByte sep s = false →
  splitByte sep cur s = [rev_bytes "" (rev_bytes cur s)].
Proof.
  revert cur. induction s as [|c s IH]; intros cur H; simpl in *; [done|].
  apply orb_false_iff in H as [Hc Hs]. rewrite Hc. by apply IH.
Qed.

(** Splitting a payload of four colon-free fields gives the fields. *)
Lemma Split_four a b c d :
  hasByte byte_colon a = false → hasByte byte_colon b = false →
  hasByte byte_colon c = false → hasByte byte_colon d = false →
  Split (a +:+ ":" +:+ b +:+ ":" +:+ c +:+ ":" +:+ d) byte_colon = [a; b; c; d].
Proof.
  intros Ha Hb Hc Hd. unfold Split.
  repeat match goal with
         | |- context [":" +:+ ?x] => change (":" +:+ x) with (String byte_colon x)
         end.
  rewrite (splitByte_sep _ _ _ _ Ha), (splitByte_sep _ _ _ _ Hb),
    (splitByte_sep _ _ _ _ Hc), (splitByte_last _ _ _ Hd).
  by rewrite !rev_bytes_involutive.
Qed.

Lemma digitValue_pretty_N_char d :
  (d < 10)%N → digitValue (pretty_N_char d) = Some (Z.of_N d).
Proof.
  intros H.
  assert (d = 0 ∨ d = 1 ∨ d = 2 ∨ d = 3 ∨ d = 4 ∨ d = 5 ∨ d = 6 ∨ d = 7
          ∨ d = 8 ∨ d = 9)%N as Hd by lia.
  repeat destruct Hd as [-> | Hd]; try subst d; reflexivity.
Qed.

Lemma parseDigits_pretty_N_go x s :
  parseDigits 0 (pretty_N_go x s) = parseDigits (Z.of_N x) s.
Proof.
  revert s. induction (N.lt_wf_0 x) as [x _ IH]; intros s.
  destruct (decide (x = 0)%N) as [->|Hx]; [by rewrite pretty_N_go_0|].
  rewrite pretty_N_go_step by lia.
  rewrite IH by (apply N.div_lt; lia). simpl.
  rewrite digitValue_pretty_N_char by (apply N.mod_lt; lia).
  f_equal. rewrite (N.div_mod x 10) at 3 by lia. lia.
Qed.

Lemma allDigits_pretty_N_go x s :
  allDigits s = true → allDigits (pretty_N_go x s) = true.
Proof.
  revert s. induction (N.lt_wf_0 x) as [x _ IH]; intros s Hs.
  destruct (decide (x = 0)%N) as [->|Hx]; [by rewrite pretty_N_go_0|].
  rewrite pretty_N_go_step by lia. apply IH; [apply N.div_lt; lia|].
  simpl. rewrite Hs, andb_true_r. apply bool_decide_eq_true.
  rewrite digitValue_pretty_N_char by (apply N.mod_lt; lia). eauto.
Qed.

(** [itoa] of a positive number is the digits [pretty_N_go] lays down. *)
Ltac itoa_positive :=
  unfold itoa, pretty, pretty_Z, pretty, pretty_positive, pretty, pretty_N;
  rewrite decide_False by done.

Lemma allDigits_itoa n : 0 ≤ n → allDigits (itoa n) = true.
Proof.
  intros Hn. destruct n as [|p|p]; [done| |lia].
  itoa_positive. by apply allDigits_pretty_N_go.
Qed.

Lemma allDigits_hasByte s : allDigits s = true → hasByte byte_colon s = false.
Proof.
  induction s as [|c s IH]; simpl; [done|].
  intros [Hc Hs]%andb_true_iff. rewrite (IH Hs), orb_false_r.
  apply bool_decide_eq_true in Hc as [d Hd]. unfold digitValue in Hd.
  destruct (Ascii.eqb_spec c byte_colon) as [->|]; [by vm_compute in Hd | done].
Qed.

Lemma Atoi_digits s n :
  s ≠ "" → allDigits s = true → parseDigits 0 s = Some n →
  Atoi s = clampInt64 n.
Proof.
  intros Hne Hd Hp. destruct s as [|c s]; [done|]. unfold Atoi.
  simpl in Hd. apply andb_true_iff in Hd as [Hc _].
  apply bool_decide_eq_true in Hc as [d Hc].
  destruct (Ascii.eqb_spec c (Ascii.ascii_of_nat 45)) as [->|_];
    [by vm_compute in Hc|].
  destruct (Ascii.eqb_spec c (Ascii.ascii_of_nat 43)) as [->|_];
    [by vm_compute in Hc|].
  by rewrite Hp.
Qed.

(** [Atoi] reads back what [%d] prints, for an index within [int64]. *)
Lemma Atoi_itoa n : 0 ≤ n < 2 ^ 63 → Atoi (itoa n) = n.
Proof.
  intros Hn. destruct n as [|p|p]; [done| |lia].
  rewrite (Atoi_digits _ (Z.pos p)).
  - unfold clampInt64. lia.
  - itoa_positive. intros Heq.
    pose proof (parseDigits_pretty_N_go (N.pos p) "") as H.
    rewrite Heq in H. simpl in H. by injection H.
  - apply allDigits_itoa. lia.
  - itoa_positive. by rewrite parseDigits_pretty_N_go.
Qed.

Lemma effects_sendDowns target n w :
  effects (sendDowns target n w) = effects w ++ downs target n.
Proof.
  revert w. induction n as [|n IH]; intros w; simpl.
  - by rewrite app_nil_r.
  - rewrite IH. simpl. unfold downs. simpl. by rewrite <- !app_assoc.
Qed.

Lemma wrapInt64_succ n :
  0 ≤ n < 2 ^ 63 →
  wrapInt64 (n + 1) = if decide (n = 2 ^ 63 - 1) then - 2 ^ 63 else n + 1.
Proof.
  intros Hn. case_decide as Hmax.
  - subst n. reflexivity.
  - apply wrapInt64_id. lia.
Qed.

(** C9, as the code has it.  A button press of the authorized
    principal whose payload is [sessionName:qIdx:totalQuestions:optIdx]
    with a session name free of colons.  The callback is answered; when
    it carries the question message, that message is edited to record the
    choice (keyboard removed): the number shown is [optIdx + 1], computed
    on 64 bits, so that the largest index gives the least integer; when
    the session's window exists, Down is
    sent [optIdx] times, each followed by a pause of 50 ms, then Enter,
    and, exactly when [qIdx = totalQuestions - 1], a pause of 300 ms and
    one more Enter follow.  Without the window no key is sent. *)
Theorem callback_selects_option (cfg : Config) (cb : CallbackQuery) (w : World)
    (sessionName : string) (qIdx totalQuestions optIdx : Z) :
  cb_FromID cb = ChatID cfg →
  cb_Data cb = payload sessionName qIdx totalQuestions optIdx →
  hasByte byte_colon sessionName = false →
  0 ≤ qIdx < 2 ^ 63 → 0 ≤ totalQuestions < 2 ^ 63 → 0 ≤ optIdx < 2 ^ 63 →
  let tmuxName := tmuxSafeName sessionName in
  let windowID := getWindowID cfg sessionName in
  let target := tmuxTargetByID (windows w) windowID tmuxName in
  effects (handleCallback cfg cb w) =
    effects w ++
    [TgAnswerCallback (cb_ID cb)] ++
    match cb_Message cb with
    | Some m =>
        [TgEditRemoveKeyboard (cm_ChatID m) (cm_MessageID m)
           (cm_Text m +:+ nl +:+ nl +:+ "✓ Selected option "
              +:+ itoa (if decide (optIdx = 2 ^ 63 - 1) then - 2 ^ 63
                        else optIdx + 1))]
    | None => []
    end ++
    if tmuxWindowExistsByID (windows w) windowID tmuxName then
      downs target (Z.to_nat optIdx) ++
      [TmuxSendKeys target ["Enter"]] ++
      (if decide (qIdx = totalQuestions - 1)
       then [Sleep (300 * Millisecond); TmuxSendKeys target ["Enter"]]
       else [])
    else [].
Proof.
  intros Hfrom Hdata Hname Hq Ht Ho tmuxName windowID target.
  unfold handleCallback. rewrite Hfrom, Z.eqb_refl. simpl negb. cbv iota.
  rewrite Hdata. unfold payload.
  rewrite Split_four
    by (try done; apply allDigits_hasByte, allDigits_itoa; lia).
  cbn [length Nat.leb Nat.eqb lookup list_lookup default].
  unfold id. rewrite !Atoi_itoa by lia. rewrite (wrapInt64_succ optIdx) by lia.
  fold tmuxName windowID.
  assert (((0 <? totalQuestions) && (qIdx =? totalQuestions - 1)) =
          bool_decide (qIdx = totalQuestions - 1)) as ->.
  { destruct (decide (qIdx = totalQuestions - 1)) as [Heq|Hne].
    - rewrite bool_decide_eq_true_2 by done.
      rewrite (proj2 (Z.ltb_lt _ _)) by lia. by rewrite (proj2 (Z.eqb_eq _ _)).
    - rewrite bool_decide_eq_false_2 by done.
      rewrite (proj2 (Z.eqb_neq _ _)) by done. apply andb_false_r. }
  destruct (cb_Message cb) as [m|]; cbn [windows emit];
    (destruct (tmuxWindowExistsByID (windows w) windowID tmuxName);
     [|cbn [effects emit]; rewrite <- ?app_assoc; reflexivity]);
    fold target;
    (destruct (decide (qIdx = totalQuestions - 1));
     [rewrite bool_decide_eq_true_2 by done | rewrite bool_decide_eq_false_2 by done]);
    cbn [effects emit]; rewrite effects_sendDowns;
    cbn [effects emit]; rewrite <- ?app_assoc; reflexivity.
Qed.

Lemma callback_selects_option_witness :
  cb_Data sampleCallback = payload "proj" 1 2 2 ∧
  tmuxWindowExistsByID (windows emptyWorld) (getWindowID sampleConfig "proj")
                       (tmuxSafeName "proj") = true ∧
  effects (handleCallback sampleConfig sampleCallback emptyWorld) =
    [TgAnswerCallback "cb1";
     TgEditRemoveKeyboard (-100) 55
       ("Which one?" +:+ nl +:+ nl +:+ "✓ Selected option 3");
     TmuxSendKeys "@1" ["Down"]; Sleep (50 * Millisecond);
     TmuxSendKeys "@1" ["Down"]; Sleep (50 * Millisecond);
     TmuxSendKeys "@1" ["Enter"];
     Sleep (300 * Millisecond); TmuxSendKeys "@1" ["Enter"]].
Proof.
  split; [reflexivity|]. split; [reflexivity|].
  assert (0 ≤ 1 < 2 ^ 63) as H1 by lia.
  assert (0 ≤ 2 < 2 ^ 63) as H2 by lia.
  exact (callback_selects_option sampleConfig sampleCallback emptyWorld "proj" 1 2 2
           eq_refl eq_refl eq_refl H1 H2 H2).
Defined.

(** The claim of C9 fails in two ways.  With no window running for the
    session, the press is answered and the question edited, and no key is
    sent.  With a session named [a:b], the payload [a:b:0:1:2] (question
    0 of 1, option 2) splits into five parts: the handler takes it for
    the legacy format of session [a], records option 1 and, finding no
    window of that name, sends no key. *)
Lemma callback_without_window_or_with_colon :
  effects (handleCallback sampleConfig sampleCallback noWindows) =
    [TgAnswerCallback "cb1";
     TgEditRemoveKeyboard (-100) 55
       ("Which one?" +:+ nl +:+ nl +:+ "✓ Selected option 3")] ∧
  tmuxWindowExistsByID (windows colonWorld) (getWindowID colonConfig "a:b")
                       (tmuxSafeName "a:b") = true ∧
  effects (handleCallback colonConfig
             (mkCallbackQuery "cb2" 1 (payload "a:b" 0 1 2)
                (Some (mkCallbackMessage "Which one?" (-100) 56)))
             colonWorld) =
    [TgAnswerCallback "cb2";
     TgEditRemoveKeyboard (-100) 56
       ("Which one?" +:+ nl +:+ nl +:+ "✓ Selected option 1")].
Proof. vm_compute. repeat split. Qed.

(** ** Prompts from the chat and the user-prompt hook *)

Lemma isFromTelegram_true sess p db :
  isFromTelegram sess p db = true ↔
  ∃ id r, db !! id = Some r ∧ session r = sess ∧ origin r = "telegram" ∧
          type r = "user_prompt" ∧ text r = p.
Proof.
  unfold isFromTelegram. rewrite bool_decide_eq_true. split.
  - destruct (filter _ _) as [|[id r] l] eqn:Hf; simpl; [lia|]. intros _.
    assert ((id, r) ∈ filter (fromTelegramRow sess p) (map_to_list db)) as Hin
      by (rewrite Hf; by left).
    apply list_elem_of_filter in Hin as [(?&?&?&?) Hin].
    apply elem_of_map_to_list in Hin. by exists id, r.
  - intros (id & r & Hr & ? & ? & ? & ?).
    assert ((id, r) ∈ filter (fromTelegramRow sess p) (map_to_list db)) as Hin.
    { apply list_elem_of_filter. split; [by repeat split|].
      by apply elem_of_map_to_list. }
    destruct (filter _ _); [by apply elem_of_nil in Hin | simpl; lia].
Qed.

Lemma isFromTelegram_persists sess p db db' :
  persists db db' → isFromTelegram sess p db = true →
  isFromTelegram sess p db' = true.
Proof.
  rewrite !isFromTelegram_true. intros Hp (id & r & Hr & ? & ? & ? & ?).
  destruct (Hp _ _ Hr) as (r' & Hr' & (?&?&?&?&?&?)).
  exists id, r'. repeat split; congruence.
Qed.

(** Appending a record with another text does not make a prompt one that
    came from the chat. *)
Lemma isFromTelegram_appendMessage sess p rec now db :
  Text rec ≠ p → isFromTelegram sess p db = false →
  isFromTelegram sess p (appendMessage rec now db) = false.
Proof.
  intros Hne Hf. apply not_true_is_false. intros Ht. apply not_true_iff_false in Hf.
  apply Hf. apply isFromTelegram_true in Ht as (id & r & Hr & ? & ? & ? & ?).
  apply isFromTelegram_true. destruct (decide (id = ID rec)) as [->|Hid].
  - destruct (db !! ID rec) as [old|] eqn:Hold.
    + rewrite (appendMessage_conflict _ _ _ _ Hold) in Hr. injection Hr as <-.
      by exists (ID rec), old.
    + rewrite (appendMessage_fresh _ _ _ Hold) in Hr. injection Hr as <-.
      simpl in *. done.
  - rewrite appendMessage_other in Hr by done. by exists id, r.
Qed.

Lemma messages_appendMessageW E rec w :
  ∃ now, messages (appendMessageW E rec w) = appendMessage rec now (messages w).
Proof. unfold appendMessageW. destruct (Timestamp rec =? 0); simpl; eauto. Qed.

Lemma messages_sendToTmuxWithDelay E target txt delay w :
  messages (sendToTmuxWithDelay E target txt delay w).2 = messages w.
Proof.
  unfold sendToTmuxWithDelay.
  destruct (run_ok E _); destruct (0 <? delay); reflexivity.
Qed.

Lemma effects_sendToTmuxWithDelay E target txt delay w :
  TmuxSendKeys target ["-l"; txt] ∈ effects (sendToTmuxWithDelay E target txt delay w).2.
Proof.
  unfold sendToTmuxWithDelay.
  destruct (run_ok E _); destruct (0 <? delay); simpl;
    rewrite ?elem_of_app, ?elem_of_cons; tauto.
Qed.

Lemma messages_reportSendFailure chatID threadID res :
  messages (reportSendFailure chatID threadID res) = messages res.2.
Proof. by destruct res as [[err|] w]. Qed.

Lemma effects_reportSendFailure chatID threadID res e :
  e ∈ effects res.2 → e ∈ effects (reportSendFailure chatID threadID res).
Proof.
  destruct res as [[err|] w]; simpl; [|done].
  intros H. apply elem_of_app. by left.
Qed.

Lemma messages_persistClaudeSessionID sessName sid w :
  messages (persistClaudeSessionID sessName sid w) = messages w.
Proof.
  unfold persistClaudeSessionID. destruct (_ || _); [done|].
  destruct (Sessions (config w) !! sessName) as [[info|]|]; try done.
  by destruct (negb _).
Qed.

(** The hook leaves the store alone when the prompt is one recorded from
    the chat for the session it resolves to. *)
Lemma handleUserPromptHook_absorbs E hookData w sessName topicID :
  findSession (config w) (Cwd hookData) (SessionID hookData) = (sessName, topicID) →
  isFromTelegram sessName (Prompt hookData) (messages w) = true →
  messages (handleUserPromptHook E hookData w) = messages w.
Proof.
  intros Hs Hf. unfold handleUserPromptHook.
  destruct (String.eqb (Prompt hookData) ""); [done|]. rewrite Hs.
  destruct (_ || _); [done|].
  pose proof (messages_persistClaudeSessionID sessName (SessionID hookData) w) as Hm.
  change (messages (persistClaudeSessionID sessName (SessionID hookData) w))
    with (messages (clearToolState sessName
            (persistClaudeSessionID sessName (SessionID hookData) w))) in Hm.
  by rewrite Hm, Hf.
Qed.

(** The hook records a terminal prompt when the prompt is not one
    recorded from the chat. *)
Lemma handleUserPromptHook_echoes E hookData w sessName topicID :
  Prompt hookData ≠ "" →
  findSession (config w) (Cwd hookData) (SessionID hookData) = (sessName, topicID) →
  sessName ≠ "" → GroupID (config w) ≠ 0 → topicID ≠ 0 →
  isFromTelegram sessName (Prompt hookData) (messages w) = false →
  ∃ nano now,
    messages (handleUserPromptHook E hookData w) =
      appendMessage
        (mkMessageRecord ("prompt:" +:+ SessionID hookData +:+ ":" +:+ itoa nano)
                         sessName "user_prompt" (Prompt hookData) "terminal" false 0 0 0)
        now (messages w) ∧
    NotifyListener ∈ effects (handleUserPromptHook E hookData w).
Proof.
  intros Hp Hs Hn Hg Ht Hf. unfold handleUserPromptHook.
  rewrite (proj2 (String.eqb_neq _ _) Hp), Hs.
  rewrite (proj2 (String.eqb_neq _ _) Hn), (proj2 (Z.eqb_neq _ _) Hg),
    (proj2 (Z.eqb_neq _ _) Ht). simpl orb. cbv iota.
  pose proof (messages_persistClaudeSessionID sessName (SessionID hookData) w) as Hm.
  change (messages (persistClaudeSessionID sessName (SessionID hookData) w))
    with (messages (clearToolState sessName
            (persistClaudeSessionID sessName (SessionID hookData) w))) in Hm.
  rewrite Hm, Hf. eexists _, _. split.
  - simpl. rewrite messages_persistClaudeSessionID. reflexivity.
  - simpl. apply elem_of_app. right. by left.
Qed.

Lemma recordAndInject_unfold E sessName windowID updateID chatID threadID p w :
  recordAndInject E sessName windowID updateID chatID threadID p w =
    reportSendFailure chatID threadID
      (sendToTmuxFromTelegram E
         (tmuxTargetByID (windows w) windowID (tmuxSafeName sessName))
         (tmuxSafeName sessName) p
         (appendMessageW E (chatPromptRecord sessName updateID p)
                         (clearToolState sessName w))).
Proof. reflexivity. Qed.

Lemma chatPrompt_recorded E sessName updateID p w :
  (∀ r, messages w !! ("tg:" +:+ itoa updateID) = Some r →
        session r = sessName ∧ origin r = "telegram" ∧
        type r = "user_prompt" ∧ text r = p) →
  let recorded := appendMessageW E (chatPromptRecord sessName updateID p)
                                 (clearToolState sessName w) in
  isFromTelegram sessName p (messages recorded) = true ∧
  isDelivered ("tg:" +:+ itoa updateID) (messages recorded) = true.
Proof.
  intros Hid recorded. subst recorded.
  destruct (messages_appendMessageW E (chatPromptRecord sessName updateID p)
              (clearToolState sessName w)) as (now & ->).
  change (messages (clearToolState sessName w)) with (messages w).
  destruct (messages w !! ("tg:" +:+ itoa updateID)) as [old|] eqn:Hold.
  - pose proof (appendMessage_conflict (chatPromptRecord sessName updateID p)
                  now _ _ Hold) as Hr.
    destruct (Hid _ eq_refl) as (?&?&?&?). split.
    + apply isFromTelegram_true. eexists _, _. split; [exact Hr|]. done.
    + unfold isDelivered. simpl in Hr. rewrite Hr. simpl.
      apply negb_true_iff, Z.eqb_neq. lia.
  - pose proof (appendMessage_fresh (chatPromptRecord sessName updateID p)
                  now _ Hold) as Hr. split.
    + apply isFromTelegram_true. eexists _, _. split; [exact Hr|]. done.
    + unfold isDelivered. simpl in Hr. by rewrite Hr.
Qed.

Lemma messages_ensureWindow E sessName chatID threadID w wr windowID :
  ensureWindow E sessName chatID threadID w = inl (wr, windowID) →
  messages wr = messages w.
Proof.
  unfold ensureWindow. destruct (tmuxWindowExistsByID _ _ _); [by intros [= <- _]|].
  unfold createTmuxWindow. destruct (run_ok E (reads w)); [done|].
  by intros [= <- _].
Qed.

(** When the window runs, the branch goes on in the world as it is. *)
Lemma ensureWindow_running E sessName chatID threadID w :
  tmuxWindowExistsByID (windows w) (getWindowID (config w) sessName)
                       (tmuxSafeName sessName) = true →
  ensureWindow E sessName chatID threadID w =
    inl (w, getWindowID (config w) sessName).
Proof. intros H. unfold ensureWindow. by rewrite H. Qed.

(** When it does not and tmux creates one, the branch goes on too. *)
Lemma ensureWindow_started E sessName chatID threadID w :
  tmuxWindowExistsByID (windows w) (getWindowID (config w) sessName)
                       (tmuxSafeName sessName) = false →
  run_ok E (reads w) = None →
  ∃ wr, ensureWindow E sessName chatID threadID w =
          inl (wr, new_window E (reads w)).
Proof.
  intros H Hok. unfold ensureWindow, createTmuxWindow. rewrite H, Hok. eauto.
Qed.

(** C4.  Free text [p] in the thread of a session, once the session's
    window runs (it ran, or the poller has started it).  The poller
    appends the prompt row (origin telegram, kind user_prompt, text [p],
    delivered) and injects [p] from the world that holds it; there
    [isFromTelegram] is true already.  Whatever is appended and delivered
    before the hook fires, the user-prompt hook with body [p] that
    resolves to the session finds [isFromTelegram] true and leaves the
    store as it is: no terminal row is added.  The id [tg:updateID] is
    new to the store, or names the row of this same update. *)
Theorem chat_prompt_roundtrip (E : Env) (updateID chatID threadID : Z) (p : string)
    (w wr : World) (sessName windowID : string) (ops : list Op)
    (hookData : HookData) (topicID : Z) :
  getSessionByTopic (config w) threadID = sessName →
  sessName ≠ "" →
  ensureWindow E sessName chatID threadID w = inl (wr, windowID) →
  (∀ r, messages w !! ("tg:" +:+ itoa updateID) = Some r →
        session r = sessName ∧ origin r = "telegram" ∧
        type r = "user_prompt" ∧ text r = p) →
  Prompt hookData = p →
  let recorded := appendMessageW E (chatPromptRecord sessName updateID p)
                                 (clearToolState sessName wr) in
  let target := tmuxTargetByID (windows wr) windowID (tmuxSafeName sessName) in
  let w1 := handleTopicText E updateID chatID threadID p w in
  let w2 := run E ops w1 in
  isFromTelegram sessName p (messages recorded) = true ∧
  isDelivered ("tg:" +:+ itoa updateID) (messages recorded) = true ∧
  effects recorded = effects wr ∧
  w1 = reportSendFailure chatID threadID
         (sendToTmuxFromTelegram E target (tmuxSafeName sessName) p recorded) ∧
  TmuxSendKeys target ["-l"; p] ∈ effects w1 ∧
  (findSession (config w2) (Cwd hookData) (SessionID hookData) = (sessName, topicID) →
   isFromTelegram sessName p (messages w2) = true ∧
   messages (handleUserPromptHook E hookData w2) = messages w2).
Proof.
  intros Hs Hne Hready Hid Hp recorded target w1 w2.
  rewrite <- (messages_ensureWindow _ _ _ _ _ _ _ Hready) in Hid.
  destruct (chatPrompt_recorded E sessName updateID p wr Hid) as [Hrec Hdel].
  assert (w1 = reportSendFailure chatID threadID
                 (sendToTmuxFromTelegram E target (tmuxSafeName sessName) p recorded))
    as Hw1.
  { subst w1. unfold handleTopicText. rewrite Hs.
    rewrite (proj2 (String.eqb_neq _ _) Hne), Hready.
    apply recordAndInject_unfold. }
  assert (messages w1 = messages recorded) as Hm1.
  { rewrite Hw1, messages_reportSendFailure.
    unfold sendToTmuxFromTelegram, sendToTmux.
    by rewrite messages_sendToTmuxWithDelay. }
  split; [exact Hrec|]. split; [exact Hdel|].
  split. { subst recorded. unfold appendMessageW. by destruct (_ =? _). }
  split; [exact Hw1|]. split.
  - rewrite Hw1. apply effects_reportSendFailure.
    unfold sendToTmuxFromTelegram, sendToTmux. apply effects_sendToTmuxWithDelay.
  - intros Hfind.
    assert (isFromTelegram sessName p (messages w2) = true) as H2.
    { apply (isFromTelegram_persists _ _ (messages w1)); [apply persists_run|].
      by rewrite Hm1. }
    split; [exact H2|].
    apply (handleUserPromptHook_absorbs E hookData w2 sessName topicID Hfind).
    by rewrite Hp.
Qed.

Lemma chat_prompt_roundtrip_witness :
  getSessionByTopic (config emptyWorld) 5 = "proj" ∧
  ensureWindow sampleEnv "proj" (-100) 5 emptyWorld = inl (emptyWorld, "@1") ∧
  findSession (config (run sampleEnv [OpCycle]
                         (handleTopicText sampleEnv 42 (-100) 5 "fix the auth bug" emptyWorld)))
              (Cwd fixAuthHook) (SessionID fixAuthHook) = ("proj", 5) ∧
  messages (handleUserPromptHook sampleEnv fixAuthHook
              (run sampleEnv [OpCycle]
                 (handleTopicText sampleEnv 42 (-100) 5 "fix the auth bug" emptyWorld))) =
  messages (run sampleEnv [OpCycle]
              (handleTopicText sampleEnv 42 (-100) 5 "fix the auth bug" emptyWorld)).
Proof.
  split; [reflexivity|]. split; [reflexivity|]. split; [reflexivity|].
  assert (∀ r, messages emptyWorld !! ("tg:" +:+ itoa 42) = Some r →
               session r = "proj" ∧ origin r = "telegram" ∧
               type r = "user_prompt" ∧ text r = "fix the auth bug") as Hid
    by (intros r H; vm_compute in H; discriminate H).
  assert ("proj" ≠ "") as Hne by discriminate.
  pose proof (chat_prompt_roundtrip sampleEnv 42 (-100) 5 "fix the auth bug"
                emptyWorld emptyWorld "proj" "@1" [OpCycle] fixAuthHook 5
                eq_refl Hne eq_refl Hid eq_refl) as (_ & _ & _ & _ & _ & H).
  exact (proj2 (H eq_refl)).
Defined.

Lemma append_longer s t : s ≠ s +:+ " " +:+ t.
Proof.
  intros H. apply (f_equal String.length) in H.
  rewrite !length_append in H. simpl in H. lia.
Qed.

(** C10.  A photo in the thread of a session whose window runs, once
    downloaded.  The row recorded has the caption alone as text (the
    default caption when the message has none); what is injected is the
    caption, a space and the image path.  The two differ, so when the
    injected prompt was not in the log as a chat prompt of the session
    before, it is not afterwards either: the user-prompt hook with the
    injected prompt as body finds [isFromTelegram] false and appends a
    row of origin terminal with that text, not delivered, which the
    delivery loop will upload.  *)
Theorem photo_prompt_echoed (E : Env) (messageID chatID threadID : Z)
    (msgCaption fileID : string) (w : World) (sessName : string)
    (hookData : HookData) (topicID : Z) :
  getSessionByTopic (config w) threadID = sessName →
  sessName ≠ "" →
  tmuxWindowExistsByID (windows w) (getWindowID (config w) sessName)
                       (tmuxSafeName sessName) = true →
  run_ok E (S (reads w)) = None →
  let caption := if String.eqb msgCaption "" then "Analyze this image:" else msgCaption in
  let imgPath := filepathJoin (TempDir E)
                   ("telegram_" +:+ itoa (clock E (reads w)) +:+ ".jpg") in
  let prompt := caption +:+ " " +:+ imgPath in
  let w1 := handlePhoto E messageID chatID threadID msgCaption fileID w in
  let w2 := handleUserPromptHook E hookData w1 in
  isFromTelegram sessName prompt (messages w) = false →
  Prompt hookData = prompt →
  findSession (config w1) (Cwd hookData) (SessionID hookData) = (sessName, topicID) →
  GroupID (config w1) ≠ 0 →
  topicID ≠ 0 →
  (∃ now, messages w1 =
            appendMessage (photoRecord sessName messageID caption) now (messages w)) ∧
  (messages w !! ID (photoRecord sessName messageID caption) = None →
   ∃ r, messages w1 !! ID (photoRecord sessName messageID caption) = Some r ∧
        text r = caption ∧ origin r = "telegram" ∧ type r = "user_prompt" ∧
        tg_delivered r = 1) ∧
  (∃ target, TmuxSendKeys target ["-l"; prompt] ∈ effects w1) ∧
  caption ≠ prompt ∧
  isFromTelegram sessName prompt (messages w1) = false ∧
  ∃ nano now,
    messages w2 =
      appendMessage (terminalRecord sessName (SessionID hookData) nano prompt) now
                    (messages w1) ∧
    (messages w1 !! ID (terminalRecord sessName (SessionID hookData) nano prompt) = None →
     ∃ r, messages w2 !! ID (terminalRecord sessName (SessionID hookData) nano prompt)
            = Some r ∧
          text r = prompt ∧ origin r = "terminal" ∧ type r = "user_prompt" ∧
          session r = sessName ∧ tg_delivered r = 0 ∧ retry_count r = 0) ∧
    NotifyListener ∈ effects w2.
Proof.
  intros Hs Hne Hwin Hdl caption imgPath prompt w1 w2 Hnot Hp Hfind Hg Ht.
  assert (∃ now target,
            messages w1 = appendMessage (photoRecord sessName messageID caption) now
                                        (messages w) ∧
            TmuxSendKeys target ["-l"; prompt] ∈ effects w1) as (now & target & Hm1 & He1).
  { subst w1. unfold handlePhoto. rewrite Hs.
    rewrite (proj2 (String.eqb_neq _ _) Hne), Hwin.
    cbn [reads tick]. rewrite Hdl. fold caption imgPath prompt.
    unfold sendToTmuxFromTelegramWithDelay. eexists _, _. split.
    - rewrite messages_sendToTmuxWithDelay. cbn [messages emit].
      unfold appendMessageW. cbn [Timestamp photoRecord Z.eqb].
      cbn [messages tick set_messages]. reflexivity.
    - apply effects_sendToTmuxWithDelay. }
  assert (caption ≠ prompt) as Hcp by apply append_longer.
  assert (isFromTelegram sessName prompt (messages w1) = false) as Hf1.
  { rewrite Hm1. by apply isFromTelegram_appendMessage. }
  split; [by exists now|]. split.
  { intros Hfresh. rewrite Hm1, (appendMessage_fresh _ _ _ Hfresh).
    eexists. split; [done|]. done. }
  split; [by exists target|]. split; [exact Hcp|]. split; [exact Hf1|].
  assert (Prompt hookData ≠ "") as Hpne.
  { rewrite Hp. subst prompt. intros H. apply (f_equal String.length) in H.
    rewrite !length_append in H. simpl in H. lia. }
  rewrite <- Hp in Hf1.
  destruct (handleUserPromptHook_echoes E hookData w1 sessName topicID
              Hpne Hfind Hne Hg Ht Hf1) as (nano & now2 & Hm2 & He2).
  exists nano, now2. rewrite <- Hp. fold w2 in Hm2, He2. unfold terminalRecord.
  split; [exact Hm2|]. split; [|exact He2].
  intros Hfresh. rewrite Hm2. rewrite (appendMessage_fresh _ _ _ Hfresh).
  eexists. split; [done|]. done.
Qed.

Lemma photo_prompt_echoed_witness :
  Prompt photoHook = "Analyze this image:" +:+ " " +:+ "/tmp/telegram_0.jpg" ∧
  isFromTelegram "proj" (Prompt photoHook) (messages emptyWorld) = false ∧
  isFromTelegram "proj" (Prompt photoHook)
    (messages (handlePhoto sampleEnv 9 (-100) 5 "" "FILE" emptyWorld)) = false ∧
  NotifyListener ∈
    effects (handleUserPromptHook sampleEnv photoHook
               (handlePhoto sampleEnv 9 (-100) 5 "" "FILE" emptyWorld)).
Proof.
  split; [reflexivity|]. split; [reflexivity|].
  assert ("proj" ≠ "") as Hne by discriminate.
  assert (GroupID (config (handlePhoto sampleEnv 9 (-100) 5 "" "FILE" emptyWorld)) ≠ 0)
    as Hg by (vm_compute; discriminate).
  assert (5 ≠ 0) as Ht by lia.
  pose proof (photo_prompt_echoed sampleEnv 9 (-100) 5 "" "FILE" emptyWorld "proj"
                photoHook 5 eq_refl Hne eq_refl eq_refl eq_refl eq_refl eq_refl Hg Ht)
    as (_ & _ & _ & _ & Hf & nano & now & _ & _ & He).
  split; [exact Hf | exact He].
Defined.

(** ** The repository's tests, on the model *)

(** TestDBAppendAndQuery *)
Example test_append_and_query :
  isDelivered "test:1" testStore = true ∧
  ID <$> findPending "test-session" testStore = ["test:2"] ∧
  isDelivered "test:2" (markDelivered "test:2" 12345 testStore) = true ∧
  findPending "test-session" (markDelivered "test:2" 12345 testStore) = [] ∧
  isFromTelegram "test-session" "hello world" testStore = true ∧
  isFromTelegram "test-session" "nonexistent" testStore = false.
Proof. vm_compute. repeat split. Qed.

(** [isPermanentError] on error texts in several cases; the last one
    writes the K of Kicked as the Kelvin sign, U+212A, whose lower case
    is k. *)
Example test_permanent_error :
  isPermanentError "Bad Request: chat not found" = true ∧
  isPermanentError "Forbidden: BOT WAS BLOCKED by the user" = true ∧
  isPermanentError "peer_id_invalid" = true ∧
  isPermanentError "timeout" = false ∧
  isPermanentError "Too Many Requests: retry after 5" = false ∧
  isPermanentError
    (bytes [66; 111; 116; 32; 119; 97; 115; 32; 226; 132; 170; 105; 99; 107;
            101; 100]%nat) = true.
Proof. vm_compute. repeat split. Qed.

(** The path of a downloaded photo, for temporary directories with and
    without a slash at the end. *)
Example test_photo_path :
  filepathJoin "/tmp" "telegram_0.jpg" = "/tmp/telegram_0.jpg" ∧
  filepathJoin "/var/folders/zz/T/" "telegram_0.jpg"
    = "/var/folders/zz/T/telegram_0.jpg".
Proof. vm_compute. repeat split. Qed.

(** TestAllSessions *)
Example test_all_sessions :
  allSessions ∅ = [] ∧
  length (allSessions
            (appendMessage
               (mkMessageRecord "test:2" "sess-b" "notification" "yo" "claude"
                                false 0 0 0) 2
               (appendMessage
                  (mkMessageRecord "test:1" "sess-a" "assistant_text" "hi" "claude"
                                   false 0 0 0) 1 ∅))) = 2%nat.
Proof. vm_compute. repeat split. Qed.

(** TestExtractRecentAssistantTexts, on the decoded lines *)
Example test_streaming_keeps_last :
  extractFromLines
    [ textLine "req_2" [mkContentBlock "text" "partial response..."];
      textLine "req_2" [mkContentBlock "text" "complete response with more detail"] ]
    80
  = [mkAssistantTextBlock "req_2" "complete response with more detail"].
Proof. vm_compute. reflexivity. Qed.

Example test_filters_thinking_and_tool_use :
  extractFromLines
    [ textLine "req_2" [ mkContentBlock "thinking" "";
                         mkContentBlock "text" "Here is my answer";
                         mkContentBlock "tool_use" "" ] ]
    80
  = [mkAssistantTextBlock "req_2" "Here is my answer"].
Proof. vm_compute. reflexivity. Qed.

Example test_filters_no_content :
  extractFromLines
    [ textLine "req_2" [ mkContentBlock "text" "(no content)";
                         mkContentBlock "text" "real content" ] ]
    80
  = [mkAssistantTextBlock "req_2" "real content"].
Proof. vm_compute. reflexivity. Qed.

Example test_skips_error_entries :
  extractFromLines
    [ textLine "req_2" [mkContentBlock "text" "good"];
      Some (mkTranscriptLine "assistant" "" true "assistant"
              (Some [mkContentBlock "text" "No response requested."])) ]
    80
  = [mkAssistantTextBlock "req_2" "good"].
Proof. vm_compute. reflexivity. Qed.

Example test_all_turns_returned :
  extractFromLines
    [ Some (mkTranscriptLine "user" "" false "user"
              (Some [mkContentBlock "text" "first question"]));
      textLine "req_2" [mkContentBlock "text" "first answer"];
      Some (mkTranscriptLine "user" "" false "user"
              (Some [mkContentBlock "text" "second question"]));
      textLine "req_4" [mkContentBlock "text" "second answer"] ]
    80
  = [ mkAssistantTextBlock "req_2" "first answer";
      mkAssistantTextBlock "req_4" "second answer" ].
Proof. vm_compute. reflexivity. Qed.

Example test_tail_count_limits :
  extractFromLines
    [ textLine "req_1" [mkContentBlock "text" "old message"];
      textLine "req_2" [mkContentBlock "text" "recent message"] ]
    1
  = [mkAssistantTextBlock "req_2" "recent message"].
Proof. vm_compute. reflexivity. Qed.


(** * Further properties of the code *)

(** ** Substrings *)

Lemma prefix_append p s : String.prefix p (p +:+ s) = true.
Proof.
  induction p as [|c p IH]; [by destruct s|].
  change (String c p +:+ s) with (String c (p +:+ s)). cbn [String.prefix].
  by destruct (Ascii.ascii_dec c c).
Qed.

Lemma prefix_inv p s : String.prefix p s = true → ∃ post, s = p +:+ post.
Proof.
  revert s. induction p as [|c p IH]; intros s H; [by exists s|].
  destruct s as [|c' s]; [done|]. cbn [String.prefix] in H.
  destruct (Ascii.ascii_dec c c') as [->|]; [|done].
  destruct (IH _ H) as (post & ->). by exists post.
Qed.

Lemma append_assoc (a b c : string) : (a +:+ b) +:+ c = a +:+ (b +:+ c).
Proof.
  induction a as [|x a IH]; [done|].
  change ((String x a +:+ b) +:+ c) with (String x ((a +:+ b) +:+ c)).
  by rewrite IH.
Qed.

(** [strings.Contains]: [sub] occurs in [s]. *)
Lemma Contains_spec s sub :
  Contains s sub = true ↔ ∃ pre post, s = pre +:+ sub +:+ post.
Proof.
  split.
  - induction s as [|c s IH]; cbn [Contains].
    + destruct (String.prefix sub "") eqn:Hp; [|done]. intros _.
      destruct (prefix_inv _ _ Hp) as (post & ->). by exists "", post.
    + destruct (String.prefix sub (String c s)) eqn:Hp.
      * intros _. destruct (prefix_inv _ _ Hp) as (post & ->). by exists "", post.
      * intros H. destruct (IH H) as (pre & post & ->). by exists (String c pre), post.
  - intros (pre & post & ->). induction pre as [|c pre IH].
    + apply Contains_prefix. change ("" +:+ sub +:+ post) with (sub +:+ post).
      apply prefix_append.
    + change (String c pre +:+ sub +:+ post) with (String c (pre +:+ sub +:+ post)).
      cbn [Contains]. rewrite IH. by destruct (String.prefix _ _).
Qed.

(** ** Lower case *)

(** More fuel than the string has bytes changes nothing. *)
Lemma DecodeRuneInString_width s :
  s ≠ "" → (1 ≤ (DecodeRuneInString s).2 ≤ 4)%nat.
Proof.
  destruct s as [|c0 s1]; [done|]. intros _. unfold DecodeRuneInString.
  repeat case_match; simpl; lia.
Qed.

Lemma length_drop_bytes n s : String.length (drop_bytes n s) = (String.length s - n)%nat.
Proof.
  revert s. induction n as [|n IH]; intros [|c s]; simpl; rewrite ?IH; lia.
Qed.

Lemma mapRunes_fuel mapping n m s :
  (String.length s ≤ n)%nat → (String.length s ≤ m)%nat →
  mapRunes mapping n s = mapRunes mapping m s.
Proof.
  revert m s. induction n as [|n IH]; intros m s Hn Hm.
  - destruct s; [|simpl in Hn; lia]. by destruct m.
  - destruct s as [|c s]; [by destruct m|]. destruct m as [|m]; [simpl in Hm; lia|].
    cbn [mapRunes]. destruct (DecodeRuneInString (String c s)) as [r w] eqn:Hd.
    pose proof (DecodeRuneInString_width (String c s)) as Hw. rewrite Hd in Hw.
    cbn [snd] in Hw. specialize (Hw ltac:(done)). f_equal.
    apply IH; rewrite length_drop_bytes; simpl in *; lia.
Qed.

Lemma byteOf_byteValue c : byteOf (byteValue c) = c.
Proof.
  unfold byteOf, byteValue. by rewrite Nat2Z.id, Ascii.ascii_nat_embedding.
Qed.

Lemma byteValue_bound c : 0 ≤ byteValue c < 256.
Proof.
  unfold byteValue. pose proof (Ascii.nat_ascii_bounded c). lia.
Qed.

(** An ASCII byte is a rune of its own, and its lower case is that of
    the byte. *)
Lemma mapRunes_ascii n c s :
  byteValue c < 128 →
  mapRunes unicodeToLower (S n) (String c s) =
    String (lower_byte c) (mapRunes unicodeToLower n s).
Proof.
  intros Hc. cbn [mapRunes]. unfold DecodeRuneInString.
  rewrite (proj2 (Z.ltb_lt _ _) Hc). cbn [drop_bytes].
  assert (encodeRune (unicodeToLower (byteValue c)) = String (lower_byte c) "") as ->;
    [|done].
  clear n s. destruct c as [[] [] [] [] [] [] [] []];
    first [reflexivity | exfalso; vm_compute in Hc; discriminate Hc].
Qed.

(** The bytes a rune takes after its first are continuation bytes. *)
Lemma DecodeRuneInString_cont s i :
  (1 ≤ i < (DecodeRuneInString s).2)%nat →
  ∃ c, String.get i s = Some c ∧ 128 ≤ byteValue c.
Proof.
  unfold DecodeRuneInString, isCont.
  destruct s as [|c0 [|c1 [|c2 [|c3 s]]]];
    repeat case_match; cbn [snd]; intros Hi; try lia;
    repeat match goal with
           | H : _ && _ = true |- _ => apply andb_true_iff in H as [? ?]
           | H : (_ <=? _) = true |- _ => apply Z.leb_le in H
           end;
    (destruct i as [|[|[|[|i]]]]; [lia| | | |lia]); try lia;
    cbn [String.get]; eexists; (split; [reflexivity|]); subst; lia.
Qed.

Lemma drop_bytes_append_le n s1 s2 :
  (n ≤ String.length s1)%nat → drop_bytes n (s1 +:+ s2) = drop_bytes n s1 +:+ s2.
Proof.
  revert s1. induction n as [|n IH]; intros s1 Hn; [by destruct s1|].
  destruct s1 as [|c s1]; [simpl in Hn; lia|].
  change (String c s1 +:+ s2) with (String c (s1 +:+ s2)). cbn [drop_bytes].
  apply IH. simpl in Hn. lia.
Qed.

(** Whatever bytes come before it, an ASCII byte starts a rune: the
    lower case of a text ends with the lower case of what follows the
    byte before it. *)
Lemma mapRunes_before mapping before c rest :
  byteValue c < 128 →
  ∃ X, mapRunes mapping (String.length (before +:+ String c rest))
                (before +:+ String c rest)
       = X +:+ mapRunes mapping (String.length (String c rest)) (String c rest).
Proof.
  intros Hc. remember (String.length before) as L eqn:HL. revert before HL.
  induction (lt_wf L) as [L _ IH]. intros before HL.
  destruct before as [|b bs]; [by exists ""|].
  change (String b bs +:+ String c rest) with (String b (bs +:+ String c rest)).
  cbn [String.length mapRunes].
  destruct (DecodeRuneInString (String b (bs +:+ String c rest))) as [r w] eqn:Hd.
  pose proof (DecodeRuneInString_width (String b (bs +:+ String c rest))) as Hw.
  rewrite Hd in Hw. cbn [snd] in Hw. specialize (Hw ltac:(done)).
  assert (w ≤ String.length (String b bs))%nat as Hle.
  { destruct (decide (w ≤ String.length (String b bs))%nat) as [|Hgt]; [done|].
    exfalso.
    destruct (DecodeRuneInString_cont (String b (bs +:+ String c rest))
                (String.length (String b bs))) as (c' & Hget & Hc').
    { rewrite Hd. cbn [snd String.length] in *. lia. }
    change (String b (bs +:+ String c rest)) with (String b bs +:+ String c rest) in Hget.
    pose proof (String.append_correct2 (String b bs) (String c rest) 0) as Ha.
    change (0 + String.length (String b bs))%nat
      with (String.length (String b bs)) in Ha.
    rewrite <- Ha in Hget. cbn [String.get] in Hget. injection Hget as <-. lia. }
  change (String b (bs +:+ String c rest)) with (String b bs +:+ String c rest).
  rewrite (drop_bytes_append_le _ _ _ Hle).
  destruct (IH (String.length (drop_bytes w (String b bs)))) with
    (before := drop_bytes w (String b bs)) as (X & HX); [|done|].
  { rewrite HL, length_drop_bytes. cbn [String.length] in *. lia. }
  exists (encodeRune (mapping r) +:+ X). rewrite append_assoc. f_equal.
  etrans; [|exact HX]. apply mapRunes_fuel; [|done].
  rewrite !length_append, length_drop_bytes. cbn [String.length] in *. lia.
Qed.

Lemma ToLower_ascii_run v rest :
  isASCII v = true →
  mapRunes unicodeToLower (String.length (v +:+ rest)) (v +:+ rest)
    = asciiLower v +:+ mapRunes unicodeToLower (String.length rest) rest.
Proof.
  induction v as [|c v IH]; [done|]. cbn [isASCII].
  intros [Hc Hv]%andb_true_iff. apply Z.ltb_lt in Hc.
  change (String c v +:+ rest) with (String c (v +:+ rest)).
  cbn [String.length asciiLower]. rewrite (mapRunes_ascii _ _ _ Hc).
  by rewrite (IH Hv).
Qed.

(** The lower case of a text holds the lower case of each ASCII stretch
    of it. *)
Lemma Contains_ToLower_ascii before v after :
  isASCII v = true →
  Contains (ToLower (before +:+ v +:+ after)) (asciiLower v) = true.
Proof.
  intros Hv. apply Contains_spec. unfold ToLower.
  destruct v as [|c v]; [by eexists "", _|].
  cbn [isASCII] in Hv. apply andb_true_iff in Hv as [Hc Hv']. apply Z.ltb_lt in Hc.
  change (String c v +:+ after) with (String c (v +:+ after)).
  destruct (mapRunes_before unicodeToLower before c (v +:+ after) Hc) as (X & ->).
  change (String c (v +:+ after)) with (String c v +:+ after).
  rewrite (ToLower_ascii_run (String c v) after)
    by (cbn [isASCII]; by rewrite (proj2 (Z.ltb_lt _ _) Hc), Hv').
  by exists X, (mapRunes unicodeToLower (String.length after) after).
Qed.

Lemma lower_byte_ascii c : byteValue (lower_byte c) < 128 ↔ byteValue c < 128.
Proof. destruct c as [[] [] [] [] [] [] [] []]; vm_compute; split; congruence. Qed.

Lemma isASCII_asciiLower v p :
  asciiLower v = asciiLower p → isASCII p = true → isASCII v = true.
Proof.
  revert p. induction v as [|c v IH]; intros [|d p]; cbn [asciiLower isASCII]; try done.
  intros [= Hc Hv] [Hd Hp]%andb_true_iff. rewrite (IH _ Hv Hp), andb_true_r.
  apply Z.ltb_lt in Hd. apply Z.ltb_lt, lower_byte_ascii. rewrite Hc.
  by apply lower_byte_ascii.
Qed.

(** X1.  [isPermanentError] accepts a message that holds one of its six
    phrases, in any mix of upper and lower case ASCII letters, with any
    bytes before and after it. *)
Theorem isPermanentError_any_case (p variant before after : string) :
  p ∈ permanent →
  asciiLower variant = asciiLower p →
  isPermanentError (before +:+ variant +:+ after) = true.
Proof.
  intros Hp Hv. apply isPermanentError_iff. exists p. split; [done|].
  assert (isASCII p = true ∧ ToLower p = asciiLower p) as [Hascii Hlow].
  { unfold permanent in Hp. rewrite !elem_of_cons, elem_of_nil in Hp.
    repeat (destruct Hp as [->|Hp]; [by vm_compute|]). done. }
  rewrite Hlow, <- Hv. apply Contains_ToLower_ascii.
  by apply (isASCII_asciiLower _ p).
Qed.

Lemma isPermanentError_any_case_witness :
  isPermanentError "Forbidden: Bot Was Blocked by the user" = true.
Proof.
  assert ("bot was blocked" ∈ permanent) as Hp by (right; left).
  exact (isPermanentError_any_case "bot was blocked" "Bot Was Blocked" "Forbidden: "
           " by the user" Hp eq_refl).
Defined.

(** ** The store under marking and listing *)

Lemma markDelivered_missing msgID tgMsgID db :
  db !! msgID = None → markDelivered msgID tgMsgID db = db.
Proof.
  intros Hn. apply map_eq. intros id. destruct (decide (id = msgID)) as [->|Hne].
  - unfold markDelivered. by rewrite lookup_alter_eq, Hn.
  - by apply markDelivered_lookup_ne.
Qed.

(** X2.  [markDelivered] on an id the store does not hold changes
    nothing; on one it holds, the row is delivered from then on and is no
    longer pending for any session, and no other row changes: the pending
    rows afterwards are those from before, less the marked one. *)
Theorem markDelivered_settles_row (msgID : string) (tgMsgID : Z) (db : DB) :
  (db !! msgID = None → markDelivered msgID tgMsgID db = db) ∧
  (isDelivered msgID (markDelivered msgID tgMsgID db) = true ↔ is_Some (db !! msgID)) ∧
  (∀ id, id ≠ msgID → markDelivered msgID tgMsgID db !! id = db !! id) ∧
  (∀ sess m, m ∈ findPending sess (markDelivered msgID tgMsgID db) ↔
             m ∈ findPending sess db ∧ ID m ≠ msgID).
Proof.
  split; [apply markDelivered_missing|]. split; [|split].
  - unfold isDelivered. destruct (db !! msgID) as [r|] eqn:Hr.
    + rewrite (markDelivered_lookup _ _ _ _ Hr). simpl. split; [by eauto|done].
    + unfold markDelivered. rewrite lookup_alter_eq, Hr. simpl.
      split; [done|]. by intros [? ?].
  - intros id Hne. by apply markDelivered_lookup_ne.
  - intros sess m. rewrite !elem_of_findPending. split.
    + intros (r & Hr & Hm & Hs & Hd & Hc).
      destruct (decide (ID m = msgID)) as [Heq|Hne].
      * rewrite Heq in Hr. unfold markDelivered in Hr.
        rewrite lookup_alter_eq in Hr. destruct (db !! msgID); [|done].
        simpl in Hr. injection Hr as <-. simpl in Hd. lia.
      * rewrite markDelivered_lookup_ne in Hr by done. split; [|done].
        by exists r.
    + intros [(r & Hr & Hm & Hs & Hd & Hc) Hne]. exists r.
      by rewrite markDelivered_lookup_ne.
Qed.

Lemma elem_of_allSessions s db :
  s ∈ allSessions db ↔
  ∃ id r, db !! id = Some r ∧ session r = s ∧ tg_delivered r = 0.
Proof.
  unfold allSessions. rewrite elem_of_remove_dups, list_elem_of_fmap. split.
  - intros ([id r] & -> & Hin). apply list_elem_of_filter in Hin as [Hd Hin].
    apply elem_of_map_to_list in Hin. by exists id, r.
  - intros (id & r & Hr & <- & Hd). exists (id, r). split; [done|].
    apply list_elem_of_filter. split; [done|]. by apply elem_of_map_to_list.
Qed.

(** X3.  [allSessions] lists each session that has an undelivered row
    once, and no other; a session with a pending row is among them, so
    the delivery loop visits it. *)
Theorem allSessions_exact (db : DB) :
  NoDup (allSessions db) ∧
  (∀ s, s ∈ allSessions db ↔
        ∃ id r, db !! id = Some r ∧ session r = s ∧ tg_delivered r = 0) ∧
  (∀ s m, m ∈ findPending s db → s ∈ allSessions db).
Proof.
  split; [apply NoDup_remove_dups|]. split; [intros s; apply elem_of_allSessions|].
  intros s m Hm. apply elem_of_findPending in Hm as (r & Hr & _ & Hs & Hd & _).
  apply elem_of_allSessions. by exists (ID m), r.
Qed.

(** ** What every run keeps *)

(** A relation between stores that holds across each of the three
    updates of db.go holds across every run of the system. *)
Section StoreInduction.

Context (E : Env) (R : DB → DB → Prop).
Hypothesis R_refl : ∀ db, R db db.
Hypothesis R_trans : ∀ db1 db2 db3, R db1 db2 → R db2 db3 → R db1 db3.
Hypothesis R_appendMessage : ∀ rec now db, R db (appendMessage rec now db).
Hypothesis R_markDelivered : ∀ id tg db, R db (markDelivered id tg db).
Hypothesis R_incRetry : ∀ id db, R db (incRetry id db).

Lemma onSendFailure_related g t s msg errMsg w :
  R (messages w) (messages (onSendFailure E g t s msg errMsg w)).
Proof.
  rewrite messages_onSendFailure. destruct (_ || _); [|by apply R_incRetry].
  eapply R_trans; [apply R_incRetry | apply R_markDelivered].
Qed.

Lemma drain_related g t s pending w :
  R (messages w) (messages (drain E g t s pending w)).
Proof.
  revert w. induction pending as [|msg rest IH]; intros w; [apply R_refl|].
  cbn [drain]. destruct (renderHTML E s msg) as [html|].
  - unfold sendMessageHTMLGetID. destruct (upload E (reads w)) as [tg|errMsg].
    + eapply R_trans; [|apply IH]. rewrite messages_logEvent. apply R_markDelivered.
    + apply (onSendFailure_related g t s msg errMsg (tick (emit (TgSendHTML g t html) w))).
  - eapply R_trans; [|apply IH]. apply R_markDelivered.
Qed.

Lemma deliverSession_related cfg s w :
  R (messages w) (messages (deliverSession E cfg s w)).
Proof.
  unfold deliverSession. destruct (Sessions cfg !! s) as [[info|]|]; try apply R_refl.
  destruct (_ || _); [apply R_refl | apply drain_related].
Qed.

Lemma deliveryCycle_related w :
  R (messages w) (messages (deliveryCycle E w)).
Proof.
  unfold deliveryCycle. generalize (config w) as cfg.
  generalize (allSessions (messages w)) as l. intros l cfg. revert w.
  induction l as [|s l IH]; intros w; [apply R_refl|]. cbn [foldl].
  eapply R_trans; [apply deliverSession_related | apply IH].
Qed.

Lemma step_related w op : R (messages w) (messages (step E w op)).
Proof.
  destruct op as [rec| |cfg]; cbn [step].
  - destruct (messages_appendMessageW E rec w) as (now & ->). apply R_appendMessage.
  - apply deliveryCycle_related.
  - apply R_refl.
Qed.

Lemma run_related ops w : R (messages w) (messages (run E ops w)).
Proof.
  revert w. induction ops as [|op ops IH]; intros w; [apply R_refl|].
  unfold run. cbn [foldl]. eapply R_trans; [apply step_related | apply IH].
Qed.

End StoreInduction.

Lemma settles_refl db : settles db db.
Proof. intros H. split; [done|]. intros id r Hr. by exists r. Qed.

Lemma settles_trans db1 db2 db3 : settles db1 db2 → settles db2 db3 → settles db1 db3.
Proof.
  intros H12 H23 H1. destruct (H12 H1) as [H2 K12]. destruct (H23 H2) as [H3 K23].
  split; [done|]. intros id r Hr. destruct (K12 _ _ Hr) as (r2 & Hr2 & Hd2).
  destruct (K23 _ _ Hr2) as (r3 & Hr3 & Hd3). exists r3. split; [done|]. tauto.
Qed.

Lemma settles_appendMessage rec now db : settles db (appendMessage rec now db).
Proof.
  intros Hn. split.
  - intros id r Hr. destruct (decide (id = ID rec)) as [->|Hne].
    + destruct (db !! ID rec) as [old|] eqn:Hold.
      * rewrite (appendMessage_conflict _ _ _ _ Hold) in Hr. injection Hr as <-.
        simpl. specialize (Hn _ _ Hold). lia.
      * rewrite (appendMessage_fresh _ _ _ Hold) in Hr. injection Hr as <-.
        simpl. by destruct (TgDelivered rec).
    + rewrite appendMessage_other in Hr by done. by eapply Hn.
  - intros id r Hr. destruct (decide (id = ID rec)) as [->|Hne].
    + rewrite (appendMessage_conflict _ _ _ _ Hr). eexists. split; [done|].
      simpl. specialize (Hn _ _ Hr). destruct (TgDelivered rec); simpl; lia.
    + rewrite appendMessage_other by done. by exists r.
Qed.

Lemma settles_markDelivered msgID tg db : settles db (markDelivered msgID tg db).
Proof.
  intros Hn. split.
  - intros id r Hr. destruct (decide (id = msgID)) as [->|Hne].
    + unfold markDelivered in Hr. rewrite lookup_alter_eq in Hr.
      destruct (db !! msgID); [|done]. injection Hr as <-. simpl. lia.
    + rewrite markDelivered_lookup_ne in Hr by done. by eapply Hn.
  - intros id r Hr. destruct (decide (id = msgID)) as [->|Hne].
    + rewrite (markDelivered_lookup _ _ _ _ Hr). eexists. split; [done|]. simpl. lia.
    + rewrite markDelivered_lookup_ne by done. by exists r.
Qed.

Lemma settles_incRetry msgID db : settles db (incRetry msgID db).
Proof.
  intros Hn. split.
  - intros id r Hr. destruct (decide (id = msgID)) as [->|Hne].
    + unfold incRetry in Hr. rewrite lookup_alter_eq in Hr.
      destruct (db !! msgID) as [old|] eqn:Hold; [|done]. injection Hr as <-.
      simpl. by eapply Hn.
    + rewrite incRetry_lookup_ne in Hr by done. by eapply Hn.
  - intros id r Hr. destruct (decide (id = msgID)) as [->|Hne].
    + rewrite (incRetry_lookup _ _ _ Hr). eexists. split; [done|]. done.
    + rewrite incRetry_lookup_ne by done. by exists r.
Qed.

(** X4.  Over any run of appends, delivery cycles and configuration
    rewrites, from a store without negative delivered flags: the flags
    stay non-negative, and a row that is delivered stays in the store,
    stays delivered and is never again among the pending rows of any
    session, so the loop does not upload it a second time. *)
Theorem delivered_stays_delivered (E : Env) (ops : list Op) (w : World) :
  flagsNonneg (messages w) →
  flagsNonneg (messages (run E ops w)) ∧
  ∀ id, isDelivered id (messages w) = true →
        isDelivered id (messages (run E ops w)) = true ∧
        ∀ sess m, m ∈ findPending sess (messages (run E ops w)) → ID m ≠ id.
Proof.
  intros Hn.
  destruct (run_related E settles settles_refl settles_trans settles_appendMessage
              settles_markDelivered settles_incRetry ops w Hn) as [Hn' Hk].
  split; [exact Hn'|]. intros id Hd. unfold isDelivered in Hd.
  destruct (messages w !! id) as [r|] eqn:Hr; [|done].
  apply negb_true_iff, Z.eqb_neq in Hd.
  destruct (Hk _ _ Hr) as (r' & Hr' & Hd'). specialize (Hd' Hd). split.
  - unfold isDelivered. rewrite Hr'. by apply negb_true_iff, Z.eqb_neq.
  - intros sess m Hm Heq. apply elem_of_findPending in Hm as (r2 & Hr2 & _ & _ & Hz & _).
    rewrite Heq, Hr' in Hr2. injection Hr2 as <-. done.
Qed.

Lemma delivered_stays_delivered_witness :
  isDelivered "test:1" testStore = true ∧
  isDelivered "test:1"
    (messages (run sampleEnv [OpCycle; OpAppend msgA; OpCycle]
                 testWorld)) = true.
Proof.
  assert (flagsNonneg (messages testWorld)) as Hn.
  { change (flagsNonneg testStore). unfold testStore.
    repeat (apply settles_appendMessage). intros id r Hr.
    by rewrite lookup_empty in Hr. }
  pose proof (delivered_stays_delivered sampleEnv [OpCycle; OpAppend msgA; OpCycle]
                _ Hn) as [_ Hd].
  split; [reflexivity|]. exact (proj1 (Hd "test:1" eq_refl)).
Defined.

(** ** The order and the reach of a delivery cycle *)

Section Cycle.

Context (E : Env).

Lemma filter_isUpload_onSendFailure g t s msg errMsg w :
  ∃ sent, effects (onSendFailure E g t s msg errMsg w) = effects w ++ sent ∧
          filter isUpload sent = [].
Proof.
  rewrite effects_onSendFailure. eexists. split; [done|].
  by repeat case_match.
Qed.

Lemma omap_cons {A B} (f : A → option B) x l :
  omap f (x :: l) = match f x with
                    | Some y => y :: omap f l
                    | None => omap f l
                    end.
Proof. reflexivity. Qed.

Lemma drain_uploads g t s pending w :
  ∃ sent n,
    effects (drain E g t s pending w) = effects w ++ sent ∧
    filter isUpload sent = TgSendHTML g t <$> take n (omap (renderHTML E s) pending).
Proof.
  revert w. induction pending as [|msg rest IH]; intros w.
  - exists [], 0%nat. by rewrite app_nil_r.
  - rewrite omap_cons. cbn [drain]. destruct (renderHTML E s msg) as [html|].
    + unfold sendMessageHTMLGetID. destruct (upload E (reads w)) as [tg|errMsg].
      * destruct (IH (logEvent E s "send_ok" "listener" (ID msg)
                        ("tg_msg_id=" +:+ itoa tg)
                        (set_messages (markDelivered (ID msg) tg)
                           (tick (emit (TgSendHTML g t html) w)))))
          as (sent & n & -> & Hf).
        exists (TgSendHTML g t html :: sent), (S n).
        rewrite effects_logEvent. cbn [effects set_messages tick emit].
        rewrite <- app_assoc. split; [reflexivity|].
        rewrite filter_cons. cbn [isUpload]. rewrite decide_True by done.
        by rewrite Hf.
      * destruct (filter_isUpload_onSendFailure g t s msg errMsg
                    (tick (emit (TgSendHTML g t html) w))) as (sent & -> & Hf).
        exists (TgSendHTML g t html :: sent), 1%nat.
        cbn [effects tick emit]. rewrite <- app_assoc. split; [reflexivity|].
        rewrite filter_cons. cbn [isUpload]. rewrite decide_True by done.
        rewrite Hf. cbn [take fmap list_fmap]. by rewrite take_0.
    + destruct (IH (set_messages (markDelivered (ID msg) 0) w)) as (sent & n & -> & Hf).
      by exists sent, n.
Qed.

(** X5.  Whatever the uploads answer, one pass of the loop over the
    pending rows of a session uploads the bodies of a prefix of them, in
    their order, to the thread of the session: a row is never uploaded
    before an earlier one, and none is uploaded twice in a pass.  Rows
    are pending in the order of their creation. *)
Theorem uploads_keep_creation_order (cfg : Config) (info : SessionInfo)
    (sessName : string) (w : World) :
  Sessions cfg !! sessName = Some (Some info) →
  TopicID info ≠ 0 → GroupID cfg ≠ 0 →
  let pending := findPending sessName (messages w) in
  Sorted byCreatedAt pending ∧
  ∃ sent n,
    effects (deliverSession E cfg sessName w) = effects w ++ sent ∧
    filter isUpload sent =
      TgSendHTML (GroupID cfg) (TopicID info)
        <$> take n (omap (renderHTML E sessName) pending).
Proof.
  intros Hs Ht Hg pending. split.
  - apply Sorted_merge_sort. intros a b. unfold byCreatedAt. lia.
  - unfold deliverSession. rewrite Hs.
    rewrite (proj2 (Z.eqb_neq _ _) Ht), (proj2 (Z.eqb_neq _ _) Hg). cbn [orb].
    apply drain_uploads.
Qed.

(** *** When every upload succeeds *)

Lemma isDelivered_markDelivered id id' tg db :
  isDelivered id db = true → isDelivered id (markDelivered id' tg db) = true.
Proof.
  unfold isDelivered. intros H. destruct (db !! id) as [r|] eqn:Hr; [|done].
  destruct (decide (id' = id)) as [->|Hne].
  - by rewrite (markDelivered_lookup _ _ _ _ Hr).
  - by rewrite markDelivered_lookup_ne, Hr.
Qed.

Lemma isDelivered_markDelivered_eq id tg db :
  is_Some (db !! id) → isDelivered id (markDelivered id tg db) = true.
Proof.
  intros [r Hr]. unfold isDelivered. by rewrite (markDelivered_lookup _ _ _ _ Hr).
Qed.

Lemma is_Some_markDelivered id id' tg db :
  is_Some (db !! id) → is_Some (markDelivered id' tg db !! id).
Proof.
  intros [r Hr]. destruct (decide (id' = id)) as [->|Hne].
  - rewrite (markDelivered_lookup _ _ _ _ Hr). eauto.
  - rewrite markDelivered_lookup_ne, Hr by done. eauto.
Qed.

Lemma drain_all_succeed g t s pending w :
  (∀ n, ∃ tg, upload E n = SendOk tg) →
  (∀ m, m ∈ pending → is_Some (messages w !! ID m)) →
  (∀ m, m ∈ pending → isDelivered (ID m) (messages (drain E g t s pending w)) = true) ∧
  (∀ id, isDelivered id (messages w) = true →
         isDelivered id (messages (drain E g t s pending w)) = true) ∧
  (∀ id, id ∉ ID <$> pending →
         messages (drain E g t s pending w) !! id = messages w !! id) ∧
  ∃ sent, effects (drain E g t s pending w) = effects w ++ sent ∧
          filter isUpload sent = TgSendHTML g t <$> omap (renderHTML E s) pending.
Proof.
  intros Hok. revert w. induction pending as [|msg rest IH]; intros w Hin.
  - split; [by intros m Hm; apply elem_of_nil in Hm|]. split; [done|]. split; [done|].
    exists []. by rewrite app_nil_r.
  - assert (∃ w1 tg sent1,
              drain E g t s (msg :: rest) w = drain E g t s rest w1 ∧
              messages w1 = markDelivered (ID msg) tg (messages w) ∧
              effects w1 = effects w ++ sent1 ∧
              filter isUpload sent1 =
                TgSendHTML g t <$> omap (renderHTML E s) [msg])
      as (w1 & tg & sent1 & Hd & Hm1 & He1 & Hf1).
    { rewrite omap_cons. cbn [drain]. destruct (renderHTML E s msg) as [html|].
      - unfold sendMessageHTMLGetID. destruct (Hok (reads w)) as (tg & ->).
        eexists _, tg, [TgSendHTML g t html]. split; [reflexivity|].
        rewrite messages_logEvent, effects_logEvent. done.
      - eexists _, 0, []. split; [reflexivity|]. by rewrite app_nil_r. }
    rewrite Hd.
    assert (∀ m, m ∈ rest → is_Some (messages w1 !! ID m)) as Hin1.
    { intros m Hm. rewrite Hm1. apply is_Some_markDelivered, Hin. by right. }
    destruct (IH w1 Hin1) as (Hall & Hkeep & Hframe & sent & He & Hf).
    split; [|split; [|split]].
    + intros m Hm. apply elem_of_cons in Hm as [->|Hm]; [|by apply Hall].
      apply Hkeep. rewrite Hm1. apply isDelivered_markDelivered_eq, Hin. by left.
    + intros id Hd0. apply Hkeep. rewrite Hm1. by apply isDelivered_markDelivered.
    + intros id Hid. rewrite fmap_cons, not_elem_of_cons in Hid.
      destruct Hid as [Hne Hid]. rewrite (Hframe _ Hid), Hm1.
      by apply markDelivered_lookup_ne.
    + exists (sent1 ++ sent). rewrite He, He1, <- app_assoc. split; [done|].
      rewrite filter_app, Hf1, Hf.
      change (msg :: rest) with ([msg] ++ rest).
      by rewrite omap_app, fmap_app.
Qed.

(** One pass over a linked session when every upload succeeds. *)
Lemma deliverSession_all_succeed (cfg : Config) (info : SessionInfo)
    (sessName : string) (w : World) :
  (∀ n, ∃ tg, upload E n = SendOk tg) →
  Sessions cfg !! sessName = Some (Some info) →
  TopicID info ≠ 0 → GroupID cfg ≠ 0 →
  let pending := findPending sessName (messages w) in
  let w' := deliverSession E cfg sessName w in
  findPending sessName (messages w') = [] ∧
  (∀ m, m ∈ pending → isDelivered (ID m) (messages w') = true) ∧
  (∀ id, id ∉ ID <$> pending → messages w' !! id = messages w !! id) ∧
  ∃ sent, effects w' = effects w ++ sent ∧
          filter isUpload sent =
            TgSendHTML (GroupID cfg) (TopicID info)
              <$> omap (renderHTML E sessName) pending.
Proof.
  intros Hok Hs Ht Hg pending w'.
  assert (w' = drain E (GroupID cfg) (TopicID info) sessName pending w) as ->.
  { subst w'. unfold deliverSession. rewrite Hs.
    by rewrite (proj2 (Z.eqb_neq _ _) Ht), (proj2 (Z.eqb_neq _ _) Hg). }
  assert (∀ m, m ∈ pending → is_Some (messages w !! ID m)) as Hin.
  { intros m Hm. apply elem_of_findPending in Hm as (r & Hr & _). eauto. }
  destruct (drain_all_succeed (GroupID cfg) (TopicID info) sessName pending w Hok Hin)
    as (Hall & Hkeep & Hframe & Hsent).
  split; [|done].
  destruct (findPending sessName (messages (drain E _ _ sessName pending w)))
    as [|m l] eqn:Hp; [done|]. exfalso.
  assert (m ∈ findPending sessName
                (messages (drain E (GroupID cfg) (TopicID info) sessName pending w)))
    as Hm by (rewrite Hp; by left).
  apply elem_of_findPending in Hm as (r & Hr & Hscan & Hsess & Hz & Hc).
  destruct (decide (ID m ∈ ID <$> pending)) as [Hi|Hi].
  - apply list_elem_of_fmap in Hi as (m0 & Hid & Hm0).
    specialize (Hall _ Hm0). unfold isDelivered in Hall.
    rewrite <- Hid, Hr in Hall. apply negb_true_iff, Z.eqb_neq in Hall. done.
  - rewrite (Hframe _ Hi) in Hr. apply Hi.
    apply list_elem_of_fmap. exists (scanRow (ID m, r)). split; [done|].
    apply elem_of_findPending. exists r. by repeat split.
Qed.

(** X6.  When the uploads succeed, one pass over a linked session
    uploads the body of every pending row that has one, in the order of
    creation, marks every pending row delivered and leaves the session
    with nothing pending; rows that were not pending for the session are
    as they were. *)
Theorem pass_delivers_all_pending (cfg : Config) (info : SessionInfo)
    (sessName : string) (w : World) :
  (∀ n, ∃ tg, upload E n = SendOk tg) →
  Sessions cfg !! sessName = Some (Some info) →
  TopicID info ≠ 0 → GroupID cfg ≠ 0 →
  let pending := findPending sessName (messages w) in
  let w' := deliverSession E cfg sessName w in
  findPending sessName (messages w') = [] ∧
  (∀ m, m ∈ pending → isDelivered (ID m) (messages w') = true) ∧
  (∀ id, id ∉ ID <$> pending → messages w' !! id = messages w !! id) ∧
  ∃ sent, effects w' = effects w ++ sent ∧
          filter isUpload sent =
            TgSendHTML (GroupID cfg) (TopicID info)
              <$> omap (renderHTML E sessName) pending.
Proof. apply deliverSession_all_succeed. Qed.

(** *** Rows of other sessions *)

Lemma ofSession_findPending s db : ofSession s (findPending s db) db.
Proof.
  intros msg r Hm Hr. apply elem_of_findPending in Hm as (r0 & Hr0 & _ & Hs & _).
  congruence.
Qed.

Lemma ofSession_markDelivered s msg rest id tg db :
  ofSession s (msg :: rest) db → ofSession s rest (markDelivered id tg db).
Proof.
  intros H m r' Hm Hr'. unfold markDelivered in Hr'.
  apply lookup_alter_Some in Hr' as [(_ & r & Hr & ->)|[_ Hr]].
  - simpl. eapply H; [by right | done].
  - eapply H; [by right | done].
Qed.

(** What one pass over the rows of session [s] does to a row: rows of
    other sessions are untouched; a row of [s] keeps its session and has
    its retry count raised by one at most. *)
Lemma drain_row g t s pending w id r :
  ofSession s pending (messages w) →
  messages w !! id = Some r →
  ∃ r', messages (drain E g t s pending w) !! id = Some r' ∧
        session r' = session r ∧
        retry_count r ≤ retry_count r' ≤ retry_count r + 1 ∧
        (session r ≠ s → r' = r).
Proof.
  revert w r. induction pending as [|msg rest IH]; intros w r Hof Hr.
  - exists r. cbn [drain]. repeat split; [done|lia|lia].
  - assert (∀ tg, ∃ r1, markDelivered (ID msg) tg (messages w) !! id = Some r1 ∧
                        session r1 = session r ∧ retry_count r1 = retry_count r ∧
                        (session r ≠ s → r1 = r)) as Hmark.
    { intros tg. destruct (decide (ID msg = id)) as [Heq|Hne].
      - rewrite Heq, (markDelivered_lookup _ _ _ _ Hr). eexists. split; [done|].
        repeat split. intros Hn. exfalso. apply Hn. eapply Hof; [by left|].
        by rewrite Heq.
      - rewrite markDelivered_lookup_ne by done. by exists r. }
    assert (∀ w1 tg, messages w1 = markDelivered (ID msg) tg (messages w) →
              ∃ r', messages (drain E g t s rest w1) !! id = Some r' ∧
                    session r' = session r ∧
                    retry_count r ≤ retry_count r' ≤ retry_count r + 1 ∧
                    (session r ≠ s → r' = r)) as Hpass.
    { intros w1 tg Hm1. destruct (Hmark tg) as (r1 & Hr1 & Hs1 & Hc1 & Hf1).
      rewrite <- Hm1 in Hr1.
      assert (ofSession s rest (messages w1)) as Hof1
        by (rewrite Hm1; by eapply ofSession_markDelivered).
      destruct (IH w1 r1 Hof1 Hr1) as (r' & Hr' & Hs' & Hc' & Hf').
      exists r'. split; [done|]. split; [congruence|]. split; [lia|].
      intros Hn. rewrite Hf' by congruence. by apply Hf1. }
    cbn [drain]. destruct (renderHTML E s msg) as [html|].
    + unfold sendMessageHTMLGetID. destruct (upload E (reads w)) as [tg|errMsg].
      * apply (Hpass _ tg). by rewrite messages_logEvent.
      * rewrite messages_onSendFailure. cbn [messages tick emit].
        assert (∃ r1, incRetry (ID msg) (messages w) !! id = Some r1 ∧
                      session r1 = session r ∧
                      retry_count r ≤ retry_count r1 ≤ retry_count r + 1 ∧
                      (session r ≠ s → r1 = r)) as (r1 & Hr1 & Hs1 & Hc1 & Hf1).
        { destruct (decide (ID msg = id)) as [Heq|Hne].
          - rewrite Heq, (incRetry_lookup _ _ _ Hr). eexists. split; [done|].
            simpl. repeat split; [lia|lia|]. intros Hn. exfalso. apply Hn.
            eapply Hof; [by left|]. by rewrite Heq.
          - rewrite incRetry_lookup_ne by done. exists r. repeat split; [done|lia|lia]. }
        destruct (_ || _); [|by exists r1].
        destruct (decide (ID msg = id)) as [Heq|Hne].
        -- rewrite Heq in *. rewrite (markDelivered_lookup _ _ _ _ Hr1).
           eexists. split; [done|]. simpl. repeat split; [done|lia|lia|].
           intros Hn. exfalso. apply Hn. eapply Hof; [by left|]. by rewrite Heq.
        -- rewrite markDelivered_lookup_ne by done. by exists r1.
    + by apply (Hpass _ 0).
Qed.

Lemma deliverSession_row cfg s w id r :
  messages w !! id = Some r →
  ∃ r', messages (deliverSession E cfg s w) !! id = Some r' ∧
        session r' = session r ∧
        retry_count r ≤ retry_count r' ≤ retry_count r + 1 ∧
        (session r ≠ s → r' = r).
Proof.
  intros Hr. unfold deliverSession.
  destruct (Sessions cfg !! s) as [[info|]|];
    try (exists r; repeat split; [done|lia|lia]).
  destruct (_ || _); [exists r; repeat split; [done|lia|lia]|].
  apply drain_row; [apply ofSession_findPending | done].
Qed.

Lemma foldl_deliverSession_row cfg l w id r :
  NoDup l →
  messages w !! id = Some r →
  ∃ r', messages (foldl (fun w' s => deliverSession E cfg s w') w l) !! id = Some r' ∧
        session r' = session r ∧
        retry_count r ≤ retry_count r' ≤ retry_count r + 1 ∧
        (session r ∉ l → r' = r).
Proof.
  intros Hnd. revert w r. induction Hnd as [|s l Hs Hnd IH]; intros w r Hr.
  - exists r. repeat split; [done|lia|lia].
  - cbn [foldl]. destruct (deliverSession_row cfg s w id r Hr) as (r1 & Hr1 & Hs1 & Hc1 & Hf1).
    destruct (IH _ _ Hr1) as (r' & Hr' & Hs' & Hc' & Hf').
    exists r'. split; [done|]. split; [congruence|].
    destruct (decide (session r = s)) as [Heq|Hne].
    + rewrite Hf' by (rewrite Hs1, Heq; done). split; [lia|].
      intros Hn. exfalso. apply Hn. rewrite Heq. by left.
    + rewrite (Hf1 Hne) in *. split; [lia|]. intros Hn. apply Hf'.
      rewrite not_elem_of_cons in Hn. tauto.
Qed.

(** X7.  One wake-up of the delivery loop raises the retry count of any
    row by one at most, and only ever upwards: a row is given up for
    repeated transient failures only after failing in five separate
    wake-ups. *)
Theorem cycle_retries_once (w : World) (id : string) (r : Row) :
  messages w !! id = Some r →
  ∃ r', messages (deliveryCycle E w) !! id = Some r' ∧
        retry_count r ≤ retry_count r' ≤ retry_count r + 1.
Proof.
  intros Hr. unfold deliveryCycle.
  destruct (foldl_deliverSession_row (config w) (allSessions (messages w)) w id r
              (NoDup_remove_dups _) Hr) as (r' & Hr' & _ & Hc & _).
  by exists r'.
Qed.

Lemma deliverSession_unlinked cfg s w :
  GroupID cfg = 0 ∨
  (∀ info, Sessions cfg !! s = Some (Some info) → TopicID info = 0) →
  deliverSession E cfg s w = w.
Proof.
  intros H. unfold deliverSession. destruct (Sessions cfg !! s) as [[info|]|]; try done.
  destruct H as [->|H]; [by rewrite orb_true_r|]. by rewrite (H info eq_refl).
Qed.

(** X8.  A wake-up of the loop leaves alone every row of a session that
    is not linked to a thread (no entry in the configuration, a null
    entry, or thread 0), and every row when no group is configured: such
    rows are neither uploaded, nor retried, nor dropped. *)
Theorem cycle_skips_unlinked (w : World) (id : string) (r : Row) :
  messages w !! id = Some r →
  GroupID (config w) = 0 ∨
  (∀ info, Sessions (config w) !! session r = Some (Some info) → TopicID info = 0) →
  messages (deliveryCycle E w) !! id = Some r.
Proof.
  intros Hr Hun. unfold deliveryCycle.
  remember (config w) as cfg eqn:Hcfg. clear Hcfg.
  generalize (allSessions (messages w)) as l. intros l.
  revert w Hr. induction l as [|s l IH]; intros w Hr; [done|]. cbn [foldl].
  apply IH. destruct (decide (session r = s)) as [<-|Hne].
  - by rewrite deliverSession_unlinked.
  - destruct (deliverSession_row cfg s w id r Hr) as (r' & Hr' & _ & _ & Hf).
    by rewrite <- (Hf Hne).
Qed.

End Cycle.

Lemma uploads_keep_creation_order_witness :
  ∃ sent n,
    effects (deliverSession flakyEnv sampleConfig "proj" twoPending) =
      effects twoPending ++ sent ∧
    filter isUpload sent =
      TgSendHTML (-100) 5
        <$> take n (omap (renderHTML flakyEnv "proj")
                         (findPending "proj" (messages twoPending))).
Proof.
  assert (TopicID (mkSessionInfo 5 "/home/u/proj" "@1" "") ≠ 0) as Ht by (simpl; lia).
  assert (GroupID sampleConfig ≠ 0) as Hg by (simpl; lia).
  exact (proj2 (uploads_keep_creation_order flakyEnv sampleConfig _ "proj" twoPending
                  eq_refl Ht Hg)).
Defined.

Lemma pass_delivers_all_pending_witness :
  findPending "proj" (messages twoPending) = [msgA; msgB] ∧
  findPending "proj" (messages (deliverSession steadyEnv sampleConfig "proj" twoPending)) = [].
Proof.
  assert (∀ n, ∃ tg, upload steadyEnv n = SendOk tg) as Hok by (intros n; eexists; reflexivity).
  assert (TopicID (mkSessionInfo 5 "/home/u/proj" "@1" "") ≠ 0) as Ht by (simpl; lia).
  assert (GroupID sampleConfig ≠ 0) as Hg by (simpl; lia).
  split; [reflexivity|].
  exact (proj1 (pass_delivers_all_pending steadyEnv sampleConfig _ "proj" twoPending
                  Hok eq_refl Ht Hg)).
Defined.

Lemma cycle_retries_once_witness :
  ∃ r', messages (deliveryCycle flakyEnv twoPending) !! "a" = Some r' ∧
        0 ≤ retry_count r' ≤ 0 + 1.
Proof.
  exact (cycle_retries_once flakyEnv twoPending "a"
           (mkRow "proj" "assistant_text" "first" "claude" 0 0 0 10) eq_refl).
Defined.

Lemma cycle_skips_unlinked_witness :
  messages (deliveryCycle flakyEnv testWorld) !! "test:2" =
    Some (mkRow "test-session" "assistant_text" "response" "claude" 0 0 0 1002).
Proof.
  assert (∀ info, Sessions (config testWorld) !! "test-session" = Some (Some info) →
                  TopicID info = 0) as Hun
    by (intros info H; vm_compute in H; discriminate H).
  exact (cycle_skips_unlinked flakyEnv testWorld "test:2"
           (mkRow "test-session" "assistant_text" "response" "claude" 0 0 0 1002)
           eq_refl (or_intror Hun)).
Defined.

(** ** Escaping and the tool display *)

Lemma hasByte_append c a b : hasByte c (a +:+ b) = hasByte c a || hasByte c b.
Proof.
  induction a as [|x a IH]; [done|].
  change (String x a +:+ b) with (String x (a +:+ b)). cbn [hasByte].
  by rewrite IH, orb_assoc.
Qed.

Lemma ReplaceAll_append a b old new :
  ReplaceAll (a +:+ b) old new = ReplaceAll a old new +:+ ReplaceAll b old new.
Proof.
  induction a as [|x a IH]; [done|].
  change (String x a +:+ b) with (String x (a +:+ b)). cbn [ReplaceAll].
  rewrite IH. destruct (Ascii.eqb x old); [|done]. by rewrite append_assoc.
Qed.

Lemma ReplaceAll_absent s old new : hasByte old s = false → ReplaceAll s old new = s.
Proof.
  induction s as [|c s IH]; [done|]. cbn [hasByte ReplaceAll].
  intros [Hc Hs]%orb_false_iff. by rewrite Hc, IH.
Qed.

(** The byte replaced is gone when the replacement does not hold it. *)
Lemma hasByte_ReplaceAll_old s old new :
  hasByte old new = false → hasByte old (ReplaceAll s old new) = false.
Proof.
  intros Hn. induction s as [|c s IH]; [done|]. cbn [ReplaceAll].
  destruct (Ascii.eqb c old) eqn:Hc.
  - by rewrite hasByte_append, Hn, IH.
  - cbn [hasByte]. by rewrite Hc, IH.
Qed.

(** A byte the replacement does not hold is not brought in. *)
Lemma hasByte_ReplaceAll_other c s old new :
  hasByte c new = false → hasByte c s = false →
  hasByte c (ReplaceAll s old new) = false.
Proof.
  intros Hn. induction s as [|x s IH]; [done|]. cbn [hasByte ReplaceAll].
  intros [Hx Hs]%orb_false_iff. destruct (Ascii.eqb x old).
  - by rewrite hasByte_append, Hn, IH.
  - cbn [hasByte]. by rewrite Hx, IH.
Qed.

Lemma htmlEscape_append a b : htmlEscape (a +:+ b) = htmlEscape a +:+ htmlEscape b.
Proof. unfold htmlEscape. by rewrite !ReplaceAll_append. Qed.

Lemma htmlEscape_escapeBytes s : htmlEscape s = escapeBytes s.
Proof.
  induction s as [|c s IH]; [done|].
  change (String c s) with (String c "" +:+ s) at 1.
  rewrite htmlEscape_append, IH. cbn [escapeBytes]. f_equal.
  unfold htmlEscape, escapeByte. cbn [ReplaceAll].
  destruct (Ascii.eqb c byte_amp) eqn:Ha; [reflexivity|]. cbn [ReplaceAll].
  destruct (Ascii.eqb c byte_lt) eqn:Hl; [reflexivity|]. cbn [ReplaceAll].
  destruct (Ascii.eqb c byte_gt) eqn:Hg; reflexivity.
Qed.

Lemma hasByte_htmlEscape s :
  hasByte byte_lt (htmlEscape s) = false ∧ hasByte byte_gt (htmlEscape s) = false.
Proof.
  unfold htmlEscape. split.
  - apply hasByte_ReplaceAll_other; [done|]. by apply hasByte_ReplaceAll_old.
  - by apply hasByte_ReplaceAll_old.
Qed.

Lemma escapeBytes_inj s1 s2 : escapeBytes s1 = escapeBytes s2 → s1 = s2.
Proof.
  revert s2. induction s1 as [|c1 s1 IH]; intros [|c2 s2]; cbn [escapeBytes]; [done| | |].
  - unfold escapeByte. by repeat case_match.
  - unfold escapeByte. by repeat case_match.
  - unfold escapeByte.
    destruct (Ascii.eqb_spec c1 byte_amp) as [->|Ha1];
      [|destruct (Ascii.eqb_spec c1 byte_lt) as [->|Hl1];
        [|destruct (Ascii.eqb_spec c1 byte_gt) as [->|Hg1]]];
    (destruct (Ascii.eqb_spec c2 byte_amp) as [->|Ha2];
      [|destruct (Ascii.eqb_spec c2 byte_lt) as [->|Hl2];
        [|destruct (Ascii.eqb_spec c2 byte_gt) as [->|Hg2]]]);
    intros H; try discriminate H;
    try (injection H; intros; subst; done);
    try (injection H as H; by rewrite (IH _ H)).
    injection H as -> H. by rewrite (IH _ H).
Qed.

(** X9.  [htmlEscape] escapes each byte on its own (the ampersands of
    the entities it writes are not escaped again), leaves no raw angle
    bracket, loses nothing (two texts with the same escape are the same
    text) and returns a text without the three special bytes as it is.  *)
Theorem htmlEscape_safe_and_faithful (s : string) :
  htmlEscape s = escapeBytes s ∧
  hasByte byte_lt (htmlEscape s) = false ∧
  hasByte byte_gt (htmlEscape s) = false ∧
  (∀ s', htmlEscape s' = htmlEscape s → s' = s) ∧
  (hasByte byte_amp s = false → hasByte byte_lt s = false →
   hasByte byte_gt s = false → htmlEscape s = s).
Proof.
  split; [apply htmlEscape_escapeBytes|].
  split; [apply hasByte_htmlEscape|]. split; [apply hasByte_htmlEscape|]. split.
  - intros s'. rewrite !htmlEscape_escapeBytes. apply escapeBytes_inj.
  - intros Ha Hl Hg. unfold htmlEscape.
    rewrite (ReplaceAll_absent s byte_amp) by done.
    rewrite (ReplaceAll_absent s byte_lt) by done.
    by rewrite (ReplaceAll_absent s byte_gt).
Qed.

Lemma hasByte_toolLine c t :
  c = byte_lt ∨ c = byte_gt → hasByte c (toolLine t) = false.
Proof.
  intros Hc.
  assert (∀ s, hasByte c (htmlEscape s) = false) as He
    by (intros s; destruct Hc as [->| ->]; apply hasByte_htmlEscape).
  unfold toolLine. repeat case_match; rewrite !hasByte_append, !He;
    destruct Hc as [->| ->]; reflexivity.
Qed.

Lemma hasByte_Join c l sep :
  hasByte c sep = false → Forall (fun s => hasByte c s = false) l →
  hasByte c (Join l sep) = false.
Proof.
  intros Hsep. induction 1 as [|x l Hx Hl IH]; [done|].
  destruct l as [|y l]; [done|].
  change (Join (x :: y :: l) sep) with (x +:+ sep +:+ Join (y :: l) sep).
  by rewrite !hasByte_append, Hx, Hsep, IH.
Qed.

(** X10.  The tool display is the tool lines between the two blockquote
    tags, and the lines hold no angle bracket, whatever the names and the
    inputs of the tools: the only markup of the message is the pair of
    tags the code writes. *)
Theorem formatToolMessage_markup (state : ToolState) :
  formatToolMessage state = "<blockquote>" +:+ formatToolLines state +:+ "</blockquote>" ∧
  hasByte byte_lt (formatToolLines state) = false ∧
  hasByte byte_gt (formatToolLines state) = false.
Proof.
  split; [reflexivity|]. unfold formatToolLines.
  split; (apply hasByte_Join; [done|]); apply Forall_fmap, Forall_forall;
    intros t _; apply hasByte_toolLine; tauto.
Qed.

(** ** Window names *)

Lemma length_ReplaceAll_byte s old c :
  String.length (ReplaceAll s old (String c "")) = String.length s.
Proof.
  induction s as [|x s IH]; [done|]. cbn [ReplaceAll].
  destruct (Ascii.eqb x old); cbn [String.length]; by rewrite <- IH.
Qed.

Lemma hasByte_ReplaceAll_byte c s old new :
  c ≠ old → c ≠ new →
  hasByte c (ReplaceAll s old (String new "")) = hasByte c s.
Proof.
  intros Ho Hn. induction s as [|x s IH]; [done|]. cbn [ReplaceAll hasByte].
  destruct (Ascii.eqb_spec x old) as [->|Hx].
  - change (String new "" +:+ ?t) with (String new t). cbn [hasByte]. rewrite IH.
    destruct (Ascii.eqb_spec new c), (Ascii.eqb_spec old c); congruence.
  - cbn [hasByte]. by rewrite IH.
Qed.

(** X11.  [tmuxSafeName] returns a name of the same length without
    dots, changes nothing but dots (every other byte but the underscore
    occurs in the result exactly when it occurs in the name), returns a
    name without dots as it is, and applying it twice is applying it
    once. *)
Theorem tmuxSafeName_no_dot (name : string) :
  hasByte byte_dot (tmuxSafeName name) = false ∧
  String.length (tmuxSafeName name) = String.length name ∧
  tmuxSafeName (tmuxSafeName name) = tmuxSafeName name ∧
  (hasByte byte_dot name = false → tmuxSafeName name = name) ∧
  (∀ c, c ≠ byte_dot → c ≠ Ascii.ascii_of_nat 95 →
        hasByte c (tmuxSafeName name) = hasByte c name).
Proof.
  assert (hasByte byte_dot (tmuxSafeName name) = false) as Hd
    by (by apply hasByte_ReplaceAll_old).
  split; [exact Hd|]. split; [apply length_ReplaceAll_byte|].
  split; [by apply ReplaceAll_absent|]. split; [apply ReplaceAll_absent|].
  intros c H1 H2. by apply hasByte_ReplaceAll_byte.
Qed.

Lemma LastIndex_absent s sep : hasByte sep s = false → LastIndex s sep = None.
Proof.
  induction s as [|c s IH]; [done|]. cbn [hasByte LastIndex].
  intros [Hc Hs]%orb_false_iff. by rewrite (IH Hs), Hc.
Qed.

Lemma LastIndex_last pre sep rest :
  hasByte sep rest = false →
  LastIndex (pre +:+ String sep rest) sep = Some (String.length pre).
Proof.
  intros Hr. induction pre as [|c pre IH].
  - change ("" +:+ String sep rest) with (String sep rest). cbn [LastIndex].
    by rewrite (LastIndex_absent _ _ Hr), Ascii.eqb_refl.
  - change (String c pre +:+ String sep rest) with (String c (pre +:+ String sep rest)).
    cbn [LastIndex]. by rewrite IH.
Qed.

Lemma LastIndex_Some s sep i :
  LastIndex s sep = Some i →
  ∃ pre rest, s = pre +:+ String sep rest ∧ String.length pre = i ∧
              hasByte sep rest = false.
Proof.
  revert i. induction s as [|c s IH]; intros i; [done|]. cbn [LastIndex].
  destruct (LastIndex s sep) as [j|] eqn:Hj.
  - intros [= <-]. destruct (IH j eq_refl) as (pre & rest & -> & <- & Hr).
    by exists (String c pre), rest.
  - destruct (Ascii.eqb_spec c sep) as [->|]; [|done]. intros [= <-].
    exists "", s. repeat split. clear IH.
    induction s as [|x s IHs]; [done|]. cbn [LastIndex hasByte] in *.
    destruct (LastIndex s sep); [done|]. destruct (Ascii.eqb x sep); [done|].
    by apply IHs.
Qed.

Lemma drop_bytes_append pre s : drop_bytes (String.length pre) (pre +:+ s) = s.
Proof. induction pre as [|c pre IH]; [by destruct s | exact IH]. Qed.

Lemma take_bytes_append pre s : take_bytes (String.length pre) (pre +:+ s) = pre.
Proof.
  induction pre as [|c pre IH]; [by destruct s|].
  change (String c pre +:+ s) with (String c (pre +:+ s)).
  cbn [String.length take_bytes]. by rewrite IH.
Qed.

Lemma windowNameFromTarget_last pre name :
  hasByte byte_colon name = false →
  windowNameFromTarget (pre +:+ ":" +:+ name) = name.
Proof.
  intros Hn. unfold windowNameFromTarget.
  change (":" +:+ name) with (String byte_colon name).
  rewrite (LastIndex_last _ _ _ Hn).
  replace (String.length pre + 1)%nat with (String.length (pre +:+ ":"))
    by (rewrite length_append; done).
  change (String byte_colon name) with (":" +:+ name).
  rewrite <- append_assoc. apply drop_bytes_append.
Qed.

(** X12.  [windowNameFromTarget] returns what follows the last colon of
    the target: never a text with a colon; the window name of a target
    [session:window] when the window name has no colon, whatever the
    session part; a target without colon as it is.  On the target the
    lookup by name falls back to, it gives the window name back. *)
Theorem windowNameFromTarget_name (target : string) :
  hasByte byte_colon (windowNameFromTarget target) = false ∧
  (hasByte byte_colon target = false → windowNameFromTarget target = target) ∧
  (∀ sess, hasByte byte_colon target = false →
           windowNameFromTarget (sess +:+ ":" +:+ target) = target) ∧
  (hasByte byte_colon target = false →
   windowNameFromTarget (tmuxTargetByName None target) = target).
Proof.
  split; [|split; [|split]].
  - unfold windowNameFromTarget. destruct (LastIndex target byte_colon) as [i|] eqn:Hi.
    + destruct (LastIndex_Some _ _ _ Hi) as (pre & rest & -> & <- & Hr).
      replace (String.length pre + 1)%nat with (String.length (pre +:+ ":"))
        by (rewrite length_append; done).
      change (String byte_colon rest) with (":" +:+ rest).
      by rewrite <- append_assoc, drop_bytes_append.
    + clear -Hi. induction target as [|c s IH]; [done|]. cbn [LastIndex hasByte] in *.
      destruct (LastIndex s byte_colon); [done|].
      destruct (Ascii.eqb c byte_colon); [done|]. by apply IH.
  - intros Hn. unfold windowNameFromTarget. by rewrite LastIndex_absent.
  - intros sess Hn. by apply windowNameFromTarget_last.
  - intros Hn. cbn [tmuxTargetByName]. by apply windowNameFromTarget_last.
Qed.

(** ** Commands that name the bot *)

Lemma Index_absent s sep : hasByte sep s = false → Index s sep = None.
Proof.
  induction s as [|c s IH]; [done|]. cbn [hasByte Index].
  intros [Hc Hs]%orb_false_iff. by rewrite Hc, (IH Hs).
Qed.

Lemma Index_first pre sep rest :
  hasByte sep pre = false →
  Index (pre +:+ String sep rest) sep = Some (String.length pre).
Proof.
  induction pre as [|c pre IH].
  - intros _. change ("" +:+ String sep rest) with (String sep rest). cbn [Index].
    by rewrite Ascii.eqb_refl.
  - change (String c pre +:+ String sep rest) with (String c (pre +:+ String sep rest)).
    cbn [Index hasByte]. intros [Hc Hs]%orb_false_iff. by rewrite Hc, (IH Hs).
Qed.

Lemma HasPrefix_slash x : HasPrefix ("/" +:+ x) "/" = true.
Proof.
  unfold HasPrefix. change ("/" +:+ x) with (String (Ascii.ascii_of_nat 47) x).
  change "/" with (String (Ascii.ascii_of_nat 47) ""). cbn [String.prefix].
  destruct (Ascii.ascii_dec _ _); [|done]. by destruct x.
Qed.

(** X13.  A command that names the bot loses the mention: [/cmd@bot args]
    becomes [/cmd args] and [/cmd@bot] becomes [/cmd], each trimmed; an at
    sign after the first space is part of the arguments and stays; a text
    that does not start with a slash is not touched. *)
Theorem stripBotMention_cases (cmd bot args : string) :
  hasByte byte_at cmd = false →
  hasByte byte_space cmd = false →
  hasByte byte_space bot = false →
  stripBotMention ("/" +:+ cmd +:+ "@" +:+ bot +:+ " " +:+ args)
    = TrimSpace ("/" +:+ cmd +:+ " " +:+ args) ∧
  stripBotMention ("/" +:+ cmd +:+ "@" +:+ bot) = TrimSpace ("/" +:+ cmd) ∧
  stripBotMention ("/" +:+ cmd +:+ " " +:+ args)
    = TrimSpace ("/" +:+ cmd +:+ " " +:+ args) ∧
  (∀ text, HasPrefix text "/" = false → stripBotMention text = text).
Proof.
  intros Hat Hsp Hbot.
  assert (hasByte byte_at ("/" +:+ cmd) = false) as Hat1 by exact Hat.
  assert (hasByte byte_space ("/" +:+ cmd) = false) as Hsp1 by exact Hsp.
  assert (hasByte byte_space ("/" +:+ cmd +:+ "@" +:+ bot) = false) as Hsp2.
  { change ("/" +:+ cmd +:+ "@" +:+ bot) with (("/" +:+ cmd) +:+ ("@" +:+ bot)).
    rewrite hasByte_append, Hsp1. exact Hbot. }
  split; [|split; [|split]].
  - unfold stripBotMention.
    rewrite HasPrefix_slash.
    change ("/" +:+ cmd +:+ "@" +:+ bot +:+ " " +:+ args)
      with (("/" +:+ cmd) +:+ String byte_at (bot +:+ " " +:+ args)).
    rewrite (Index_first _ _ _ Hat1).
    replace (("/" +:+ cmd) +:+ String byte_at (bot +:+ " " +:+ args))
      with (("/" +:+ cmd +:+ "@" +:+ bot) +:+ String byte_space args).
    2:{ change ("/" +:+ cmd +:+ "@" +:+ bot) with (("/" +:+ cmd) +:+ ("@" +:+ bot)).
        by rewrite append_assoc. }
    rewrite (Index_first _ _ _ Hsp2).
    rewrite (append_assoc ("/" +:+ cmd +:+ "@" +:+ bot) (String byte_space args) " ").
    change (String byte_space args +:+ " ") with (String byte_space (args +:+ " ")).
    rewrite (Index_first _ _ _ Hsp2).
    assert ((String.length ("/" +:+ cmd) <? String.length ("/" +:+ cmd +:+ "@" +:+ bot))%nat
            = true) as ->.
    { apply Nat.ltb_lt.
      change ("/" +:+ cmd +:+ "@" +:+ bot) with (("/" +:+ cmd) +:+ ("@" +:+ bot)).
      rewrite !length_append. change ("@" +:+ bot) with (String byte_at bot).
      cbn [String.length]. lia. }
    cbn [default from_option]. unfold id. rewrite drop_bytes_append.
    change ("/" +:+ cmd +:+ "@" +:+ bot) with (("/" +:+ cmd) +:+ ("@" +:+ bot)).
    rewrite (append_assoc ("/" +:+ cmd)). rewrite take_bytes_append. done.
  - unfold stripBotMention.
    rewrite HasPrefix_slash.
    change ("/" +:+ cmd +:+ "@" +:+ bot) with (("/" +:+ cmd) +:+ String byte_at bot) at 1.
    rewrite (Index_first _ _ _ Hat1). rewrite (Index_absent _ _ Hsp2).
    change (("/" +:+ cmd +:+ "@" +:+ bot) +:+ " ")
      with (("/" +:+ cmd +:+ "@" +:+ bot) +:+ String byte_space "").
    rewrite (Index_first _ _ _ Hsp2). cbn [default from_option]. unfold id.
    rewrite <- (append_empty_r ("/" +:+ cmd +:+ "@" +:+ bot)) at 3.
    rewrite drop_bytes_append.
    change ("/" +:+ cmd +:+ "@" +:+ bot) with (("/" +:+ cmd) +:+ ("@" +:+ bot)).
    rewrite take_bytes_append. by rewrite append_empty_r.
  - unfold stripBotMention.
    rewrite HasPrefix_slash.
    destruct (Index ("/" +:+ cmd +:+ " " +:+ args) byte_at) as [idx|] eqn:Hidx; [|done].
    change ("/" +:+ cmd +:+ " " +:+ args)
      with (("/" +:+ cmd) +:+ String byte_space args) in *.
    rewrite (Index_first _ _ _ Hsp1).
    assert ((idx <? String.length ("/" +:+ cmd))%nat = false) as ->; [|done].
    apply Nat.ltb_ge. clear -Hidx Hat1. revert idx Hidx.
    generalize ("/" +:+ cmd) as pre, Hat1. intros pre. induction pre as [|c pre IH].
    + intros _ idx _. simpl. lia.
    + cbn [hasByte]. intros [Hc Hp]%orb_false_iff idx.
      change (String c pre +:+ ?x) with (String c (pre +:+ x)). cbn [Index].
      rewrite Hc. destruct (Index (pre +:+ _) byte_at) as [j|] eqn:Hj; [|done].
      intros [= <-]. specialize (IH Hp j eq_refl). simpl. lia.
  - intros text Hp. unfold stripBotMention. by rewrite Hp.
Qed.

Lemma stripBotMention_cases_witness :
  stripBotMention "/ping@ccc_bot" = "/ping" ∧
  stripBotMention "/new@ccc_bot my.project" = "/new my.project".
Proof.
  pose proof (stripBotMention_cases "ping" "ccc_bot" "" eq_refl eq_refl eq_refl)
    as (_ & H1 & _).
  pose proof (stripBotMention_cases "new" "ccc_bot" "my.project" eq_refl eq_refl eq_refl)
    as (H2 & _).
  split; [exact H1 | exact H2].
Defined.

(** ** Finding the session *)

Lemma firstSession_found P l name topicID :
  firstSession P l = (name, topicID) → name ≠ "" →
  ∃ info, (name, Some info) ∈ l ∧ P name info = true ∧ topicID = TopicID info.
Proof.
  induction l as [|[n [info|]] l IH]; cbn [firstSession].
  - by intros [= <- _] ?.
  - destruct (P n info) eqn:HP.
    + intros [= <- <-] _. exists info. split; [by left|done].
    + intros H Hne. destruct (IH H Hne) as (info' & Hin & ?). exists info'.
      split; [by right|done].
  - intros H Hne. destruct (IH H Hne) as (info' & Hin & ?). exists info'.
    split; [by right|done].
Qed.

Lemma firstSession_hit P l n info :
  (n, Some info) ∈ l → P n info = true →
  ∃ name info', (name, Some info') ∈ l ∧ P name info' = true ∧
                firstSession P l = (name, TopicID info').
Proof.
  intros Hin HP. induction l as [|[n0 [info0|]] l IH]; cbn [firstSession].
  - by apply elem_of_nil in Hin.
  - destruct (P n0 info0) eqn:HP0.
    + exists n0, info0. split; [by left|done].
    + apply elem_of_cons in Hin as [[= -> ->]|Hin]; [congruence|].
      destruct (IH Hin) as (name & info' & Hin' & ? & ?). exists name, info'.
      split; [by right|done].
  - apply elem_of_cons in Hin as [[=]|Hin].
    destruct (IH Hin) as (name & info' & Hin' & ? & ?). exists name, info'.
    split; [by right|done].
Qed.

Lemma firstSession_miss P l :
  (∀ n info, (n, Some info) ∈ l → P n info = false) → firstSession P l = ("", 0).
Proof.
  induction l as [|[n [info|]] l IH]; intros H; cbn [firstSession]; [done| |].
  - rewrite (H n info) by by left. apply IH. intros n' info' Hin. apply H. by right.
  - apply IH. intros n' info' Hin. apply H. by right.
Qed.

(** X14.  [getSessionByTopic] returns the name of a session linked to
    the thread whenever there is one (null entries are passed over),
    whichever order the configuration is walked in, and the empty name
    when there is none. *)
Theorem getSessionByTopic_finds (cfg : Config) (topicID : Z) :
  ((∃ n info, Sessions cfg !! n = Some (Some info) ∧ TopicID info = topicID) ↔
   ∃ info, Sessions cfg !! getSessionByTopic cfg topicID = Some (Some info) ∧
           TopicID info = topicID) ∧
  ((∀ n info, Sessions cfg !! n = Some (Some info) → TopicID info ≠ topicID) →
   getSessionByTopic cfg topicID = "").
Proof.
  unfold getSessionByTopic. split; [split|].
  - intros (n & info & Hn & Ht).
    destruct (firstSession_hit (fun _ info => TopicID info =? topicID)
                (map_to_list (Sessions cfg)) n info) as (name & info' & Hin & HP & ->).
    { by apply elem_of_map_to_list. }
    { by apply Z.eqb_eq. }
    exists info'. split; [by apply elem_of_map_to_list | by apply Z.eqb_eq].
  - intros (info & H & Ht). eauto.
  - intros Hnone. rewrite firstSession_miss; [done|].
    intros n info Hin. apply Z.eqb_neq, (Hnone n). by apply elem_of_map_to_list.
Qed.

(** What [findSession] returns. *)
Lemma findSession_resolves (cfg : Config) (cwd claudeSessionID : string) :
  let r := findSession cfg cwd claudeSessionID in
  (r.1 = "" → r.2 = 0) ∧
  (r.1 ≠ "" →
   ∃ info, Sessions cfg !! r.1 = Some (Some info) ∧ r.2 = TopicID info ∧
           ((claudeSessionID ≠ "" ∧ ClaudeSessionID info = claudeSessionID) ∨
            cwd = Path info ∨ HasPrefix cwd (Path info +:+ "/") = true ∨
            HasSuffix cwd ("/" +:+ r.1) = true)) ∧
  (claudeSessionID ≠ "" →
   (∃ n info, n ≠ "" ∧ Sessions cfg !! n = Some (Some info) ∧
              ClaudeSessionID info = claudeSessionID) →
   ∃ info, r.1 ≠ "" ∧ Sessions cfg !! r.1 = Some (Some info) ∧ r.2 = TopicID info ∧
           ClaudeSessionID info = claudeSessionID).
Proof.
  intros r. subst r. unfold findSession.
  set (byID := findSessionByClaudeID cfg claudeSessionID).
  set (byCwd := findSessionByCwd cfg cwd).
  assert (∀ P, (firstSession P (map_to_list (Sessions cfg))).1 = "" →
               (∀ n info, P n info = true → n ≠ "") →
               (firstSession P (map_to_list (Sessions cfg))).2 = 0) as Hzero.
  { intros P He HP. destruct (firstSession P _) as [n t] eqn:Hf. simpl in *. subst n.
    clear -Hf HP. induction (map_to_list (Sessions cfg)) as [|[n [info|]] l IH];
      cbn [firstSession] in Hf.
    - by injection Hf.
    - destruct (P n info) eqn:HPn; [|by apply IH].
      injection Hf as Hn _. by destruct (HP _ _ HPn).
    - by apply IH. }
  assert (byID.1 ≠ "" →
          ∃ info, Sessions cfg !! byID.1 = Some (Some info) ∧ byID.2 = TopicID info ∧
                  claudeSessionID ≠ "" ∧ ClaudeSessionID info = claudeSessionID) as HbyID.
  { subst byID. unfold findSessionByClaudeID.
    destruct (String.eqb_spec claudeSessionID "") as [->|Hsid]; [done|].
    destruct (firstSession _ _) as [n t] eqn:Hf. simpl. intros Hn.
    destruct (firstSession_found _ _ _ _ Hf Hn) as (info & Hin & HP & ->).
    apply elem_of_map_to_list in Hin. apply andb_true_iff in HP as [_ HP].
    apply String.eqb_eq in HP. by exists info. }
  split; [|split].
  - destruct (String.eqb_spec byID.1 "") as [He|Hne]; simpl; [|done].
    intros Hc. subst byCwd. unfold findSessionByCwd in *. apply Hzero; [done|].
    intros n info HP. apply andb_true_iff in HP as [HP _].
    apply negb_true_iff, String.eqb_neq in HP. done.
  - destruct (String.eqb_spec byID.1 "") as [He|Hne]; simpl.
    + subst byCwd. unfold findSessionByCwd.
      destruct (firstSession _ _) as [n t] eqn:Hf. simpl. intros Hn.
      destruct (firstSession_found _ _ _ _ Hf Hn) as (info & Hin & HP & ->).
      apply elem_of_map_to_list in Hin. apply andb_true_iff in HP as [_ HP].
      exists info. split; [done|]. split; [done|]. right.
      apply orb_true_iff in HP as [HP|HP]; [|tauto].
      apply orb_true_iff in HP as [HP|HP]; [|tauto].
      apply String.eqb_eq in HP. tauto.
    + intros _. destruct (HbyID Hne) as (info & ? & ? & ? & ?). exists info. tauto.
  - intros Hsid (n & info & Hn & Hl & Hc).
    assert (byID.1 ≠ "") as Hne.
    { subst byID. unfold findSessionByClaudeID.
      rewrite (proj2 (String.eqb_neq _ _) Hsid).
      destruct (firstSession_hit
                  (fun name info => negb (String.eqb name "")
                                    && String.eqb (ClaudeSessionID info) claudeSessionID)
                  (map_to_list (Sessions cfg)) n info)
        as (name & info' & Hin & HP & ->).
      { by apply elem_of_map_to_list. }
      { rewrite (proj2 (String.eqb_neq _ _) Hn). by apply String.eqb_eq. }
      simpl. apply andb_true_iff in HP as [HP _].
      by apply negb_true_iff, String.eqb_neq in HP. }
    rewrite (proj2 (String.eqb_neq _ _) Hne). simpl.
    destruct (HbyID Hne) as (info' & ? & ? & ? & ?). by exists info'.
Qed.

(** X15.  [findSession] returns a configured session or the empty name
    with thread 0.  A session it returns is one that carries the Claude
    session id of the hook, or one that the working directory matches
    (its path, a directory below it, or a directory named as the
    session); when some named session carries the id, the answer is a
    session carrying the id, whatever the working directory. *)
Theorem findSession_sound (cfg : Config) (cwd claudeSessionID : string) :
  let r := findSession cfg cwd claudeSessionID in
  (r.1 = "" → r.2 = 0) ∧
  (r.1 ≠ "" →
   ∃ info, Sessions cfg !! r.1 = Some (Some info) ∧ r.2 = TopicID info ∧
           ((claudeSessionID ≠ "" ∧ ClaudeSessionID info = claudeSessionID) ∨
            cwd = Path info ∨ HasPrefix cwd (Path info +:+ "/") = true ∨
            HasSuffix cwd ("/" +:+ r.1) = true)) ∧
  (claudeSessionID ≠ "" →
   (∃ n info, n ≠ "" ∧ Sessions cfg !! n = Some (Some info) ∧
              ClaudeSessionID info = claudeSessionID) →
   ∃ info, r.1 ≠ "" ∧ Sessions cfg !! r.1 = Some (Some info) ∧ r.2 = TopicID info ∧
           ClaudeSessionID info = claudeSessionID).
Proof. apply findSession_resolves. Qed.

Lemma persistClaudeSessionID_config sessName sid info w :
  sessName ≠ "" → sid ≠ "" →
  Sessions (config w) !! sessName = Some (Some info) →
  Sessions (config (persistClaudeSessionID sessName sid w)) =
    <[sessName := Some (mkSessionInfo (TopicID info) (Path info) (WindowID info) sid)]>
      (Sessions (config w)).
Proof.
  intros Hn Hs Hl. unfold persistClaudeSessionID.
  rewrite (proj2 (String.eqb_neq _ _) Hs), (proj2 (String.eqb_neq _ _) Hn), Hl.
  cbn [orb]. destruct (String.eqb_spec (ClaudeSessionID info) sid) as [Heq|Hne]; simpl.
  - symmetry. apply insert_id. rewrite Hl. f_equal. f_equal. destruct info. simpl in *.
    by rewrite Heq.
  - done.
Qed.

(** X16.  Once a hook has stored the Claude session id for the session
    it resolved, a lookup by that id finds a session carrying it,
    whatever the working directory; it finds that very session when no
    other session carries the id.  Thread, path and window of the
    session and all other sessions are as before, and storing the same
    id again changes nothing. *)
Theorem persisted_id_is_found (sessName sid cwd : string) (info : SessionInfo)
    (w : World) :
  sessName ≠ "" → sid ≠ "" →
  Sessions (config w) !! sessName = Some (Some info) →
  let w' := persistClaudeSessionID sessName sid w in
  let r := findSession (config w') cwd sid in
  Sessions (config w') !! sessName =
    Some (Some (mkSessionInfo (TopicID info) (Path info) (WindowID info) sid)) ∧
  (∀ n, n ≠ sessName → Sessions (config w') !! n = Sessions (config w) !! n) ∧
  (∃ info', r.1 ≠ "" ∧ Sessions (config w') !! r.1 = Some (Some info') ∧
            r.2 = TopicID info' ∧ ClaudeSessionID info' = sid) ∧
  ((∀ n info', n ≠ sessName → Sessions (config w) !! n = Some (Some info') →
               ClaudeSessionID info' ≠ sid) →
   r = (sessName, TopicID info)) ∧
  persistClaudeSessionID sessName sid w' = w'.
Proof.
  intros Hn Hs Hl w' r.
  pose proof (persistClaudeSessionID_config sessName sid info w Hn Hs Hl) as Hc.
  fold w' in Hc.
  assert (Sessions (config w') !! sessName =
            Some (Some (mkSessionInfo (TopicID info) (Path info) (WindowID info) sid)))
    as Hl' by (by rewrite Hc, lookup_insert_eq).
  assert (∃ info', r.1 ≠ "" ∧ Sessions (config w') !! r.1 = Some (Some info') ∧
                   r.2 = TopicID info' ∧ ClaudeSessionID info' = sid) as Hfound.
  { apply (findSession_resolves (config w') cwd sid); [done|]. eauto. }
  split; [exact Hl'|]. split; [|split; [exact Hfound|split]].
  - intros n Hne. by rewrite Hc, lookup_insert_ne.
  - intros Huniq. destruct Hfound as (info' & Hne & Hr & Ht & Hcs).
    destruct (decide (r.1 = sessName)) as [Heq|Hdiff].
    + rewrite Heq, Hl' in Hr. injection Hr as <-. simpl in Ht.
      destruct r as [n t]. simpl in *. by subst.
    + exfalso. rewrite Hc, lookup_insert_ne in Hr by done.
      by apply (Huniq r.1 info').
  - unfold persistClaudeSessionID at 1.
    rewrite (proj2 (String.eqb_neq _ _) Hs), (proj2 (String.eqb_neq _ _) Hn), Hl'.
    cbn [orb ClaudeSessionID]. by rewrite String.eqb_refl.
Qed.

Lemma persisted_id_is_found_witness :
  findSession (config (persistClaudeSessionID "proj" "sid-1" emptyWorld))
              "/somewhere/else" "sid-1" = ("proj", 5).
Proof.
  assert ("proj" ≠ "") as Hn by discriminate.
  assert ("sid-1" ≠ "") as Hs by discriminate.
  pose proof (persisted_id_is_found "proj" "sid-1" "/somewhere/else"
                (mkSessionInfo 5 "/home/u/proj" "@1" "") emptyWorld Hn Hs eq_refl)
    as (_ & _ & _ & Hu & _).
  apply Hu. intros n info' Hne Hl. unfold emptyWorld, sampleConfig in Hl.
  cbn [config Sessions] in Hl.
  rewrite lookup_insert_ne in Hl by done. by rewrite lookup_empty in Hl.
Defined.

(** ** The target of a window *)



(** ** The ledger of replies *)

Section LedgerFacts.

Context (contentHash : string → string) (E : Env) (sessName : string).

Abbreviation queue := (queueBlock contentHash E sessName).

Lemma isDelivered_false_row id db r :
  db !! id = Some r → isDelivered id db = false → tg_delivered r = 0.
Proof.
  unfold isDelivered. intros ->. intros H. by apply negb_false_iff, Z.eqb_eq in H.
Qed.

(** A turn of the loop adds the row of the block when the store has no
    row under its id, and changes nothing otherwise. *)
Lemma messages_queueBlock st b :
  messages (queue st b).1 =
    match messages st.1 !! blockID contentHash b with
    | Some _ => messages st.1
    | None =>
        <[blockID contentHash b :=
            mkRow sessName "assistant_text" (blockText b) "claude" 0 0 0
                  (UnixMilli (clock E (reads st.1)))]> (messages st.1)
    end.
Proof.
  unfold queueBlock. destruct (isDelivered _ _) eqn:Hd.
  - unfold isDelivered in Hd. by destruct (messages st.1 !! _).
  - cbn [fst]. unfold appendMessageW. cbn [Timestamp replyRecord Z.eqb].
    cbn [messages tick set_messages clearToolState reads]. unfold appendMessage.
    cbn [ID Session MType Text Origin TgDelivered TgMsgID Timestamp replyRecord].
    destruct (messages st.1 !! blockID contentHash b) as [old|] eqn:Hold; [|done].
    apply insert_id. rewrite Hold. f_equal.
    pose proof (isDelivered_false_row _ _ _ Hold Hd) as Hz.
    destruct old as [s0 t0 x0 o0 d0 m0 c0 a0]. cbn in Hz. subst d0. reflexivity.
Qed.

Lemma isDelivered_queueBlock st b id :
  isDelivered id (messages (queue st b).1) = isDelivered id (messages st.1).
Proof.
  rewrite messages_queueBlock. destruct (messages st.1 !! blockID contentHash b) eqn:Hb;
    [done|]. unfold isDelivered.
  destruct (decide (id = blockID contentHash b)) as [->|Hne].
  - by rewrite lookup_insert_eq, Hb.
  - by rewrite lookup_insert_ne.
Qed.

Lemma queueBlock_sent st b :
  (queue st b).2 =
    st.2 + (if isDelivered (blockID contentHash b) (messages st.1) then 0 else 1).
Proof. unfold queueBlock. destruct (isDelivered _ _); simpl; lia. Qed.

Lemma foldl_queueBlock blocks st :
  let st' := foldl queue st blocks in
  (∀ id r, messages st.1 !! id = Some r → messages st'.1 !! id = Some r) ∧
  (∀ b, b ∈ blocks →
        ∃ r, messages st'.1 !! blockID contentHash b = Some r ∧
             (messages st.1 !! blockID contentHash b = None →
              ∃ b', b' ∈ blocks ∧ blockID contentHash b' = blockID contentHash b ∧
                    session r = sessName ∧ type r = "assistant_text" ∧
                    text r = blockText b' ∧ origin r = "claude" ∧
                    tg_delivered r = 0 ∧ retry_count r = 0)) ∧
  (∀ id, is_Some (messages st'.1 !! id) →
         is_Some (messages st.1 !! id) ∨
         ∃ b, b ∈ blocks ∧ id = blockID contentHash b) ∧
  (∀ id, isDelivered id (messages st'.1) = isDelivered id (messages st.1)) ∧
  st'.2 = st.2 + Z.of_nat (length (filter
            (fun b => isDelivered (blockID contentHash b) (messages st.1) = false)
            blocks)).
Proof.
  revert st. induction blocks as [|b blocks IH]; intros st st'.
  - subst st'. cbn [foldl]. split; [done|]. split; [by intros b Hb; apply elem_of_nil in Hb|].
    split; [by left|]. split; [done|]. simpl. lia.
  - subst st'. cbn [foldl].
    destruct (IH (queue st b)) as (Hkeep & Hrows & Hnew & Hdel & Hsent).
    pose proof (messages_queueBlock st b) as Hq.
    assert (∀ id r, messages st.1 !! id = Some r →
                    messages (queue st b).1 !! id = Some r) as Hkeep1.
    { intros id r Hr. rewrite Hq.
      destruct (messages st.1 !! blockID contentHash b) eqn:Hb; [done|].
      rewrite lookup_insert_ne; [done|]. intros <-. congruence. }
    split; [|split; [|split; [|split]]].
    + intros id r Hr. by apply Hkeep, Hkeep1.
    + intros b0 Hb0. apply elem_of_cons in Hb0 as [->|Hb0].
      * destruct (messages st.1 !! blockID contentHash b) as [old|] eqn:Hb.
        -- exists old. split; [by apply Hkeep, Hkeep1|done].
        -- eexists. split.
           { apply Hkeep. rewrite Hq, ?Hb. apply lookup_insert_eq. }
           intros _. exists b. split; [by left|]. done.
      * destruct (Hrows b0 Hb0) as (r & Hr & Hfresh). exists r. split; [done|].
        intros Hnone. rewrite Hq in Hfresh.
        destruct (messages st.1 !! blockID contentHash b) eqn:Hb.
        -- destruct (Hfresh Hnone) as (b' & Hin & ?). exists b'. split; [by right|done].
        -- destruct (decide (blockID contentHash b0 = blockID contentHash b)) as [Heq|Hne].
           ++ exists b. split; [by left|]. split; [done|].
              assert (messages (foldl queue (queue st b) blocks).1
                        !! blockID contentHash b0 =
                      Some (mkRow sessName "assistant_text" (blockText b) "claude" 0 0 0
                                  (UnixMilli (clock E (reads st.1))))) as Hr0.
              { apply Hkeep. rewrite Hq, ?Hb, Heq. apply lookup_insert_eq. }
              rewrite Hr in Hr0. injection Hr0 as ->. done.
           ++ rewrite lookup_insert_ne in Hfresh by done.
              destruct (Hfresh Hnone) as (b' & Hin & ?). exists b'.
              split; [by right|done].
    + intros id Hid. destruct (Hnew id Hid) as [Hs|(b0 & Hb0 & ->)].
      * rewrite Hq in Hs. destruct (messages st.1 !! blockID contentHash b) eqn:Hb;
          [by left|].
        destruct (decide (id = blockID contentHash b)) as [->|Hne].
        -- right. exists b. split; [by left|done].
        -- rewrite lookup_insert_ne in Hs by done. by left.
      * right. exists b0. split; [by right|done].
    + intros id. by rewrite Hdel, isDelivered_queueBlock.
    + rewrite Hsent, queueBlock_sent, filter_cons.
      rewrite (list_filter_iff _
                 (fun b0 => isDelivered (blockID contentHash b0) (messages st.1) = false)).
      2:{ intros b0. by rewrite isDelivered_queueBlock. }
      destruct (isDelivered (blockID contentHash b) (messages st.1)).
      * rewrite decide_False by done. lia.
      * rewrite decide_True by done. cbn [length]. lia.
Qed.

(** With a row under the id of every block, the loop changes nothing. *)
Lemma foldl_queueBlock_settled blocks st :
  (∀ b, b ∈ blocks → is_Some (messages st.1 !! blockID contentHash b)) →
  messages (foldl queue st blocks).1 = messages st.1.
Proof.
  revert st. induction blocks as [|b blocks IH]; intros st Hall; [done|].
  cbn [foldl]. assert (messages (queue st b).1 = messages st.1) as Hq.
  { rewrite messages_queueBlock. destruct (Hall b) as [r ->]; [by left|done]. }
  rewrite IH, Hq; [done|]. intros b0 Hb0. rewrite Hq. apply Hall. by right.
Qed.

End LedgerFacts.

(** X18.  [deliverUnsentTexts], as the stop hook runs it, only ever adds
    rows.  Every row of the store stays exactly as it is; each reply
    block of the transcript tail has a row under its ledger id
    afterwards, and a row that is new is an undelivered reply of the
    session holding the text of a block with that id; no other row
    appears.  The count returned is the number of blocks whose row was
    not delivered.  Running it again on the same transcript, as the three
    retries do, leaves the store as it is: a reply is queued once. *)
Theorem replies_are_queued_once (contentHash : string → string) (E : Env)
    (unmarshal : string → option transcriptLine)
    (sessName transcriptPath : string) (file : option string) (w : World) :
  let blocks := extractRecentAssistantTexts unmarshal transcriptPath file 80 in
  let res := deliverUnsentTexts contentHash E unmarshal sessName transcriptPath file w in
  (∀ id r, messages w !! id = Some r → messages res.1 !! id = Some r) ∧
  (∀ b, b ∈ blocks →
        ∃ r, messages res.1 !! blockID contentHash b = Some r ∧
             (messages w !! blockID contentHash b = None →
              ∃ b', b' ∈ blocks ∧ blockID contentHash b' = blockID contentHash b ∧
                    session r = sessName ∧ type r = "assistant_text" ∧
                    text r = blockText b' ∧ origin r = "claude" ∧
                    tg_delivered r = 0 ∧ retry_count r = 0)) ∧
  (∀ id, is_Some (messages res.1 !! id) →
         is_Some (messages w !! id) ∨ ∃ b, b ∈ blocks ∧ id = blockID contentHash b) ∧
  res.2 = Z.of_nat (length (filter
            (fun b => isDelivered (blockID contentHash b) (messages w) = false) blocks)) ∧
  messages (deliverUnsentTexts contentHash E unmarshal sessName transcriptPath file
              res.1).1 = messages res.1 ∧
  messages (handleStopRetry contentHash E unmarshal sessName transcriptPath
              file file file res.1) = messages res.1.
Proof.
  intros blocks res. subst res. unfold deliverUnsentTexts. fold blocks.
  destruct (foldl_queueBlock contentHash E sessName blocks (w, 0))
    as (Hkeep & Hrows & Hnew & _ & Hsent).
  cbn [fst snd] in *.
  set (w1 := (foldl (queueBlock contentHash E sessName) (w, 0) blocks).1) in *.
  assert (∀ w2 n, messages w2 = messages w1 →
            messages (foldl (queueBlock contentHash E sessName) (w2, n) blocks).1
              = messages w1) as Hagain.
  { intros w2 n H2. rewrite foldl_queueBlock_settled; [done|].
    intros b Hb. cbn [fst]. rewrite H2. destruct (Hrows b Hb) as (r & Hr & _). eauto. }
  split; [exact Hkeep|]. split; [exact Hrows|]. split; [exact Hnew|].
  split; [rewrite Hsent; lia|]. split; [by apply Hagain|].
  unfold handleStopRetry. cbn [foldl].
  assert (∀ w2, messages w2 = messages w1 →
            messages (stopRetryTurn contentHash E unmarshal sessName transcriptPath
                        w2 file) = messages w1) as Hturn.
  { intros w2 H2. unfold stopRetryTurn, deliverUnsentTexts. fold blocks.
    pose proof (Hagain (emit (Sleep (2 * Second)) w2) 0 H2) as Hm.
    destruct (foldl (queueBlock contentHash E sessName)
                (emit (Sleep (2 * Second)) w2, 0) blocks) as [w3 n].
    cbn [fst] in Hm. by destruct (0 <? n). }
  apply Hturn, Hturn, Hturn. reflexivity.
Qed.

(** ** From a producer to the thread *)

Section Reach.

Context (E : Env).
Hypothesis uploads_succeed : ∀ n, ∃ tg, upload E n = SendOk tg.

Lemma deliverSession_grows cfg s w :
  (∃ sent, effects (deliverSession E cfg s w) = effects w ++ sent) ∧
  (∀ id, isDelivered id (messages w) = true →
         isDelivered id (messages (deliverSession E cfg s w)) = true).
Proof.
  unfold deliverSession.
  destruct (Sessions cfg !! s) as [[info|]|];
    try (split; [exists []; by rewrite app_nil_r | done]).
  destruct (_ || _); [split; [exists []; by rewrite app_nil_r | done]|].
  assert (∀ m, m ∈ findPending s (messages w) → is_Some (messages w !! ID m)) as Hin.
  { intros m Hm. apply elem_of_findPending in Hm as (r & Hr & _). eauto. }
  destruct (drain_all_succeed E (GroupID cfg) (TopicID info) s _ w uploads_succeed Hin)
    as (_ & Hkeep & _ & sent & He & _).
  split; [by exists sent | exact Hkeep].
Qed.

Lemma foldl_deliverSession_grows cfg l w :
  (∃ sent, effects (foldl (fun w' s => deliverSession E cfg s w') w l)
             = effects w ++ sent) ∧
  (∀ id, isDelivered id (messages w) = true →
         isDelivered id (messages (foldl (fun w' s => deliverSession E cfg s w') w l))
           = true).
Proof.
  revert w. induction l as [|s l IH]; intros w.
  - split; [exists []; by rewrite app_nil_r | done].
  - cbn [foldl]. destruct (IH (deliverSession E cfg s w)) as [(sent2 & He2) Hd2].
    destruct (deliverSession_grows cfg s w) as [(sent1 & He1) Hd1]. split.
    + exists (sent1 ++ sent2). by rewrite He2, He1, app_assoc.
    + intros id Hid. by apply Hd2, Hd1.
Qed.

Lemma renderHTML_fields s m rec :
  MType m = MType rec → Text m = Text rec → renderHTML E s m = renderHTML E s rec.
Proof. intros Ht Hx. unfold renderHTML. by rewrite Ht, Hx. Qed.

(** X19.  The way from a producer to the chat, when the uploads
    succeed.  A record that a hook or the poller appends under a new id,
    not delivered, for a session linked to a thread, is pending after the
    append; the next wake-up of the delivery loop uploads its body (the
    one of its kind) to the thread of its session and leaves the row
    delivered. *)
Theorem queued_record_reaches_thread (rec : MessageRecord) (info : SessionInfo)
    (w : World) :
  messages w !! ID rec = None →
  TgDelivered rec = false →
  Sessions (config w) !! Session rec = Some (Some info) →
  TopicID info ≠ 0 → GroupID (config w) ≠ 0 →
  let w1 := appendMessageW E rec w in
  let w2 := deliveryCycle E w1 in
  isDelivered (ID rec) (messages w1) = false ∧
  (∃ m, m ∈ findPending (Session rec) (messages w1) ∧ ID m = ID rec ∧
        Text m = Text rec ∧ MType m = MType rec) ∧
  isDelivered (ID rec) (messages w2) = true ∧
  (∀ html, renderHTML E (Session rec) rec = Some html →
           TgSendHTML (GroupID (config w)) (TopicID info) html ∈ effects w2).
Proof.
  intros Hfresh Hund Hs Ht Hg w1 w2.
  destruct (messages_appendMessageW E rec w) as (now & Hm1). fold w1 in Hm1.
  assert (config w1 = config w) as Hc1
    by (subst w1; unfold appendMessageW; by destruct (_ =? _)).
  set (r0 := mkRow (Session rec) (MType rec) (Text rec) (Origin rec) 0 (TgMsgID rec) 0
                   (if Timestamp rec =? 0 then now else Timestamp rec)).
  assert (messages w1 !! ID rec = Some r0) as Hr0.
  { rewrite Hm1, (appendMessage_fresh _ _ _ Hfresh), Hund. done. }
  set (m := scanRow (ID rec, r0)).
  assert (∀ db, db !! ID rec = Some r0 → m ∈ findPending (Session rec) db) as Hpend.
  { intros db Hdb. apply elem_of_findPending. exists r0. by repeat split. }
  split; [unfold isDelivered; by rewrite Hr0|].
  split; [exists m; split; [by apply Hpend|done]|].
  subst w2. unfold deliveryCycle. rewrite Hc1.
  assert (Session rec ∈ allSessions (messages w1)) as Hin.
  { apply elem_of_allSessions. by exists (ID rec), r0. }
  apply list_elem_of_split in Hin as (l1 & l2 & Hl).
  pose proof (NoDup_remove_dups
                ((fun kr : string * Row => session kr.2) <$>
                   filter (fun kr : string * Row => tg_delivered kr.2 = 0)
                          (map_to_list (messages w1)))) as Hnd.
  fold (allSessions (messages w1)) in Hnd. rewrite Hl in *.
  apply NoDup_app in Hnd as (Hnd1 & Hdis & _).
  rewrite foldl_app. cbn [foldl].
  set (wA := foldl (fun w' s => deliverSession E (config w) s w') w1 l1).
  assert (messages wA !! ID rec = Some r0) as HrA.
  { destruct (foldl_deliverSession_row E (config w) l1 w1 (ID rec) r0 Hnd1 Hr0)
      as (r' & Hr' & _ & _ & Hsame).
    unfold wA. rewrite Hr'. f_equal. apply Hsame. intros Hin1.
    apply (Hdis _ Hin1). by left. }
  set (wB := deliverSession E (config w) (Session rec) wA).
  assert (isDelivered (ID rec) (messages wB) = true ∧
          ∀ html, renderHTML E (Session rec) rec = Some html →
                  TgSendHTML (GroupID (config w)) (TopicID info) html ∈ effects wB)
    as [HdB HeB].
  { destruct (deliverSession_all_succeed E (config w) info (Session rec) wA
                uploads_succeed Hs Ht Hg) as (_ & Hall & _ & sent & He & Hf).
    fold wB in Hall, He. split; [exact (Hall m (Hpend _ HrA))|].
    intros html Hh. rewrite He. apply elem_of_app. right.
    assert (TgSendHTML (GroupID (config w)) (TopicID info) html ∈ filter isUpload sent)
      as Hup.
    { rewrite Hf. apply list_elem_of_fmap. exists html. split; [done|].
      apply list_elem_of_omap. exists m. split; [by apply Hpend|].
      by rewrite (renderHTML_fields _ m rec). }
    by apply list_elem_of_filter in Hup as [_ ?]. }
  destruct (foldl_deliverSession_grows (config w) l2 wB) as [(sent & He) Hd].
  split; [by apply Hd|]. intros html Hh. rewrite He. apply elem_of_app. left.
  by apply HeB.
Qed.

End Reach.

Lemma queued_record_reaches_thread_witness :
  TgSendHTML (-100) 5 ("<b>proj:</b>" +:+ nl +:+ "first")
    ∈ effects (deliveryCycle steadyEnv (appendMessageW steadyEnv msgA emptyWorld)).
Proof.
  assert (∀ n, ∃ tg, upload steadyEnv n = SendOk tg) as Hok
    by (intros n; eexists; reflexivity).
  assert (TopicID (mkSessionInfo 5 "/home/u/proj" "@1" "") ≠ 0) as Ht by (simpl; lia).
  assert (GroupID (config emptyWorld) ≠ 0) as Hg by (simpl; lia).
  pose proof (queued_record_reaches_thread steadyEnv Hok msgA _ emptyWorld
                eq_refl eq_refl eq_refl Ht Hg) as (_ & _ & _ & H).
  exact (H _ eq_refl).
Defined.

(** ** The notification hook *)

Lemma effects_persistClaudeSessionID sessName sid w :
  effects (persistClaudeSessionID sessName sid w) = effects w.
Proof.
  unfold persistClaudeSessionID. destruct (_ || _); [done|].
  destruct (Sessions (config w) !! sessName) as [[info|]|]; try done.
  by destruct (negb _).
Qed.

(** X20.  The notification hook, for a session it resolves to a thread.
    An idle prompt records nothing and only clears the typing flag.  Any
    other notification is recorded once, as an undelivered notification
    row of the session whose text is the bell and the message, or the
    title when there is no message, or the kind when there is neither,
    and the listener is woken; with none of the three nothing is
    recorded. *)
Theorem notification_hook_records (E : Env) (ev : HookEvent) (w : World)
    (sessName : string) (topicID : Z) :
  findSession (config w) (Cwd (he_data ev)) (SessionID (he_data ev))
    = (sessName, topicID) →
  sessName ≠ "" → GroupID (config w) ≠ 0 → topicID ≠ 0 →
  let w' := handleNotificationHook E ev w in
  (NotificationType ev = "idle_prompt" →
   messages w' = messages w ∧
   effects w' = effects w ++ [FlagRemove (Thinking sessName)]) ∧
  (NotificationType ev ≠ "idle_prompt" → noticeText ev = "" →
   messages w' = messages w ∧ effects w' = effects w) ∧
  (NotificationType ev ≠ "idle_prompt" → noticeText ev ≠ "" →
   ∃ nano now,
     messages w' =
       appendMessage (noticeRecord "notif" sessName (SessionID (he_data ev)) nano
                                   ("🔔 " +:+ noticeText ev))
                     now (messages w) ∧
     effects w' = effects w ++ [NotifyListener]).
Proof.
  intros Hf Hn Hg Ht w'. subst w'. unfold handleNotificationHook. rewrite Hf.
  rewrite (proj2 (String.eqb_neq _ _) Hn), (proj2 (Z.eqb_neq _ _) Hg),
    (proj2 (Z.eqb_neq _ _) Ht). cbn [orb].
  set (wp := persistClaudeSessionID sessName (SessionID (he_data ev)) w).
  assert (messages wp = messages w) as Hmp by apply messages_persistClaudeSessionID.
  assert (effects wp = effects w) as Hep by apply effects_persistClaudeSessionID.
  assert ((if negb (String.eqb (Message ev) "") then "🔔 " +:+ Message ev
           else if negb (String.eqb (Title ev) "") then "🔔 " +:+ Title ev
           else if negb (String.eqb (NotificationType ev) "")
                then "🔔 " +:+ NotificationType ev else "")
          = if decide (noticeText ev = "") then "" else "🔔 " +:+ noticeText ev)
    as Hmsg.
  { unfold noticeText.
    destruct (String.eqb_spec (Message ev) "") as [Hm|Hm]; cbn [negb];
      destruct (decide (Message ev ≠ "")) as [Hm'|Hm']; try done;
      [|by rewrite decide_False].
    destruct (String.eqb_spec (Title ev) "") as [Hti|Hti]; cbn [negb];
      destruct (decide (Title ev ≠ "")) as [Hti'|Hti']; try done;
      [|by rewrite decide_False].
    destruct (String.eqb_spec (NotificationType ev) "") as [Hk|Hk]; cbn [negb].
    - by rewrite decide_True.
    - by rewrite decide_False. }
  split; [|split].
  - intros ->. cbn. by rewrite Hmp, Hep.
  - intros Hidle Hnone. rewrite (proj2 (String.eqb_neq _ _) Hidle), Hmsg.
    rewrite decide_True by done. cbn. done.
  - intros Hidle Hsome. rewrite (proj2 (String.eqb_neq _ _) Hidle), Hmsg.
    rewrite decide_False by done.
    change (String.eqb ("🔔 " +:+ noticeText ev) "") with false. cbn [negb].
    eexists _, _. split.
    + cbn [messages emit]. unfold appendMessageW. cbn [Timestamp Z.eqb].
      cbn [messages tick set_messages]. rewrite Hmp. reflexivity.
    + cbn [effects emit]. unfold appendMessageW. cbn [Timestamp Z.eqb].
      cbn [effects tick set_messages]. by rewrite Hep.
Qed.

Lemma notification_hook_records_witness :
  ∃ nano now,
    messages (handleNotificationHook sampleEnv permissionNotice emptyWorld) =
      appendMessage
        (noticeRecord "notif" "proj" "sid-1" nano
           ("🔔 " +:+ "Claude needs your permission to use Bash"))
        now (messages emptyWorld) ∧
    effects (handleNotificationHook sampleEnv permissionNotice emptyWorld) =
      effects emptyWorld ++ [NotifyListener].
Proof.
  assert ("proj" ≠ "") as Hn by discriminate.
  assert (GroupID (config emptyWorld) ≠ 0) as Hg by (simpl; lia).
  assert (5 ≠ 0) as Ht by lia.
  assert (NotificationType permissionNotice ≠ "idle_prompt") as Hi by discriminate.
  assert (noticeText permissionNotice ≠ "") as Hx by (vm_compute; discriminate).
  pose proof (notification_hook_records sampleEnv permissionNotice emptyWorld "proj" 5
                eq_refl Hn Hg Ht) as (_ & _ & H).
  exact (H Hi Hx).
Defined.

(** ** The stop hook *)

Lemma effects_foldl_queueBlock contentHash E sessName blocks st :
  effects (foldl (queueBlock contentHash E sessName) st blocks).1 = effects st.1.
Proof.
  revert st. induction blocks as [|b blocks IH]; intros st; [done|].
  cbn [foldl]. rewrite IH. unfold queueBlock. destruct (isDelivered _ _); [done|].
  cbn [fst]. unfold appendMessageW. by destruct (_ =? _).
Qed.

(** X21.  The stop hook, for a session it resolves to a thread: it
    removes the chat-input flag and the typing flag, queues the replies
    of the transcript tail that the ledger does not hold, leaves the
    session without tool state, and wakes the listener exactly when some
    reply of the tail is not delivered yet; these are its only calls
    before it starts the retry process. *)
Theorem stop_hook_trace (contentHash : string → string) (E : Env)
    (unmarshal : string → option transcriptLine) (ev : HookEvent)
    (file : option string) (w : World) (sessName : string) (topicID : Z) :
  findSession (config w) (Cwd (he_data ev)) (SessionID (he_data ev))
    = (sessName, topicID) →
  sessName ≠ "" → GroupID (config w) ≠ 0 → topicID ≠ 0 →
  let blocks := extractRecentAssistantTexts unmarshal (TranscriptPath ev) file 80 in
  let undelivered :=
    filter (fun b => isDelivered (blockID contentHash b) (messages w) = false) blocks in
  let w' := handleStopHook contentHash E unmarshal ev file w in
  effects w' =
    effects w ++ [FlagRemove (TelegramActive (tmuxSafeName sessName));
                  FlagRemove (Thinking sessName)]
              ++ (if decide (undelivered = []) then [] else [NotifyListener]) ∧
  tool_state w' !! sessName = None ∧
  (∀ id r, messages w !! id = Some r → messages w' !! id = Some r) ∧
  (∀ b, b ∈ blocks → is_Some (messages w' !! blockID contentHash b)).
Proof.
  intros Hf Hn Hg Ht blocks undelivered w'. subst w'. unfold handleStopHook.
  rewrite Hf. rewrite (proj2 (String.eqb_neq _ _) Hn), (proj2 (Z.eqb_neq _ _) Hg),
    (proj2 (Z.eqb_neq _ _) Ht). cbn [orb].
  set (wp := emit (FlagRemove (Thinking sessName))
               (emit (FlagRemove (TelegramActive (tmuxSafeName sessName)))
                  (persistClaudeSessionID sessName (SessionID (he_data ev)) w))).
  assert (messages wp = messages w) as Hmp by apply messages_persistClaudeSessionID.
  assert (effects wp = effects w ++ [FlagRemove (TelegramActive (tmuxSafeName sessName));
                                     FlagRemove (Thinking sessName)]) as Hep.
  { subst wp. cbn [effects emit]. rewrite effects_persistClaudeSessionID.
    by rewrite <- app_assoc. }
  unfold deliverUnsentTexts. fold blocks.
  destruct (foldl_queueBlock contentHash E sessName blocks (wp, 0))
    as (Hkeep & Hrows & _ & _ & Hsent).
  pose proof (effects_foldl_queueBlock contentHash E sessName blocks (wp, 0)) as He.
  destruct (foldl (queueBlock contentHash E sessName) (wp, 0) blocks) as [w1 sent].
  cbn [fst snd] in *. rewrite Hmp in Hsent. fold undelivered in Hsent.
  assert ((0 <? sent) = if decide (undelivered = []) then false else true) as ->.
  { rewrite Hsent. destruct undelivered; [done|]. rewrite decide_False by done.
    apply Z.ltb_lt. simpl. lia. }
  split; [|split; [|split]].
  - destruct (decide (undelivered = [])); cbn [effects emit clearToolState];
      rewrite He, Hep, <- ?app_assoc; [by rewrite app_nil_r | done].
  - destruct (decide (undelivered = [])); cbn [tool_state emit clearToolState];
      apply lookup_delete_eq.
  - intros id r Hr. rewrite <- Hmp in Hr. specialize (Hkeep _ _ Hr).
    by destruct (decide (undelivered = [])).
  - intros b Hb. destruct (Hrows b Hb) as (r & Hr & _).
    destruct (decide (undelivered = [])); cbn [messages emit clearToolState]; eauto.
Qed.

Lemma stop_hook_trace_witness :
  effects (handleStopHook (fun s => s) sampleEnv oneReply stopEvent (Some "{}")
             emptyWorld) =
    [FlagRemove (TelegramActive "proj"); FlagRemove (Thinking "proj"); NotifyListener] ∧
  is_Some (messages (handleStopHook (fun s => s) sampleEnv oneReply stopEvent
                       (Some "{}") emptyWorld) !! "reply:req_1:All done.").
Proof.
  assert ("proj" ≠ "") as Hn by discriminate.
  assert (GroupID (config emptyWorld) ≠ 0) as Hg by (simpl; lia).
  assert (5 ≠ 0) as Ht by lia.
  pose proof (stop_hook_trace (fun s => s) sampleEnv oneReply stopEvent (Some "{}")
                emptyWorld "proj" 5 eq_refl Hn Hg Ht) as (He & _ & _ & Hb).
  split; [exact He|].
  apply (Hb (mkAssistantTextBlock "req_1" "All done.")). vm_compute. by left.
Defined.

(** ** The hooks in the settings *)

(** A loop over distinct keys whose turn for a key changes the value of
    that key alone, from the value it finds there. *)
Section KeyLocal.

Context {A B : Type} (key : B → string)
        (upd : gmap string A → B → gmap string A)
        (at_key : B → option A → option A).
Hypothesis upd_eq : ∀ h b, upd h b !! key b = at_key b (h !! key b).
Hypothesis upd_ne : ∀ h b k, k ≠ key b → upd h b !! k = h !! k.

Lemma foldl_key_other l h k : k ∉ key <$> l → foldl upd h l !! k = h !! k.
Proof.
  revert h. induction l as [|b l IH]; intros h Hk; [done|].
  rewrite fmap_cons, not_elem_of_cons in Hk. destruct Hk as [Hne Hk].
  cbn [foldl]. by rewrite IH, upd_ne.
Qed.

Lemma foldl_key_at l h b :
  NoDup (key <$> l) → b ∈ l → foldl upd h l !! key b = at_key b (h !! key b).
Proof.
  revert h. induction l as [|b0 l IH]; intros h Hnd Hb; [by apply elem_of_nil in Hb|].
  rewrite fmap_cons in Hnd. apply NoDup_cons in Hnd as [Hnotin Hnd]. cbn [foldl].
  destruct (decide (key b = key b0)) as [Heq|Hne].
  - rewrite Heq in *. rewrite foldl_key_other by done. rewrite upd_eq.
    apply elem_of_cons in Hb as [->|Hb]; [done|].
    destruct Hnotin. rewrite <- Heq. apply list_elem_of_fmap. by exists b.
  - apply elem_of_cons in Hb as [->|Hb]; [done|]. by rewrite IH, upd_ne.
Qed.

End KeyLocal.


Section SettingsFacts.

Context {Num : Type} (num : Z → Num).

Implicit Types (hooks : gmap string (JSON Num)) (v : option (JSON Num))
               (settings : gmap string (JSON Num)).

Lemma dropCccHooks_eq hooks t : dropCccHooks hooks t !! t = cleaned (hooks !! t).
Proof.
  unfold dropCccHooks, cleaned.
  destruct (hooks !! t) as [[| | | |l|]|] eqn:Ht; try exact Ht.
  destruct (removeCccHooks l) as [|e f]; cbn [length Nat.eqb].
  - apply lookup_delete_eq.
  - apply lookup_insert_eq.
Qed.

Lemma dropCccHooks_ne hooks t k : k ≠ t → dropCccHooks hooks t !! k = hooks !! k.
Proof.
  intros Hne. unfold dropCccHooks. destruct (hooks !! t) as [[| | | |l|]|]; try done.
  destruct (Nat.eqb _ _).
  - by apply lookup_delete_ne.
  - by apply lookup_insert_ne.
Qed.

Ltac distinct_strings :=
  repeat (apply NoDup_cons; split;
          [rewrite ?elem_of_cons, elem_of_nil; intros H;
           repeat (destruct H as [H|H]; [discriminate H|]); exact H|]);
  apply NoDup_nil_2.

Lemma NoDup_allHookTypes : NoDup allHookTypes.
Proof. unfold allHookTypes. distinct_strings. Qed.

(** What the removal loop leaves under each key. *)
Lemma lookup_dropped hooks k :
  foldl dropCccHooks hooks allHookTypes !! k =
    if decide (k ∈ allHookTypes) then cleaned (hooks !! k) else hooks !! k.
Proof.
  destruct (decide (k ∈ allHookTypes)) as [Hin|Hout].
  - apply (foldl_key_at id dropCccHooks (fun _ => cleaned)
             dropCccHooks_eq (fun h b k0 => dropCccHooks_ne h b k0) allHookTypes hooks k);
      [rewrite list_fmap_id; apply NoDup_allHookTypes | done].
  - apply (foldl_key_other id dropCccHooks (fun h b k0 => dropCccHooks_ne h b k0)).
    by rewrite list_fmap_id.
Qed.

Lemma removeCccHooks_clean (l : list (JSON Num)) :
  Forall (fun e => isCccHook e = false) (removeCccHooks l).
Proof.
  apply Forall_forall. intros e He. by apply list_elem_of_filter in He as [? _].
Qed.

Lemma removeCccHooks_id (l : list (JSON Num)) :
  Forall (fun e => isCccHook e = false) l → removeCccHooks l = l.
Proof.
  induction 1 as [|e l He Hl IH]; [done|]. unfold removeCccHooks in *.
  by rewrite filter_cons, decide_True, IH.
Qed.

Lemma removeCccHooks_all (l : list (JSON Num)) :
  Forall (fun e => isCccHook e = true) l → removeCccHooks l = [].
Proof.
  induction 1 as [|e l He Hl IH]; [done|]. unfold removeCccHooks in *.
  rewrite filter_cons, decide_False, IH; [done|]. by rewrite He.
Qed.

Lemma removeCccHooks_app (l1 l2 : list (JSON Num)) :
  removeCccHooks (l1 ++ l2) = removeCccHooks l1 ++ removeCccHooks l2.
Proof. apply filter_app. Qed.

Lemma cleaned_idemp v : cleaned (cleaned v) = cleaned v.
Proof.
  destruct v as [[| | | |l|]|]; try reflexivity. cbn [cleaned].
  destruct (removeCccHooks l) as [|e f] eqn:Hf; [reflexivity|].
  cbn [cleaned]. rewrite removeCccHooks_id; [done|].
  rewrite <- Hf. apply removeCccHooks_clean.
Qed.

(** The entries left under a key are free of ccc hooks, and there is at
    least one of them. *)
Lemma cleaned_array v l :
  cleaned v = Some (JArray l) → l ≠ [] ∧ Forall (fun e => isCccHook e = false) l.
Proof.
  unfold cleaned. destruct v as [[| | | |l0|]|]; try done.
  destruct (removeCccHooks l0) as [|e f] eqn:Hf; [done|]. intros [= <-].
  split; [done|]. rewrite <- Hf. apply removeCccHooks_clean.
Qed.

Lemma hookArray_cleaned v :
  Forall (fun e => isCccHook e = false) (hookArray (cleaned v)) ∧
  cleaned (Some (JArray (hookArray (cleaned v)))) =
    match cleaned v with
    | Some (JArray l) => Some (JArray l)
    | _ => None
    end.
Proof.
  destruct (cleaned v) as [[| | | |l|]|] eqn:Hc; try (split; [by constructor|done]).
  destruct (cleaned_array _ _ Hc) as [Hne Hl]. cbn [hookArray]. split; [done|].
  unfold cleaned. rewrite removeCccHooks_id by done. by destruct l.
Qed.

Lemma hooksOf_insert settings hooks :
  hooksOf (<["hooks" := JObject hooks]> settings) = Some hooks.
Proof. unfold hooksOf. by rewrite lookup_insert_eq. Qed.

(** X22.  [uninstallHook] writes nothing when the settings hold no hooks
    object.  Otherwise it rewrites that object alone: under each of the
    eight hook types an array loses its ccc hooks and keeps its other
    entries in their order, and the key goes when none is left; values
    that are not arrays, other keys of the object and the other settings
    stay.  Afterwards no entry under a hook type is a ccc hook, and
    uninstalling again writes the same settings. *)
Theorem uninstallHook_removes_ccc_hooks (settings written : gmap string (JSON Num))
    (hooks : gmap string (JSON Num)) :
  (hooksOf settings = None → uninstallHook settings = None) ∧
  (hooksOf settings = Some hooks → uninstallHook settings = Some written →
   ∃ hooks',
     written = <["hooks" := JObject hooks']> settings ∧
     (∀ k, hooks' !! k =
           if decide (k ∈ allHookTypes) then cleaned (hooks !! k) else hooks !! k) ∧
     (∀ k l, k ∈ allHookTypes → hooks !! k = Some (JArray l) →
             hooks' !! k = if decide (removeCccHooks l = []) then None
                           else Some (JArray (removeCccHooks l))) ∧
     (∀ k l e, k ∈ allHookTypes → hooks' !! k = Some (JArray l) → e ∈ l →
               isCccHook e = false) ∧
     uninstallHook written = Some written).
Proof.
  split; [by intros H; unfold uninstallHook; rewrite H|].
  intros Hh. unfold uninstallHook. rewrite Hh. intros Heq.
  apply (inj Some) in Heq. subst written.
  set (hooks' := foldl dropCccHooks hooks allHookTypes).
  assert (∀ k, hooks' !! k =
               if decide (k ∈ allHookTypes) then cleaned (hooks !! k) else hooks !! k)
    as Hl by apply lookup_dropped.
  exists hooks'. split; [done|]. split; [exact Hl|]. split; [|split].
  - intros k l Hk Hkl. rewrite Hl, decide_True, Hkl by done. cbn [cleaned].
    destruct (removeCccHooks l); [by rewrite decide_True | by rewrite decide_False].
  - intros k l e Hk Hkl He. rewrite Hl, decide_True in Hkl by done.
    destruct (cleaned_array _ _ Hkl) as [_ Hall].
    by apply (proj1 (Forall_forall _ _) Hall).
  - rewrite hooksOf_insert. f_equal. rewrite insert_insert_eq. f_equal. f_equal.
    apply map_eq. intros k. rewrite lookup_dropped, Hl.
    destruct (decide (k ∈ allHookTypes)); [apply cleaned_idemp | done].
Qed.

(** *** Installing *)

Lemma addCccHooks_eq hooks (p : string * list (JSON Num)) :
  addCccHooks hooks p !! p.1 = Some (JArray (p.2 ++ hookArray (hooks !! p.1))).
Proof. apply lookup_insert_eq. Qed.

Lemma addCccHooks_ne hooks (p : string * list (JSON Num)) k :
  k ≠ p.1 → addCccHooks hooks p !! k = hooks !! k.
Proof. intros Hne. by apply lookup_insert_ne. Qed.

Lemma NoDup_cccHooks cccPath : NoDup ((cccHooks num cccPath).*1).
Proof. unfold cccHooks. cbn [fmap list_fmap fst]. distinct_strings. Qed.

Lemma cccHooks_keys cccPath k :
  k ∈ (cccHooks num cccPath).*1 → k ∈ allHookTypes.
Proof.
  unfold cccHooks. cbn [fmap list_fmap fst].
  rewrite !elem_of_cons, elem_of_nil. unfold allHookTypes.
  rewrite !elem_of_cons. tauto.
Qed.

(** What [installHook] leaves under each key of the hooks object. *)
Lemma lookup_installed cccPath hooks k :
  foldl addCccHooks (foldl dropCccHooks hooks allHookTypes) (cccHooks num cccPath) !! k =
    match list_find (fun p : string * list (JSON Num) => p.1 = k) (cccHooks num cccPath) with
    | Some (_, p) => Some (JArray (p.2 ++ hookArray (cleaned (hooks !! k))))
    | None => if decide (k ∈ allHookTypes) then cleaned (hooks !! k) else hooks !! k
    end.
Proof.
  destruct (list_find _ _) as [[i p]|] eqn:Hfind.
  - apply list_find_Some in Hfind as (Hi & <- & _).
    apply list_elem_of_lookup_2 in Hi.
    rewrite (foldl_key_at fst addCccHooks
               (fun p v => Some (JArray (p.2 ++ hookArray v)))
               addCccHooks_eq addCccHooks_ne (cccHooks num cccPath) _ p
               (NoDup_cccHooks cccPath) Hi).
    rewrite lookup_dropped, decide_True; [done|].
    apply (cccHooks_keys cccPath). apply list_elem_of_fmap. by exists p.
  - apply list_find_None in Hfind.
    rewrite (foldl_key_other fst addCccHooks addCccHooks_ne); [apply lookup_dropped|].
    intros Hin. apply list_elem_of_fmap in Hin as (p & -> & Hp).
    by apply (proj1 (Forall_forall _ _) Hfind p Hp).
Qed.

Lemma isCccHook_cccHookEntry command more matcher :
  Contains command "ccc hook" = true →
  isCccHook (cccHookEntry (Num := Num) command more matcher) = true.
Proof.
  intros Hc. unfold cccHookEntry, isCccHook, commandIsCcc.
  destruct matcher as [p|].
  - rewrite (lookup_insert_ne _ "matcher" "command") by discriminate.
    rewrite (lookup_insert_ne _ "hooks" "command") by discriminate.
    rewrite lookup_empty.
    rewrite (lookup_insert_ne _ "matcher" "hooks") by discriminate.
    rewrite lookup_insert_eq. cbn [existsb]. rewrite lookup_insert_eq.
    cbn [default from_option]. unfold id. by rewrite Hc.
  - rewrite (lookup_insert_ne _ "hooks" "command") by discriminate.
    rewrite lookup_empty, lookup_insert_eq. cbn [existsb]. rewrite lookup_insert_eq.
    cbn [default from_option]. unfold id. by rewrite Hc.
Qed.

Lemma Contains_ccc_hook dir suffix :
  Contains ((dir +:+ "ccc") +:+ " hook" +:+ suffix) "ccc hook" = true.
Proof.
  apply Contains_spec. exists dir, suffix. rewrite !append_assoc. done.
Qed.

Lemma cccHooks_are_ccc dir p :
  p ∈ cccHooks num (dir +:+ "ccc") → Forall (fun e => isCccHook e = true) p.2.
Proof.
  unfold cccHooks. rewrite !elem_of_cons, elem_of_nil.
  intros H. repeat (destruct H as [->|H]; [
    cbn [snd]; constructor; [|constructor];
    apply isCccHook_cccHookEntry;
    match goal with
    | |- Contains (_ +:+ String _ (String _ (String _ (String _ (String _ ?s))))) _ = _ =>
        apply (Contains_ccc_hook dir s)
    end|]).
  done.
Qed.


(** X24.  Uninstalling after installing gives what uninstalling alone
    gives, when the settings hold a hooks object in which each of the
    seven hook types of [cccHooks] is absent or an array: the installed
    hooks are all recognised (the path of the binary ends in [ccc]) and
    removed, and the entries of the user come back in their order.  When
    the settings hold no hooks object, uninstalling alone writes nothing,
    and uninstalling after installing leaves an empty hooks object. *)
Theorem uninstall_undoes_install (dir : string) (settings : gmap string (JSON Num)) :
  let cccPath := dir +:+ "ccc" in
  (hooksOf settings = None →
   uninstallHook settings = None ∧
   uninstallHook (installHook num cccPath settings)
     = Some (<["hooks" := JObject ∅]> settings)) ∧
  (∀ hooks,
     hooksOf settings = Some hooks →
     (∀ k new, (k, new) ∈ cccHooks num cccPath →
               hooks !! k = None ∨ ∃ l, hooks !! k = Some (JArray l)) →
     uninstallHook (installHook num cccPath settings) = uninstallHook settings).
Proof.
  intros cccPath.
  assert (∀ hooks,
            default ∅ (hooksOf settings) = hooks →
            (∀ k new, (k, new) ∈ cccHooks num cccPath →
                      hooks !! k = None ∨ ∃ l, hooks !! k = Some (JArray l)) →
            uninstallHook (installHook num cccPath settings)
              = Some (<["hooks" := JObject (foldl dropCccHooks hooks allHookTypes)]>
                        settings)) as Hboth.
  { intros hooks Hh Harr. unfold installHook. rewrite Hh.
    unfold uninstallHook. rewrite hooksOf_insert, insert_insert_eq.
    f_equal. f_equal. f_equal. apply map_eq. intros k.
    rewrite lookup_dropped, lookup_installed, lookup_dropped.
    destruct (list_find _ _) as [[i p]|] eqn:Hfind.
    - apply list_find_Some in Hfind as (Hi & <- & _).
      apply list_elem_of_lookup_2 in Hi.
      assert (p.1 ∈ allHookTypes) as Hin.
      { apply (cccHooks_keys cccPath). apply list_elem_of_fmap. by exists p. }
      rewrite !decide_True by done.
      destruct (hookArray_cleaned (hooks !! p.1)) as [Hclean Hagain].
      transitivity (cleaned (Some (JArray (hookArray (cleaned (hooks !! p.1)))))).
      + cbn [cleaned]. rewrite removeCccHooks_app.
        by rewrite (removeCccHooks_all p.2) by (by apply (cccHooks_are_ccc dir)).
      + rewrite Hagain. destruct p as [k new].
        destruct (Harr k new Hi) as [Hk|[l Hk]]; cbn [fst] in *; rewrite Hk; [done|].
        cbn [cleaned]. by destruct (removeCccHooks l).
    - destruct (decide (k ∈ allHookTypes)); [apply cleaned_idemp | done]. }
  split.
  - intros Hnone. split; [by unfold uninstallHook; rewrite Hnone|].
    rewrite (Hboth ∅); [|by rewrite Hnone|by intros k new _; left].
    do 3 f_equal; apply map_eq; intros k; rewrite lookup_dropped, lookup_empty;
      by destruct (decide _).
  - intros hooks Hh Harr. rewrite (Hboth hooks); [|by rewrite Hh|done].
    unfold uninstallHook. by rewrite Hh.
Qed.

End SettingsFacts.

Lemma uninstall_undoes_install_witness :
  uninstallHook (installHook id ("/usr/local/bin/" +:+ "ccc") userSettings)
    = uninstallHook userSettings.
Proof.
  apply (proj2 (uninstall_undoes_install id "/usr/local/bin/" userSettings)
               (<["Stop" := JArray [JObject (<["command" := JString "say done"]> ∅)]]> ∅));
    [reflexivity|].
  intros k new Hin. apply (list_elem_of_fmap_2 fst) in Hin.
  cbn [fmap list_fmap fst cccHooks] in Hin.
  rewrite !elem_of_cons, elem_of_nil in Hin.
  repeat (destruct Hin as [->|Hin]; [first [by left | right; eexists; reflexivity]|]).
  done.
Defined.

(** * The button payload of the pre-tool hook *)


